(** * Tool-invocation protocol layer: native call parser and dispatch contract

    A shallow embedding of
      - [NativeToolCallParser.parseToolCall] (both revisions in the tree),
      - [BaseTool.handle],
      - [ListFilesTool], [AttemptCompletionTool] and [NewTaskTool]:
        [parseLegacy], and [execute] (whole for [NewTaskTool]; for the other
        two up to the validation of the required parameter, the rest of
        the body being a parameter),
    together with the part of the JavaScript runtime those functions lean
    on: completions (normal / throw), JSON values, [JSON.parse],
    [JSON.stringify], [Object.entries], [String(...)] and truthiness.

    Conventions.
      - A JavaScript string is a Rocq [string] holding its UTF-8 bytes (a
        lone surrogate is held as its three-byte generalised form).
      - Numbers are IEEE doubles in the engine; here the number type and its
        four routines are an interface ([JsNumber]) the development is
        parametric in.
      - [console.log]/[console.warn]/[console.error] calls are not modelled:
        they neither throw nor change a value the program reads. *)

From Stdlib Require Import ZArith NArith Ascii String List.
From stdpp Require Import base option list strings gmap pretty.

Open Scope string_scope.

(** ** Completions *)

(** Every value thrown by the modelled code is an [Error] instance. *)
Inductive JsError : Type :=
  | Error (message : string)
  | SyntaxError (message : string)
  | TypeError (message : string).

Definition message (e : JsError) : string :=
  match e with
  | Error m | SyntaxError m | TypeError m => m
  end.

Inductive completion (A : Type) : Type :=
  | Normal (a : A)
  | Throw (e : JsError).
Arguments Normal {A} a.
Arguments Throw {A} e.

#[export] Instance completion_ret : MRet completion := @Normal.
#[export] Instance completion_bind : MBind completion :=
  λ A B f m, match m with Normal a => f a | Throw e => Throw e end.

(** [try { body } catch (error) { handler }] *)
Definition try_catch {A} (body : completion A) (handler : JsError → completion A)
  : completion A :=
  match body with
  | Normal a => Normal a
  | Throw e => handler e
  end.

(** ** Numbers *)

Class JsNumber : Type := {
  number : Type;
  (** the Number value of a JSON numeric literal *)
  StringToNumber : string → number;
  (** [ToBoolean]: false exactly for +0, -0 and NaN *)
  NumberToBoolean : number → bool;
  (** false exactly for NaN, +Infinity and -Infinity *)
  NumberIsFinite : number → bool;
  (** [Number::toString(x, 10)] *)
  NumberToString : number → string;
  (** [parseInt(s, 10)] *)
  parseInt10 : string → number;
}.

(** ** Values *)

Section Values.
Context `{JsNumber}.

(** [VObject props] lists the own enumerable string-keyed properties in the
    order [Object.entries] reports them; keys are pairwise distinct. *)
#[warnings="-register-all"]
Inductive JsVal : Type :=
  | VUndefined
  | VNull
  | VBool (b : bool)
  | VNumber (n : number)
  | VString (s : string)
  | VArray (elems : list JsVal)
  | VObject (props : list (string * JsVal)).

Definition ToBoolean (v : JsVal) : bool :=
  match v with
  | VUndefined | VNull => false
  | VBool b => b
  | VNumber n => NumberToBoolean n
  | VString s => negb (String.eqb s "")
  | VArray _ | VObject _ => true
  end.

Definition is_undefined (v : JsVal) : bool :=
  match v with VUndefined => true | _ => false end.

Definition Array_isArray (v : JsVal) : bool :=
  match v with VArray _ => true | _ => false end.

Fixpoint own_property (key : string) (props : list (string * JsVal)) : option JsVal :=
  match props with
  | [] => None
  | (k, v) :: rest => if String.eqb k key then Some v else own_property key rest
  end.

(** [v.key] for the property names the parser reads. None of them is defined
    on [Object.prototype], [Array.prototype], [String.prototype],
    [Number.prototype] or [Boolean.prototype], so the read yields the own
    property of an object and [undefined] otherwise. (On [null] and
    [undefined] the read throws; the parser never gets that far, because
    [Object.entries] has thrown before.) *)
Definition get (v : JsVal) (key : string) : JsVal :=
  match v with
  | VObject props => default VUndefined (own_property key props)
  | _ => VUndefined
  end.

(** *** UTF-16 code units of a string held as UTF-8 *)

Definition byte_string (bs : list N) : string :=
  string_of_list_ascii (map ascii_of_N bs).

(** The three-byte form of a code unit in 0x0800..0xFFFF. *)
Definition three_bytes (u : N) : list N :=
  [N.lor 0xE0 (N.shiftr u 12);
   N.lor 0x80 (N.land (N.shiftr u 6) 0x3F);
   N.lor 0x80 (N.land u 0x3F)].

Definition utf8_of_code_unit (u : N) : string :=
  if (u <? 0x80)%N then byte_string [u]
  else if (u <? 0x800)%N then
    byte_string [N.lor 0xC0 (N.shiftr u 6); N.lor 0x80 (N.land u 0x3F)]
  else byte_string (three_bytes u).

Definition utf8_of_code_point (cp : N) : string :=
  if (cp <? 0x10000)%N then utf8_of_code_unit cp
  else byte_string
         [N.lor 0xF0 (N.shiftr cp 18);
          N.lor 0x80 (N.land (N.shiftr cp 12) 0x3F);
          N.lor 0x80 (N.land (N.shiftr cp 6) 0x3F);
          N.lor 0x80 (N.land cp 0x3F)].

Definition high_surrogate (cp : N) : N := (0xD800 + N.shiftr (cp - 0x10000) 10)%N.
Definition low_surrogate (cp : N) : N := (0xDC00 + N.land (cp - 0x10000) 0x3FF)%N.

(** One string per UTF-16 code unit, as string indexing yields them. *)
Fixpoint code_units (s : string) : list string :=
  match s with
  | EmptyString => []
  | String a r1 =>
      let b := N_of_ascii a in
      if (b <? 0xC0)%N then String a EmptyString :: code_units r1
      else
        match r1 with
        | EmptyString => [String a EmptyString]
        | String a2 r2 =>
            if (b <? 0xE0)%N then String a (String a2 EmptyString) :: code_units r2
            else
              match r2 with
              | EmptyString => [String a (String a2 EmptyString)]
              | String a3 r3 =>
                  if (b <? 0xF0)%N then
                    String a (String a2 (String a3 EmptyString)) :: code_units r3
                  else
                    match r3 with
                    | EmptyString => [String a (String a2 (String a3 EmptyString))]
                    | String a4 r4 =>
                        let cp := (N.shiftl (N.land b 0x07) 18
                                   + N.shiftl (N.land (N_of_ascii a2) 0x3F) 12
                                   + N.shiftl (N.land (N_of_ascii a3) 0x3F) 6
                                   + N.land (N_of_ascii a4) 0x3F)%N in
                        utf8_of_code_unit (high_surrogate cp)
                          :: utf8_of_code_unit (low_surrogate cp)
                          :: code_units r4
                    end
              end
        end
  end.

(** *** [Object.entries] *)

Definition Object_entries (v : JsVal) : completion (list (string * JsVal)) :=
  match v with
  | VUndefined | VNull =>
      Throw (TypeError "Cannot convert undefined or null to object")
  | VBool _ | VNumber _ => Normal []
  | VString s => Normal (imap (λ i u, (pretty i, VString u)) (code_units s))
  | VArray elems => Normal (imap (λ i x, (pretty i, x)) elems)
  | VObject props => Normal props
  end.

(** *** [String(v)] *)

Definition has_own (key : string) (props : list (string * JsVal)) : bool :=
  bool_decide (is_Some (own_property key props)).

(** Values decoded from JSON hold no function, so an own [toString] property
    is never callable; [OrdinaryToPrimitive] then tries [valueOf], which
    either is an own non-callable property or [Object.prototype.valueOf]
    returning the object itself: a [TypeError] both ways.  Arrays convert
    through [Array.prototype.join]. *)
Fixpoint ToString (v : JsVal) : completion string :=
  match v with
  | VUndefined => Normal "undefined"
  | VNull => Normal "null"
  | VBool true => Normal "true"
  | VBool false => Normal "false"
  | VNumber n => Normal (NumberToString n)
  | VString s => Normal s
  | VArray elems =>
      (fix join (l : list JsVal) : completion string :=
         match l with
         | [] => Normal ""
         | x :: rest =>
             s ← match x with
                 | VUndefined | VNull => Normal ""
                 | _ => ToString x
                 end;
             match rest with
             | [] => Normal s
             | _ => r ← join rest; Normal (s +:+ "," +:+ r)
             end
         end) elems
  | VObject props =>
      if has_own "toString" props
      then Throw (TypeError "Cannot convert object to primitive value")
      else Normal "[object Object]"
  end.

(** *** [JSON.stringify] *)

Definition dquote : string := String "034"%char EmptyString.

Definition hex_digit (n : N) : ascii :=
  nth (N.to_nat n) (list_ascii_of_string "0123456789abcdef") "0"%char.

Definition hex4 (u : N) : string :=
  string_of_list_ascii
    [hex_digit (N.land (N.shiftr u 12) 0xF); hex_digit (N.land (N.shiftr u 8) 0xF);
     hex_digit (N.land (N.shiftr u 4) 0xF); hex_digit (N.land u 0xF)].

(** The characters of a string between the quotes [QuoteJSONString] adds. *)
Fixpoint quote_chars (s : string) : string :=
  match s with
  | EmptyString => ""
  | String a rest =>
      let b := N_of_ascii a in
      if (b =? 0x22)%N then "\" +:+ dquote +:+ quote_chars rest
      else if (b =? 0x5C)%N then "\\" +:+ quote_chars rest
      else if (b =? 0x08)%N then "\b" +:+ quote_chars rest
      else if (b =? 0x09)%N then "\t" +:+ quote_chars rest
      else if (b =? 0x0A)%N then "\n" +:+ quote_chars rest
      else if (b =? 0x0C)%N then "\f" +:+ quote_chars rest
      else if (b =? 0x0D)%N then "\r" +:+ quote_chars rest
      else if (b <? 0x20)%N then "\u" +:+ hex4 b +:+ quote_chars rest
      else
        match rest with
        | String a2 (String a3 r3) =>
            (* a lone surrogate, held in three bytes *)
            if (b =? 0xED)%N && (0xA0 <=? N_of_ascii a2)%N then
              "\u" +:+ hex4 (0xD000 + N.shiftl (N.land (N_of_ascii a2) 0x3F) 6
                             + N.land (N_of_ascii a3) 0x3F)%N
                   +:+ quote_chars r3
            else String a (quote_chars rest)
        | _ => String a (quote_chars rest)
        end
  end.

Definition QuoteJSONString (s : string) : string :=
  dquote +:+ quote_chars s +:+ dquote.

Definition join (sep : string) (parts : list string) : string :=
  match parts with
  | [] => ""
  | p :: ps => fold_left (λ acc q, acc +:+ sep +:+ q) ps p
  end.

(** [JSON.stringify(v)]; [None] is the result [undefined]. *)
Fixpoint JSON_stringify (v : JsVal) : option string :=
  match v with
  | VUndefined => None
  | VNull => Some "null"
  | VBool true => Some "true"
  | VBool false => Some "false"
  | VNumber n => Some (if NumberIsFinite n then NumberToString n else "null")
  | VString s => Some (QuoteJSONString s)
  | VArray elems =>
      Some ("[" +:+ join "," (map (λ x, default "null" (JSON_stringify x)) elems) +:+ "]")
  | VObject props =>
      Some ("{" +:+ join ","
              (omap (λ p, (λ s, QuoteJSONString (fst p) +:+ ":" +:+ s)
                            <$> JSON_stringify (snd p)) props)
            +:+ "}")
  end.

(** *** [JSON.parse] *)

Definition is_ws (a : ascii) : bool :=
  let b := N_of_ascii a in
  ((b =? 0x20) || (b =? 0x09) || (b =? 0x0A) || (b =? 0x0D))%N.

Definition is_digit (a : ascii) : bool :=
  let b := N_of_ascii a in ((0x30 <=? b) && (b <=? 0x39))%N.

Fixpoint skip_ws (s : string) : string :=
  match s with
  | String a r => if is_ws a then skip_ws r else s
  | EmptyString => ""
  end.

Fixpoint take_digits (s : string) : string * string :=
  match s with
  | String a r =>
      if is_digit a then let '(ds, rest) := take_digits r in (String a ds, rest)
      else ("", s)
  | EmptyString => ("", "")
  end.

(** An optional character [c] at the head of [s]. *)
Definition optional_char (c : ascii) (s : string) : string * string :=
  match s with
  | String a r => if Ascii.eqb a c then (String c EmptyString, r) else ("", s)
  | EmptyString => ("", s)
  end.

(** The integer part: digits, without a superfluous leading zero. *)
Definition lex_int (s : string) : option (string * string) :=
  let '(ds, rest) := take_digits s in
  match ds with
  | EmptyString => None
  | String d (String _ _) => if Ascii.eqb d "0" then None else Some (ds, rest)
  | _ => Some (ds, rest)
  end.

(** The optional fraction: a dot and digits. *)
Definition lex_frac (s : string) : option (string * string) :=
  match optional_char "." s with
  | (EmptyString, _) => Some ("", s)
  | (dot, r) =>
      let '(ds, rest) := take_digits r in
      if String.eqb ds "" then None else Some (dot +:+ ds, rest)
  end.

(** The optional exponent: e or E, an optional sign, digits. *)
Definition lex_exp (s : string) : option (string * string) :=
  match s with
  | String e r =>
      if Ascii.eqb e "e" || Ascii.eqb e "E" then
        let '(sign, r1) := match optional_char "+" r with
                           | (EmptyString, _) => optional_char "-" r
                           | plus => plus
                           end in
        let '(ds, rest) := take_digits r1 in
        if String.eqb ds "" then None else Some (String e sign +:+ ds, rest)
      else Some ("", s)
  | EmptyString => Some ("", s)
  end.

(** A JSON number: an optional minus sign, the integer part, the optional
    fraction and the optional exponent.  Returns the lexeme and the rest of
    the input. *)
Definition lex_number (s : string) : option (string * string) :=
  let '(sign, s1) := optional_char "-" s in
  '(int, s2) ← lex_int s1;
  '(frac, s3) ← lex_frac s2;
  '(ex, s4) ← lex_exp s3;
  Some (sign +:+ int +:+ frac +:+ ex, s4).

Definition hex_value (a : ascii) : option N :=
  let b := N_of_ascii a in
  if is_digit a then Some (b - 0x30)%N
  else if ((0x41 <=? b) && (b <=? 0x46))%N then Some (b - 0x41 + 10)%N
  else if ((0x61 <=? b) && (b <=? 0x66))%N then Some (b - 0x61 + 10)%N
  else None.

(** What a string literal holds: bytes copied from the text, and code units
    written as [\uXXXX]. *)
Inductive str_item : Type :=
  | Raw (a : ascii)
  | Escaped (u : N).

(** The body of a string literal, after the opening quote. *)
Fixpoint lex_string (s : string) : option (list str_item * string) :=
  match s with
  | EmptyString => None
  | String a r =>
      let b := N_of_ascii a in
      if (b =? 0x22)%N then Some ([], r)
      else if (b <? 0x20)%N then None
      else if (b =? 0x5C)%N then
        match r with
        | EmptyString => None
        | String e r1 =>
            let simple (c : N) :=
              '(items, rest) ← lex_string r1; Some (Raw (ascii_of_N c) :: items, rest) in
            if Ascii.eqb e "034" then simple 0x22%N
            else if Ascii.eqb e "\" then simple 0x5C%N
            else if Ascii.eqb e "/" then simple 0x2F%N
            else if Ascii.eqb e "b" then simple 0x08%N
            else if Ascii.eqb e "f" then simple 0x0C%N
            else if Ascii.eqb e "n" then simple 0x0A%N
            else if Ascii.eqb e "r" then simple 0x0D%N
            else if Ascii.eqb e "t" then simple 0x09%N
            else if Ascii.eqb e "u" then
              match r1 with
              | String h1 (String h2 (String h3 (String h4 r5))) =>
                  d1 ← hex_value h1; d2 ← hex_value h2;
                  d3 ← hex_value h3; d4 ← hex_value h4;
                  '(items, rest) ← lex_string r5;
                  Some (Escaped (d1 * 4096 + d2 * 256 + d3 * 16 + d4)%N :: items, rest)
              | _ => None
              end
            else None
        end
      else '(items, rest) ← lex_string r; Some (Raw a :: items, rest)
  end.

Definition is_high_surrogate (u : N) : bool := ((0xD800 <=? u) && (u <? 0xDC00))%N.
Definition is_low_surrogate (u : N) : bool := ((0xDC00 <=? u) && (u <? 0xE000))%N.

(** Escaped surrogate pairs become one code point. *)
Fixpoint assemble (items : list str_item) : string :=
  match items with
  | [] => ""
  | Raw a :: rest => String a (assemble rest)
  | Escaped u :: rest =>
      match rest with
      | Escaped lo :: rest' =>
          if is_high_surrogate u && is_low_surrogate lo then
            utf8_of_code_point (0x10000 + (u - 0xD800) * 0x400 + (lo - 0xDC00))%N
              +:+ assemble rest'
          else utf8_of_code_unit u +:+ assemble rest
      | _ => utf8_of_code_unit u +:+ assemble rest
      end
  end.

(** The literal [lit] at the head of [s]; returns what follows it. *)
Fixpoint expect (lit : string) (s : string) : option string :=
  match lit with
  | EmptyString => Some s
  | String a lit' =>
      match s with
      | String b s' => if Ascii.eqb a b then expect lit' s' else None
      | EmptyString => None
      end
  end.

(** An array index: the canonical decimal form of an integer below 2^32 - 1. *)
Definition array_index (k : string) : option N :=
  match k with
  | EmptyString => None
  | String "0"%char (String _ _) => None
  | _ =>
      if forallb is_digit (list_ascii_of_string k) then
        let n := fold_left (λ acc a, acc * 10 + (N_of_ascii a - 0x30))%N
                           (list_ascii_of_string k) 0%N in
        if (n <? 4294967295)%N then Some n else None
      else None
  end.

Fixpoint replace_property (k : string) (v : JsVal) (props : list (string * JsVal))
  : list (string * JsVal) :=
  match props with
  | [] => []
  | (k', v') :: rest =>
      if String.eqb k' k then (k, v) :: rest else (k', v') :: replace_property k v rest
  end.

(** Where a new index key goes: before the first key that is no index or a
    larger one. *)
Fixpoint insert_index (i : N) (k : string) (v : JsVal) (props : list (string * JsVal))
  : list (string * JsVal) :=
  match props with
  | [] => [(k, v)]
  | (k', v') :: rest =>
      match array_index k' with
      | Some j => if (j <? i)%N then (k', v') :: insert_index i k v rest
                  else (k, v) :: props
      | None => (k, v) :: props
      end
  end.

(** [CreateDataProperty]: a repeated key keeps its place and takes the new
    value; index keys come first in ascending order, the other keys follow
    in creation order. *)
Definition define_property (props : list (string * JsVal)) (kv : string * JsVal)
  : list (string * JsVal) :=
  let '(k, v) := kv in
  if has_own k props then replace_property k v props
  else match array_index k with
       | Some i => insert_index i k v props
       | None => (props ++ [(k, v)])%list
       end.

Definition head_is (c : ascii) (s : string) : option string :=
  match s with
  | String a r => if Ascii.eqb a c then Some r else None
  | EmptyString => None
  end.

(** Recursive descent.  Every call consumes a character, so that fuel
    twice the length of the text is never exhausted ([JSON_parse_fuel]
    below). *)
Fixpoint parse_value (fuel : nat) (s : string) : option (JsVal * string) :=
  match fuel with
  | O => None
  | S fuel' =>
      match skip_ws s with
      | EmptyString => None
      | String c r as s0 =>
          if Ascii.eqb c "n" then rest ← expect "null" s0; Some (VNull, rest)
          else if Ascii.eqb c "t" then rest ← expect "true" s0; Some (VBool true, rest)
          else if Ascii.eqb c "f" then rest ← expect "false" s0; Some (VBool false, rest)
          else if Ascii.eqb c "034" then
            '(items, rest) ← lex_string r; Some (VString (assemble items), rest)
          else if Ascii.eqb c "[" then
            match head_is "]" (skip_ws r) with
            | Some rest => Some (VArray [], rest)
            | None => '(elems, rest) ← parse_elements fuel' r; Some (VArray elems, rest)
            end
          else if Ascii.eqb c "{" then
            match head_is "}" (skip_ws r) with
            | Some rest => Some (VObject [], rest)
            | None =>
                '(members, rest) ← parse_members fuel' r;
                Some (VObject (fold_left define_property members []), rest)
            end
          else '(lexeme, rest) ← lex_number s0; Some (VNumber (StringToNumber lexeme), rest)
      end
  end
with parse_elements (fuel : nat) (s : string) : option (list JsVal * string) :=
  match fuel with
  | O => None
  | S fuel' =>
      '(v, s1) ← parse_value fuel' s;
      match skip_ws s1 with
      | String c r =>
          if Ascii.eqb c "," then
            '(vs, rest) ← parse_elements fuel' r; Some (v :: vs, rest)
          else if Ascii.eqb c "]" then Some ([v], r)
          else None
      | EmptyString => None
      end
  end
with parse_members (fuel : nat) (s : string) : option (list (string * JsVal) * string) :=
  match fuel with
  | O => None
  | S fuel' =>
      s1 ← head_is "034" (skip_ws s);
      '(items, s2) ← lex_string s1;
      s3 ← head_is ":" (skip_ws s2);
      '(v, s4) ← parse_value fuel' s3;
      match skip_ws s4 with
      | String c r =>
          if Ascii.eqb c "," then
            '(ms, rest) ← parse_members fuel' r; Some ((assemble items, v) :: ms, rest)
          else if Ascii.eqb c "}" then Some ([(assemble items, v)], r)
          else None
      | EmptyString => None
      end
  end.

Definition JSON_parse (text : string) : completion JsVal :=
  match parse_value (2 * String.length text + 2) text with
  | Some (v, rest) =>
      if String.eqb (skip_ws rest) "" then Normal v
      else Throw (SyntaxError "Unexpected non-whitespace character after JSON")
  | None => Throw (SyntaxError "Unexpected token in JSON")
  end.

End Values.

(** ** Tool invocations *)

(** The native call record [{ id, name, arguments }]. *)
Module ToolCall.
Record t : Type := { id : string; name : string; arguments : string }.
End ToolCall.

(** [ToolUse], without its constant field [type];
    [nativeArgs = None] is the field being [undefined]. *)
Record ToolUse `{JsNumber} : Type := {
  name : string;
  params : gmap string string;
  partial : bool;
  nativeArgs : option JsVal;
}.

(** [list.includes(x)] on a list of strings. *)
Definition includes (l : list string) (x : string) : bool := bool_decide (x ∈ l).

(** [params[key] = value] on an object created by [{}]: the key [__proto__]
    reaches the accessor inherited from [Object.prototype], which ignores a
    string and creates no property. *)
Definition assign (params : gmap string string) (key value : string)
  : gmap string string :=
  if String.eqb key "__proto__" then params else <[key := value]> params.

(** [typeof value === "string" ? value : JSON.stringify(value)] *)
Definition stringValue `{JsNumber} (value : JsVal) : option string :=
  match value with
  | VString s => Some s
  | _ => JSON_stringify value
  end.

(** ** The native call parser (revision with typed [nativeArgs]) *)

Module NativeToolCallParser.
Section Parser.
Context `{JsNumber}.
(** The closed enumerations, declared outside the files at hand. *)
Variable toolNames : list string.
Variable toolParamNames : list string.

(** One turn of the loop over [Object.entries(args)].  [JSON.stringify]
    yields [undefined] for no decoded value; the property would then hold
    [undefined] and read like an absent one. *)
Definition synthesize (toolName : string) (params : gmap string string)
    (entry : string * JsVal) : gmap string string :=
  let '(key, value) := entry in
  if String.eqb toolName "read_file" && String.eqb key "files" then params
  else if negb (includes toolParamNames key) then params
  else match stringValue value with
       | Some s => assign params key s
       | None => params
       end.

Definition defined (v : JsVal) : bool := negb (is_undefined v).

(** [typeof line === "number" ? line : parseInt(String(line), 10)] *)
Definition lineNumber (line : JsVal) : completion JsVal :=
  match line with
  | VNumber n => Normal (VNumber n)
  | v => s ← ToString v; Normal (VNumber (parseInt10 s))
  end.

(** Whether [buildNativeArgs] reaches the conversion of [line]. *)
Definition convertsLine (toolName : string) (args : JsVal) : bool :=
  String.eqb toolName "insert_content"
  && (defined (get args "path") && defined (get args "line")
      && defined (get args "content")).

(** The [switch (toolCall.name)] that builds [nativeArgs]. *)
Definition buildNativeArgs (toolName : string) (args : JsVal)
  : completion (option JsVal) :=
  if String.eqb toolName "read_file" then
    if ToBoolean (get args "files") && Array_isArray (get args "files") then
      Normal (Some (get args "files"))
    else if ToBoolean (get args "path") then
      let fileEntry := VObject [("path", get args "path"); ("lineRanges", VArray [])] in
      Normal (Some (VArray [fileEntry]))
    else Normal None
  else if String.eqb toolName "attempt_completion" then
    if ToBoolean (get args "result") then
      Normal (Some (VObject [("result", get args "result")]))
    else Normal None
  else if String.eqb toolName "execute_command" then
    if ToBoolean (get args "command") then
      Normal (Some (VObject [("command", get args "command"); ("cwd", get args "cwd")]))
    else Normal None
  else if String.eqb toolName "insert_content" then
    if defined (get args "path") && defined (get args "line")
       && defined (get args "content") then
      line ← lineNumber (get args "line");
      Normal (Some (VObject [("path", get args "path"); ("line", line);
                             ("content", get args "content")]))
    else Normal None
  else if String.eqb toolName "apply_diff" then
    if defined (get args "path") && defined (get args "diff") then
      Normal (Some (VObject [("path", get args "path"); ("diff", get args "diff")]))
    else Normal None
  else if String.eqb toolName "ask_followup_question" then
    if defined (get args "question") && defined (get args "follow_up") then
      Normal (Some (VObject [("question", get args "question");
                             ("follow_up", get args "follow_up")]))
    else Normal None
  else if String.eqb toolName "browser_action" then
    if defined (get args "action") then
      Normal (Some (VObject [("action", get args "action"); ("url", get args "url");
                             ("coordinate", get args "coordinate");
                             ("size", get args "size"); ("text", get args "text")]))
    else Normal None
  else if String.eqb toolName "codebase_search" then
    if defined (get args "query") then
      Normal (Some (VObject [("query", get args "query"); ("path", get args "path")]))
    else Normal None
  else if String.eqb toolName "fetch_instructions" then
    if defined (get args "task") then
      Normal (Some (VObject [("task", get args "task")]))
    else Normal None
  else Normal None.

(** The body of the [try] block. *)
Definition parseArguments (toolCall : ToolCall.t) : completion ToolUse :=
  args ← JSON_parse (ToolCall.arguments toolCall);
  entries ← Object_entries args;
  let params := fold_left (synthesize (ToolCall.name toolCall)) entries ∅ in
  nativeArgs ← buildNativeArgs (ToolCall.name toolCall) args;
  Normal {| name := ToolCall.name toolCall;
            params := params;
            partial := false;
            nativeArgs := nativeArgs |}.

(** [None] is the result [null]. *)
Definition parseToolCall (toolCall : ToolCall.t) : completion (option ToolUse) :=
  if negb (includes toolNames (ToolCall.name toolCall)) then Normal None
  else try_catch (result ← parseArguments toolCall; Normal (Some result))
                 (λ error, Normal None).

End Parser.
End NativeToolCallParser.

(** ** The native call parser (revision without [nativeArgs]) *)

Module UntypedNativeToolCallParser.
Section Parser.
Context `{JsNumber}.
Variable toolNames : list string.
Variable toolParamNames : list string.

Definition synthesize (params : gmap string string) (entry : string * JsVal)
  : gmap string string :=
  let '(key, value) := entry in
  if negb (includes toolParamNames key) then params
  else match stringValue value with
       | Some s => assign params key s
       | None => params
       end.

Definition parseArguments (toolCall : ToolCall.t) : completion ToolUse :=
  args ← JSON_parse (ToolCall.arguments toolCall);
  entries ← Object_entries args;
  let params := fold_left synthesize entries ∅ in
  Normal {| name := ToolCall.name toolCall;
            params := params;
            partial := false;
            nativeArgs := None |}.

Definition parseToolCall (toolCall : ToolCall.t) : completion (option ToolUse) :=
  if negb (includes toolNames (ToolCall.name toolCall)) then Normal None
  else try_catch (result ← parseArguments toolCall; Normal (Some result))
                 (λ error, Normal None).

End Parser.
End UntypedNativeToolCallParser.

(** ** Calls on collaborators

    A function that drives collaborators (the tool's own methods, the
    callbacks, the task object) is modelled by the calls it makes, in order,
    and by how it completes.  A collaborator is given by how each of its
    calls completes. *)

Section Calls.
Context `{JsNumber}.

Inductive Call : Type :=
  (* the tool's methods, called by [BaseTool.handle] *)
  | HandlePartial (block : ToolUse)
  | ParseLegacy (params : gmap string string)
  | Execute (params : JsVal)
  (* [ToolCallbacks] *)
  | HandleError (action : string) (error : JsError)
  | PushToolResult (content : string)
  | AskApproval (type : string) (partialMessage : string)
  (* the task object [cline] *)
  | MistakeCountIncrement
  | MistakeCountReset
  | RecordToolError (toolName : string)
  | SayAndCreateMissingParamError (toolName paramName : string)
  | CheckpointSave
  | SetPausedModeSlug (slug : string)
  | StartSubtask (message : string) (todoItems : list JsVal) (mode : JsVal).

Definition Run (A : Type) : Type := list Call * completion A.

Definition ret {A} (a : A) : Run A := ([], Normal a).

Definition bind {A B} (m : Run A) (k : A → Run B) : Run B :=
  match m with
  | (calls, Normal a) => let '(calls', r) := k a in ((calls ++ calls')%list, r)
  | (calls, Throw e) => (calls, Throw e)
  end.

(** [try { body } catch (error) { handler }] *)
Definition try_run {A} (body : Run A) (handler : JsError → Run A) : Run A :=
  match body with
  | (calls, Normal a) => (calls, Normal a)
  | (calls, Throw e) => let '(calls', r) := handler e in ((calls ++ calls')%list, r)
  end.

(** One call: it is recorded, and completes as the collaborator says. *)
Definition call {A} (c : Call) (outcome : completion A) : Run A := ([c], outcome).

(** The calls made so far, then the run [r]. *)
Definition after {A} (made : list Call) (r : Run A) : Run A :=
  let '(calls', c) := r in ((made ++ calls')%list, c).

(** A step that makes no call. *)
Definition lift {A} (outcome : completion A) : Run A := ([], outcome).

Definition calls {A} (r : Run A) : list Call := fst r.
Definition completes {A} (r : Run A) : completion A := snd r.

End Calls.

Notation "x ⇐ m ;; k" := (bind m (λ x, k))
  (at level 100, m at next level, right associativity, only parsing).
Notation "m ;;; k" := (bind m (λ _, k))
  (at level 100, right associativity, only parsing).

(** [ToolCallbacks], by how each callback completes. *)
Record ToolCallbacks : Type := {
  askApproval : string → string → completion bool;
  handleError : string → JsError → completion unit;
  pushToolResult : string → completion unit;
}.

(** ** The dispatch contract *)

Module BaseTool.
Section BaseTool.
Context `{JsNumber}.
(** The task object, opaque to [handle]. *)
Context {Task : Type}.

(** What a concrete tool supplies.  [execute] and [handlePartial] are
    awaited; they are given by how the promise settles. *)
Record t : Type := {
  name : string;
  parseLegacy : gmap string string → completion JsVal;
  execute : JsVal → Task → ToolCallbacks → completion unit;
  handlePartial : Task → ToolUse → completion unit;
}.

(** The default [handlePartial]: a no-op. *)
Definition default_handlePartial : Task → ToolUse → completion unit :=
  λ _ _, Normal tt.

(** The [try] block that resolves the parameters. *)
Definition resolveParams (tool : t) (block : ToolUse) : Run JsVal :=
  match nativeArgs block with
  | Some native => ret native
  | None => call (ParseLegacy (params block)) (parseLegacy tool (params block))
  end.

(** [handle].  The logging statements serialise [block.nativeArgs] and the
    resolved parameters with [JSON.stringify], which does not throw on the
    values modelled here. *)
Definition handle (tool : t) (cline : Task) (block : ToolUse)
    (callbacks : ToolCallbacks) : Run unit :=
  if partial block then
    call (HandlePartial block) (handlePartial tool cline block)
  else
    match resolveParams tool block with
    | (made, Throw error) =>
        let errorMessage :=
          "Failed to parse " +:+ name tool +:+ " parameters: " +:+ message error in
        after made
          (call (HandleError ("parsing " +:+ name tool +:+ " args") (Error errorMessage))
                (handleError callbacks ("parsing " +:+ name tool +:+ " args")
                             (Error errorMessage)) ;;;
           call (PushToolResult ("<error>" +:+ errorMessage +:+ "</error>"))
                (pushToolResult callbacks ("<error>" +:+ errorMessage +:+ "</error>")))
    | (made, Normal params) =>
        after made (call (Execute params) (execute tool params cline callbacks))
    end.

End BaseTool.
Arguments t {_} Task.
End BaseTool.

(** ** Concrete tools *)

(** Destructuring [const { ... } = params] throws on [null] and [undefined]. *)
Definition destructure `{JsNumber} (params : JsVal) : completion JsVal :=
  match params with
  | VUndefined | VNull => Throw (TypeError "Cannot destructure 'params'")
  | _ => Normal params
  end.

(** [params.key || ""] on the legacy string map. *)
Definition or_empty (params : gmap string string) (key : string) : string :=
  match params !! key with
  | Some s => if String.eqb s "" then "" else s
  | None => ""
  end.

(** [params.key], [undefined] when absent. *)
Definition optional `{JsNumber} (params : gmap string string) (key : string) : JsVal :=
  match params !! key with
  | Some s => VString s
  | None => VUndefined
  end.

Definition lower (a : ascii) : ascii :=
  let b := N_of_ascii a in
  if ((0x41 <=? b) && (b <=? 0x5A))%N then ascii_of_N (b + 0x20) else a.

(** [s.toLowerCase()] on ASCII letters.  The comparison with ["true"] below
    is not affected by the letters left alone: no other character lower-cases
    to one of t, r, u, e. *)
Fixpoint toLowerCase (s : string) : string :=
  match s with
  | EmptyString => ""
  | String a r => String (lower a) (toLowerCase r)
  end.

(** What the task object offers to the tools, by how each call completes. *)
Record Task `{JsNumber} : Type := {
  (** [cline.todoList && cline.todoList.some(todo => todo.status !== "completed")],
      as a condition *)
  hasIncompleteTodos : bool;
  enableCheckpoints : bool;
  recordToolError : string → completion unit;
  sayAndCreateMissingParamError : string → string → completion string;
  (** whether [startSubtask] yields a task *)
  startSubtask : string → list JsVal → JsVal → completion bool;
}.

Section MissingParam.
Context `{JsNumber}.

(** The block every tool runs on a missing required parameter. *)
Definition missingParam (cline : Task) (callbacks : ToolCallbacks)
    (toolName paramName : string) : Run unit :=
  call MistakeCountIncrement (Normal tt) ;;;
  call (RecordToolError toolName) (recordToolError cline toolName) ;;;
  text ⇐ call (SayAndCreateMissingParamError toolName paramName)
              (sayAndCreateMissingParamError cline toolName paramName) ;;
  call (PushToolResult text) (pushToolResult callbacks text).

End MissingParam.

Module ListFilesTool.
Section ListFilesTool.
Context `{JsNumber}.
(** The [try] block after the check of [path]: resolving the directory,
    listing it, asking for approval and pushing the listing. *)
Variable listing : JsVal → JsVal → Task → ToolCallbacks → Run unit.

Definition parseLegacy (params : gmap string string) : completion JsVal :=
  let recursiveRaw := params !! "recursive" in
  let recursive :=
    match recursiveRaw with
    | Some raw => String.eqb (toLowerCase raw) "true"
    | None => false
    end in
  Normal (VObject [("path", VString (or_empty params "path"));
                   ("recursive", VBool recursive)]).

Definition execute (params : JsVal) (cline : Task) (callbacks : ToolCallbacks)
  : Run unit :=
  source ⇐ lift (destructure params) ;;
  let relDirPath := get source "path" in
  let recursive := get source "recursive" in
  try_run
    (if negb (ToBoolean relDirPath) then
       missingParam cline callbacks "list_files" "path"
     else
       call MistakeCountReset (Normal tt) ;;;
       listing relDirPath recursive cline callbacks)
    (λ error, call (HandleError "listing files" error)
                   (handleError callbacks "listing files" error)).

End ListFilesTool.
End ListFilesTool.

Module AttemptCompletionTool.
Section AttemptCompletionTool.
Context `{JsNumber}.
(** The workspace setting [preventCompletionWithOpenTodos]. *)
Variable preventCompletionWithOpenTodos : bool.
(** [formatResponse.toolError] *)
Variable toolError : string → string.
(** The [try] block after the check of [result]: announcing the result and
    the approval or feedback exchange. *)
Variable completing : JsVal → Task → ToolCallbacks → Run unit.

Definition parseLegacy (params : gmap string string) : completion JsVal :=
  Normal (VObject [("result", VString (or_empty params "result"));
                   ("command", optional params "command")]).

Definition execute (params : JsVal) (cline : Task) (callbacks : ToolCallbacks)
  : Run unit :=
  source ⇐ lift (destructure params) ;;
  let result := get source "result" in
  if preventCompletionWithOpenTodos && hasIncompleteTodos cline then
    call MistakeCountIncrement (Normal tt) ;;;
    call (RecordToolError "attempt_completion")
         (recordToolError cline "attempt_completion") ;;;
    let text := toolError "Cannot complete task while there are incomplete todos. Please finish all todos before attempting completion." in
    call (PushToolResult text) (pushToolResult callbacks text)
  else
    try_run
      (if negb (ToBoolean result) then
         missingParam cline callbacks "attempt_completion" "result"
       else
         call MistakeCountReset (Normal tt) ;;;
         completing result cline callbacks)
      (λ error, call (HandleError "inspecting site" error)
                     (handleError callbacks "inspecting site" error)).

End AttemptCompletionTool.
End AttemptCompletionTool.

Module NewTaskTool.

(** [message.replace(/\\\\@/g, "\\@")]: scanning from the left, every
    backslash-backslash-at becomes backslash-at, and the scan goes on after
    the replaced text. *)
Fixpoint unescape (message : string) : string :=
  match message with
  | EmptyString => ""
  | String a rest =>
      match rest with
      | String b (String c rest') =>
          if Ascii.eqb a "\" && Ascii.eqb b "\" && Ascii.eqb c "@"
          then String "\" (String "@" (unescape rest'))
          else String a (unescape rest)
      | _ => String a (unescape rest)
      end
  end.

(** What [provider.getState()] resolves to, as far as the tool reads it. *)
Record ProviderState `{JsNumber} : Type := {
  customModes : JsVal;
  mode : option string;
}.

Record Provider `{JsNumber} : Type := {
  (** the outcome of the n-th call of [getState], counted from 0 *)
  getState : nat → completion (option ProviderState);
}.

Section NewTaskTool.
Context `{JsNumber}.
(** [cline.providerRef.deref()] *)
Variable providerRef : option Provider.
(** The workspace setting [newTaskRequireTodos]. *)
Variable requireTodos : bool.
Variable parseMarkdownChecklist : JsVal → completion (list JsVal).
(** [getModeBySlug(slug, customModes)], reduced to the name of the mode found. *)
Variable getModeBySlug : JsVal → JsVal → option string.
Variable defaultModeSlug : string.
(** [formatResponse.toolError] and the translation function [t]. *)
Variable toolError : string → string.
Variable t : string → string.

Definition parseLegacy (params : gmap string string) : completion JsVal :=
  Normal (VObject [("mode", VString (or_empty params "mode"));
                   ("message", VString (or_empty params "message"));
                   ("todos", optional params "todos")]).

(** [message.replace(...)] on whatever [message] holds: only a string has
    the method. *)
Definition unescapedMessage (message : JsVal) : completion string :=
  match message with
  | VString s => Normal (unescape s)
  | _ => Throw (TypeError "message.replace is not a function")
  end.

Definition push (callbacks : ToolCallbacks) (text : string) : Run unit :=
  call (PushToolResult text) (pushToolResult callbacks text).

(** The [todos] block: [None] is the early [return] of its [catch]. *)
Definition parseTodos (todos : JsVal) (cline : Task) (callbacks : ToolCallbacks)
  : Run (option (list JsVal)) :=
  if ToBoolean todos then
    try_run
      (items ⇐ lift (parseMarkdownChecklist todos) ;; ret (Some items))
      (λ error,
         call MistakeCountIncrement (Normal tt) ;;;
         call (RecordToolError "new_task") (recordToolError cline "new_task") ;;;
         push callbacks (toolError "Invalid todos format: must be a markdown checklist") ;;;
         ret None)
  else ret (Some []).

(** From the approval request to the end. *)
Definition delegate (provider : Provider) (message mode : JsVal)
    (unescaped targetMode : string) (todoItems : list JsVal)
    (cline : Task) (callbacks : ToolCallbacks) : Run unit :=
  let toolMessage :=
    default "" (JSON_stringify
                  (VObject [("tool", VString "newTask"); ("mode", VString targetMode);
                            ("content", message); ("todos", VArray todoItems)])) in
  didApprove ⇐ call (AskApproval "tool" toolMessage)
                    (askApproval callbacks "tool" toolMessage) ;;
  if negb didApprove then ret tt
  else
    (if enableCheckpoints cline then call CheckpointSave (Normal tt) else ret tt) ;;;
    state ⇐ lift (getState provider 1) ;;
    slug ⇐ lift (match state with
                 | Some st => Normal (default defaultModeSlug (NewTaskTool.mode st))
                 | None => Throw (TypeError "Cannot read properties of undefined")
                 end) ;;
    call (SetPausedModeSlug slug) (Normal tt) ;;;
    newTask ⇐ call (StartSubtask unescaped todoItems mode)
                   (startSubtask cline unescaped todoItems mode) ;;
    if negb newTask then push callbacks (t "tools:newTask.errors.policy_restriction")
    else push callbacks
           ("Successfully created new task in " +:+ targetMode
            +:+ " mode with message: " +:+ unescaped
            +:+ " and " +:+ pretty (length todoItems) +:+ " todo items").

Definition execute (params : JsVal) (cline : Task) (callbacks : ToolCallbacks)
  : Run unit :=
  source ⇐ lift (destructure params) ;;
  let mode := get source "mode" in
  let message := get source "message" in
  let todos := get source "todos" in
  try_run
    (if negb (ToBoolean mode) then missingParam cline callbacks "new_task" "mode"
     else if negb (ToBoolean message) then
       missingParam cline callbacks "new_task" "message"
     else
       match providerRef with
       | None => push callbacks (toolError "Provider reference lost")
       | Some provider =>
           state ⇐ lift (getState provider 0) ;;
           if requireTodos && is_undefined todos then
             missingParam cline callbacks "new_task" "todos"
           else
             parsed ⇐ parseTodos todos cline callbacks ;;
             match parsed with
             | None => ret tt
             | Some todoItems =>
                 call MistakeCountReset (Normal tt) ;;;
                 unescaped ⇐ lift (unescapedMessage message) ;;
                 let modes := match state with
                              | Some st => customModes st
                              | None => VUndefined
                              end in
                 match getModeBySlug mode modes with
                 | None =>
                     slug ⇐ lift (ToString mode) ;;
                     push callbacks (toolError ("Invalid mode: " +:+ slug))
                 | Some targetMode =>
                     delegate provider message mode unescaped targetMode todoItems
                              cline callbacks
                 end
             end
       end)
    (λ error, call (HandleError "creating new task" error)
                   (handleError callbacks "creating new task" error)).

End NewTaskTool.
End NewTaskTool.

(** ** Exact decimal numbers

    An instance of [JsNumber] at which calls are evaluated: [Some (m, e)] is
    m times ten to the e, with m not a multiple of ten unless it is zero,
    and [None] is NaN.  It holds what the engine holds for a literal of up to
    fifteen significant digits, and prints it the same way for magnitudes
    from 1e-6 up to 1e21. *)

Module Decimal.

Definition digits_value (s : string) : Z :=
  fold_left (λ acc a, acc * 10 + (Z.of_N (N_of_ascii a) - 48))%Z
            (list_ascii_of_string s) 0%Z.

Fixpoint strip_zeros (fuel : nat) (m e : Z) : Z * Z :=
  match fuel with
  | O => (m, e)
  | S fuel' =>
      if (m =? 0)%Z then (0%Z, 0%Z)
      else if (m mod 10 =? 0)%Z then strip_zeros fuel' (m / 10)%Z (e + 1)%Z
      else (m, e)
  end.

Definition make (negative : bool) (digits : string) (e : Z) : option (Z * Z) :=
  let m := digits_value digits in
  Some (strip_zeros (String.length digits) (if negative then (- m)%Z else m) e).

Definition signed (s : string) : bool * string :=
  match optional_char "-" s with
  | (EmptyString, _) => (false, snd (optional_char "+" s))
  | (_, r) => (true, r)
  end.

Definition ofLiteral (lexeme : string) : option (Z * Z) :=
  let '(negative, s1) := signed lexeme in
  let '(int, s2) := take_digits s1 in
  let '(frac, s3) := match optional_char "." s2 with
                     | (EmptyString, _) => ("", s2)
                     | (_, r) => take_digits r
                     end in
  let ex := match s3 with
            | String _ r =>
                let '(neg, r1) := signed r in
                let v := digits_value (fst (take_digits r1)) in
                if neg then (- v)%Z else v
            | EmptyString => 0%Z
            end in
  make negative (int +:+ frac) (ex - Z.of_nat (String.length frac))%Z.

Definition repeat_zero (n : nat) : string := string_of_list_ascii (repeat "0"%char n).

Definition toString (x : option (Z * Z)) : string :=
  match x with
  | None => "NaN"
  | Some (m, e) =>
      let sign := if (m <? 0)%Z then "-" else "" in
      let ds := pretty (Z.abs m) in
      if (0 <=? e)%Z then sign +:+ ds +:+ repeat_zero (Z.to_nat e)
      else
        let k := Z.to_nat (- e) in
        let n := String.length ds in
        if (k <? n)%nat then
          sign +:+ String.substring 0 (n - k) ds +:+ "." +:+ String.substring (n - k) k ds
        else sign +:+ "0." +:+ repeat_zero (k - n) +:+ ds
  end.

Definition parseInt (s : string) : option (Z * Z) :=
  let '(negative, s1) := signed (skip_ws s) in
  let ds := fst (take_digits s1) in
  if String.eqb ds "" then None else make negative ds 0%Z.

#[export] Instance decimal : JsNumber := {|
  number := option (Z * Z);
  StringToNumber := ofLiteral;
  NumberToBoolean := λ x, match x with Some (m, _) => negb (m =? 0)%Z | None => false end;
  NumberIsFinite := λ x, match x with Some _ => true | None => false end;
  NumberToString := toString;
  parseInt10 := parseInt;
|}.

End Decimal.

(** ** Calls used as examples *)

Definition quoted (s : string) : string := dquote +:+ s +:+ dquote.

(** [{"path": "a.txt"}] *)
Definition single_file_arguments : string :=
  "{" +:+ quoted "path" +:+ ": " +:+ quoted "a.txt" +:+ "}".

(** [{"files":[{"path":"a.txt","line_ranges":[[1,5]]}]}] *)
Definition multi_file_arguments : string :=
  "{" +:+ quoted "files" +:+ ":[{" +:+ quoted "path" +:+ ":" +:+ quoted "a.txt" +:+ ","
      +:+ quoted "line_ranges" +:+ ":[[1,5]]}]}".

(** [{"result": ""}] and [{"command": ""}] *)
Definition empty_result_arguments : string :=
  "{" +:+ quoted "result" +:+ ": " +:+ quoted "" +:+ "}".
Definition empty_command_arguments : string :=
  "{" +:+ quoted "command" +:+ ": " +:+ quoted "" +:+ "}".

(** [{"path": "src", "verbose": true}] and the same call without the stray key *)
Definition stray_key_arguments : string :=
  "{" +:+ quoted "path" +:+ ": " +:+ quoted "src" +:+ ", " +:+ quoted "verbose" +:+ ": true}".
Definition plain_arguments : string :=
  "{" +:+ quoted "path" +:+ ": " +:+ quoted "src" +:+ "}".

(** [{"path": "a.txt", "line": {"toString": 1}, "content": "x"}] *)
Definition unprintable_line_arguments : string :=
  "{" +:+ quoted "path" +:+ ": " +:+ quoted "a.txt" +:+ ", " +:+ quoted "line" +:+ ": {"
      +:+ quoted "toString" +:+ ": 1}, " +:+ quoted "content" +:+ ": " +:+ quoted "x" +:+ "}".

(** Some members of the two enumerations. *)
Definition someToolNames : list string :=
  ["execute_command"; "read_file"; "insert_content"; "list_files";
   "attempt_completion"; "new_task"].
Definition someToolParamNames : list string :=
  ["command"; "path"; "content"; "line"; "recursive"; "result"; "mode";
   "message"; "todos"; "cwd"; "files"].

(** ** Occurrences of a pattern in a string *)

Fixpoint starts_with (pattern s : string) : bool :=
  match pattern, s with
  | EmptyString, _ => true
  | String a pattern', String b s' => Ascii.eqb a b && starts_with pattern' s'
  | String _ _, EmptyString => false
  end.

Fixpoint occurs (pattern s : string) : bool :=
  starts_with pattern s ||
  match s with
  | EmptyString => false
  | String _ rest => occurs pattern rest
  end.

(** The calls of the missing-parameter block, when each one returns. *)
Definition missingParamCalls `{JsNumber} (toolName paramName text : string) : list Call :=
  [MistakeCountIncrement; RecordToolError toolName;
   SayAndCreateMissingParamError toolName paramName; PushToolResult text].

(** The decoded object without one key. *)
Definition without `{JsNumber} (key : string) (props : list (string * JsVal))
  : list (string * JsVal) :=
  filter (λ p, fst p ≠ key) props.

(** ** Collaborators used as examples *)

Section Examples.
#[local] Existing Instance Decimal.decimal.

Definition exampleCallbacks : ToolCallbacks := {|
  askApproval := λ _ _, Normal true;
  handleError := λ _ _, Normal tt;
  pushToolResult := λ _, Normal tt;
|}.

Definition exampleTask : Task := {|
  hasIncompleteTodos := false;
  enableCheckpoints := false;
  recordToolError := λ _, Normal tt;
  sayAndCreateMissingParamError :=
    λ toolName paramName, Normal ("Missing value for required parameter " +:+ paramName);
  startSubtask := λ _ _ _, Normal true;
|}.

(** [ListFilesTool] as a tool of the dispatch contract, its listing left out. *)
Definition listFilesTool : BaseTool.t Task := {|
  BaseTool.name := "list_files";
  BaseTool.parseLegacy := ListFilesTool.parseLegacy;
  BaseTool.execute :=
    λ params cline callbacks,
      completes (ListFilesTool.execute (λ _ _ _ _, ret tt) params cline callbacks);
  BaseTool.handlePartial := BaseTool.default_handlePartial;
|}.

(** A tool whose [parseLegacy] throws on a missing [path]. *)
Definition strictTool : BaseTool.t Task := {|
  BaseTool.name := "list_files";
  BaseTool.parseLegacy :=
    λ params, match params !! "path" with
              | Some path => Normal (VObject [("path", VString path)])
              | None => Throw (Error "path is required")
              end;
  BaseTool.execute := λ _ _ _, Normal tt;
  BaseTool.handlePartial := BaseTool.default_handlePartial;
|}.

Definition legacyBlock (partial : bool) : ToolUse := {|
  name := "list_files";
  params := {[ "path" := "src" ]};
  partial := partial;
  nativeArgs := None;
|}.

Definition emptyBlock : ToolUse := {|
  name := "list_files";
  params := ∅;
  partial := false;
  nativeArgs := None;
|}.

Definition nativeBlock : ToolUse := {|
  name := "list_files";
  params := {[ "path" := "src" ]};
  partial := false;
  nativeArgs := Some (VObject [("path", VString "src")]);
|}.

Definition toolCall (name arguments : string) : ToolCall.t :=
  {| ToolCall.id := "call_1"; ToolCall.name := name; ToolCall.arguments := arguments |}.

End Examples.

(** ** Closing tags of a streamed parameter

    [removeClosingTag(tag, text, isPartial)], written three times in the
    tools (once per class) with the same body.  The expression built from
    the tag is
    [\s?<\/?(?:t1)?(?:t2)?...(?:tn)?$] with the flag [g], for the characters
    [t1 ... tn] of the tag; the tags at the call sites are words of letters,
    which stand for themselves in the expression. *)

(** One character of the class [\s] at the head of [s]; returns what
    follows it.  The class holds TAB, LF, VT, FF, CR, the space, U+00A0,
    U+1680, U+2000 to U+200A, U+2028, U+2029, U+202F, U+205F, U+3000 and
    U+FEFF. *)
Definition whitespace (s : string) : option string :=
  match s with
  | EmptyString => None
  | String a r =>
      let b := N_of_ascii a in
      if ((0x09 <=? b) && (b <=? 0x0D) || (b =? 0x20))%N then Some r
      else
        match r with
        | EmptyString => None
        | String a2 r2 =>
            let b2 := N_of_ascii a2 in
            if ((b =? 0xC2) && (b2 =? 0xA0))%N then Some r2
            else
              match r2 with
              | EmptyString => None
              | String a3 r3 =>
                  let b3 := N_of_ascii a3 in
                  if ((b =? 0xE1) && (b2 =? 0x9A) && (b3 =? 0x80)
                      || (b =? 0xE2) && (b2 =? 0x80)
                         && ((0x80 <=? b3) && (b3 <=? 0x8A)
                             || (b3 =? 0xA8) || (b3 =? 0xA9) || (b3 =? 0xAF))
                      || (b =? 0xE2) && (b2 =? 0x81) && (b3 =? 0x9F)
                      || (b =? 0xE3) && (b2 =? 0x80) && (b3 =? 0x80)
                      || (b =? 0xEF) && (b2 =? 0xBB) && (b3 =? 0xBF))%N
                  then Some r3
                  else None
              end
        end
  end.

(** [(?:t1)?...(?:tn)?$]: each character is taken if it is there, and given
    back if the rest does not match. *)
Fixpoint optionalChars (tag : list ascii) (s : string) : bool :=
  match tag with
  | [] => String.eqb s ""
  | c :: tag' =>
      match s with
      | String a r => Ascii.eqb a c && optionalChars tag' r
      | EmptyString => false
      end
      || optionalChars tag' s
  end.

(** [<\/?(?:t1)?...(?:tn)?$] *)
Definition angleTag (tag : list ascii) (s : string) : bool :=
  match s with
  | String a r =>
      Ascii.eqb a "<"
      && (match r with
          | String b r' => Ascii.eqb b "/" && optionalChars tag r'
          | EmptyString => false
          end
          || optionalChars tag r)
  | EmptyString => false
  end.

(** Whether the whole expression matches [s] from its first character to
    its end. *)
Definition tagRegex (tag : string) (s : string) : bool :=
  match whitespace s with
  | Some r => angleTag (list_ascii_of_string tag) r
  | None => false
  end
  || angleTag (list_ascii_of_string tag) s.

(** The tags that stand for themselves in the expression: words of ASCII
    letters.  Every tag at a call site is one. *)
Definition isLetter (a : ascii) : bool :=
  let b := N_of_ascii a in
  ((0x41 <=? b) && (b <=? 0x5A) || (0x61 <=? b) && (b <=? 0x7A))%N.

Definition wordTag (tag : string) : bool :=
  forallb isLetter (list_ascii_of_string tag).

(** [text.replace(tagRegex, "")]: the match that starts leftmost reaches the
    end of the text and is removed; nothing is left for a second match. *)
Fixpoint replaceTag (tag : string) (text : string) : string :=
  if tagRegex tag text then ""
  else match text with
       | EmptyString => ""
       | String a r => String a (replaceTag tag r)
       end.

Definition removeClosingTag (tag : string) (text : option string) (isPartial : bool)
  : string :=
  if negb isPartial then
    match text with Some s => s | None => "" end
  else
    match text with
    | None => ""
    | Some s => if String.eqb s "" then "" else replaceTag tag s
    end.

(** ** Events of a task

    The tools also speak to the user through the task object, report to
    telemetry and hand results to the parent task.  [Made c] is a call of the
    kind listed in [Call]. *)

Inductive ContentBlock : Type :=
  | TextBlock (text : string)
  | ImageBlock (source : string).

(** What [cline.ask] resolves to. *)
Record AskResponse : Type := {
  response : string;
  text : option string;
  images : option (list string);
}.

Section Events.
Context `{JsNumber}.

Inductive Event : Type :=
  | Made (c : Call)
  | Say (type : string) (text : JsVal) (images : option (list string))
        (partial : option bool)
  | Ask (type : string) (text : string) (partial : option bool)
  | CaptureTaskCompleted
  | EmitTaskCompleted
  | AskFinishSubTaskApproval
  | FinishSubTask (result : JsVal)
  | PushUserMessageContent (blocks : list ContentBlock).

Definition Flow (A : Type) : Type := list Event * completion A.

Definition pure {A} (a : A) : Flow A := ([], Normal a).

Definition andThen {A B} (m : Flow A) (k : A → Flow B) : Flow B :=
  match m with
  | (events, Normal a) => let '(events', r) := k a in ((events ++ events')%list, r)
  | (events, Throw e) => (events, Throw e)
  end.

(** [try { body } catch (error) { handler }] *)
Definition attempt {A} (body : Flow A) (handler : JsError → Flow A) : Flow A :=
  match body with
  | (events, Normal a) => (events, Normal a)
  | (events, Throw e) => let '(events', r) := handler e in ((events ++ events')%list, r)
  end.

(** One call, recorded, completing as the collaborator says. *)
Definition event {A} (e : Event) (outcome : completion A) : Flow A := ([e], outcome).

(** A step that is not recorded. *)
Definition quiet {A} (outcome : completion A) : Flow A := ([], outcome).

(** [promise.catch(() => {})]: a rejection is dropped. *)
Definition swallow {A} (m : Flow A) : Flow unit :=
  (fst m, Normal tt).

(** A run over [Call], as a flow. *)
Definition made {A} (r : Run A) : Flow A := (map Made (fst r), snd r).

(** The calls of the kind listed in [Call] that a flow makes. *)
Definition madeCalls {A} (f : Flow A) : Run A :=
  (omap (λ e, match e with Made c => Some c | _ => None end) (fst f), snd f).

Definition events {A} (f : Flow A) : list Event := fst f.
Definition outcome {A} (f : Flow A) : completion A := snd f.

End Events.

Notation "'let!' x := m 'in' k" := (andThen m (λ x, k))
  (at level 10, x name, m at level 100, k at level 200, only parsing).
Notation "m >>> k" := (andThen m (λ _, k))
  (at level 100, right associativity, only parsing).

(** The conversation side of the task object, by how each call completes. *)
Record Conversation `{JsNumber} : Type := {
  (** [lastMessage && lastMessage.ask === "command"], for the last of
      [cline.clineMessages] *)
  lastMessageIsCommandAsk : bool;
  (** whether [cline.parentTask] is set *)
  parentTask : bool;
  say : string → JsVal → option (list string) → option bool → completion unit;
  ask : string → string → option bool → completion AskResponse;
  (** [TelemetryService.instance.captureTaskCompleted(cline.taskId)] *)
  captureTaskCompleted : completion unit;
  (** [cline.emit(RooCodeEventName.TaskCompleted, ...)] *)
  emitTaskCompleted : completion unit;
  (** [cline.providerRef.deref()?.finishSubTask], when there is a provider *)
  finishSubTask : option (JsVal → completion unit);
}.

(** The conversation in which [ask] completes otherwise. *)
Definition answering `{JsNumber} (conversation : Conversation)
    (ask' : string → string → option bool → completion AskResponse) : Conversation := {|
  lastMessageIsCommandAsk := lastMessageIsCommandAsk conversation;
  parentTask := parentTask conversation;
  say := say conversation;
  ask := ask';
  captureTaskCompleted := captureTaskCompleted conversation;
  emitTaskCompleted := emitTaskCompleted conversation;
  finishSubTask := finishSubTask conversation;
|}.

(** [AttemptCompletionCallbacks] *)
Record AttemptCompletionCallbacks : Type := {
  (** the callbacks every tool receives *)
  shared : ToolCallbacks;
  askFinishSubTaskApproval : completion bool;
  toolDescription : completion string;
}.

(** The files side: the working directory and the functions imported from
    [path], [utils/path], [utils/pathUtils], [services/glob/list-files] and
    [prompts/responses]. *)
Record Workspace `{JsNumber} : Type := {
  cwd : string;
  (** [path.resolve(cwd, p)], which throws when [p] is no string *)
  path_resolve : string → JsVal → completion string;
  isPathOutsideWorkspace : string → bool;
  (** [getReadablePath(cwd, relPath)] *)
  getReadablePath : string → JsVal → string;
  (** [listFiles(dirPath, recursive, limit)]: the files and whether the
      limit was hit *)
  listFiles : string → JsVal → nat → completion (list string * bool);
  (** [showRooIgnoredFiles] of the awaited provider state, when there is
      one *)
  getShowRooIgnoredFiles : completion (option bool);
  (** [formatResponse.formatFilesList], the two controllers of the task
      being part of the function *)
  formatFilesList : string → list string → bool → bool → string;
}.

(** [JSON.stringify] of an object literal, which is never [undefined]. *)
Definition stringifyObject `{JsNumber} (props : list (string * JsVal)) : string :=
  default "" (JSON_stringify (VObject props)).

(** ** [ListFilesTool]: the listing and the partial message *)

Module ListFiles.
Section ListFiles.
Context `{JsNumber}.
Variable workspace : Workspace.

(** [!recursive ? "listFilesTopLevel" : "listFilesRecursive"] *)
Definition toolKind (recursive : bool) : string :=
  if negb recursive then "listFilesTopLevel" else "listFilesRecursive".

(** The file list and its message, as the user is asked to approve it. *)
Definition completeMessage (relDirPath recursive : JsVal) (absolutePath result : string)
  : string :=
  stringifyObject
    [("tool", VString (toolKind (ToBoolean recursive)));
     ("path", VString (getReadablePath workspace (cwd workspace) relDirPath));
     ("isOutsideWorkspace", VBool (isPathOutsideWorkspace workspace absolutePath));
     ("content", VString result)].

(** The [try] block of [execute] after the check of [path]. *)
Definition listing (relDirPath recursive : JsVal) (cline : Task)
    (callbacks : ToolCallbacks) : Run unit :=
  absolutePath ⇐ lift (path_resolve workspace (cwd workspace) relDirPath) ;;
  listed ⇐ lift (listFiles workspace absolutePath
                   (if ToBoolean recursive then recursive else VBool false) 200) ;;
  let '(files, didHitLimit) := listed in
  state ⇐ lift (getShowRooIgnoredFiles workspace) ;;
  let showRooIgnoredFiles := default false state in
  let result :=
    formatFilesList workspace absolutePath files didHitLimit showRooIgnoredFiles in
  let message := completeMessage relDirPath recursive absolutePath result in
  didApprove ⇐ call (AskApproval "tool" message)
                    (askApproval callbacks "tool" message) ;;
  if negb didApprove then ret tt
  else call (PushToolResult result) (pushToolResult callbacks result).

(** [execute], whole. *)
Definition execute (params : JsVal) (cline : Task) (callbacks : ToolCallbacks)
  : Run unit :=
  ListFilesTool.execute listing params cline callbacks.

(** [recursiveRaw?.toLowerCase() === "true"] *)
Definition isRecursive (params : gmap string string) : bool :=
  match params !! "recursive" with
  | Some raw => String.eqb (toLowerCase raw) "true"
  | None => false
  end.

(** The message of a partial update. *)
Definition partialMessage (recursive : bool) (shownPath : string) (absolutePath : string)
  : string :=
  stringifyObject
    [("tool", VString (toolKind recursive));
     ("path", VString (getReadablePath workspace (cwd workspace) (VString shownPath)));
     ("isOutsideWorkspace", VBool (isPathOutsideWorkspace workspace absolutePath));
     ("content", VString "")].

Definition handlePartial (conversation : Conversation) (block : ToolUse) : Flow unit :=
  let relDirPath := params block !! "path" in
  let recursive := isRecursive (params block) in
  let! absolutePath :=
    quiet (match relDirPath with
           | Some p => if String.eqb p "" then Normal (cwd workspace)
                       else path_resolve workspace (cwd workspace) (VString p)
           | None => Normal (cwd workspace)
           end) in
  let message :=
    partialMessage recursive (removeClosingTag "path" relDirPath (partial block))
                   absolutePath in
  swallow (event (Ask "tool" message (Some (partial block)))
                 (ask conversation "tool" message (Some (partial block)))).

End ListFiles.
End ListFiles.

(** ** [AttemptCompletionTool]: the completion and the partial message *)

Module AttemptCompletion.
Section AttemptCompletion.
Context `{JsNumber}.
Variable preventCompletionWithOpenTodos : bool.
Variable toolError : string → string.
(** [formatResponse.imageBlocks] *)
Variable imageBlocks : option (list string) → list ContentBlock.
Variable conversation : Conversation.

Definition newline : string := String "010"%char EmptyString.

(** [`${text}`] for a text that may be [undefined]. *)
Definition interpolate (text : option string) : string :=
  match text with Some s => s | None => "undefined" end.

(** The [try] block of [execute] once the mistake counter is reset. *)
Definition announcing (result : JsVal) (cline : Task)
    (callbacks : AttemptCompletionCallbacks) : Flow unit :=
  event (Say "completion_result" result None (Some false))
        (say conversation "completion_result" result None (Some false)) >>>
  event CaptureTaskCompleted (captureTaskCompleted conversation) >>>
  event EmitTaskCompleted (emitTaskCompleted conversation) >>>
  if parentTask conversation then
    let! didApprove := event AskFinishSubTaskApproval (askFinishSubTaskApproval callbacks) in
    if negb didApprove then pure tt
    else match finishSubTask conversation with
         | Some finish => event (FinishSubTask result) (finish result)
         | None => pure tt
         end
  else
    let! answer := event (Ask "completion_result" "" (Some false))
                         (ask conversation "completion_result" "" (Some false)) in
    if String.eqb (response answer) "yesButtonClicked" then
      event (Made (PushToolResult ""))
            (pushToolResult (shared callbacks) "")
    else
      event (Say "user_feedback" (VString (default "" (text answer))) (images answer) None)
            (say conversation "user_feedback" (VString (default "" (text answer)))
                 (images answer) None) >>>
      let feedback :=
        TextBlock ("The user has provided feedback on the results. Consider their input to continue the task, and then attempt completion again."
                   +:+ newline +:+ "<feedback>" +:+ newline +:+ interpolate (text answer)
                   +:+ newline +:+ "</feedback>") in
      let toolResults := feedback :: imageBlocks (images answer) in
      let! description := quiet (toolDescription callbacks) in
      event (PushUserMessageContent [TextBlock (description +:+ " Result:")]) (Normal tt) >>>
      event (PushUserMessageContent toolResults) (Normal tt).

(** The [try] block of [execute] after the check of [result]. *)
Definition completing (result : JsVal) (cline : Task)
    (callbacks : AttemptCompletionCallbacks) : Flow unit :=
  event (Made MistakeCountReset) (Normal tt) >>>
  announcing result cline callbacks.

(** [execute], whole. *)
Definition execute (params : JsVal) (cline : Task)
    (callbacks : AttemptCompletionCallbacks) : Flow unit :=
  let! source := quiet (destructure params) in
  let result := get source "result" in
  let base := shared callbacks in
  if preventCompletionWithOpenTodos && hasIncompleteTodos cline then
    made (call MistakeCountIncrement (Normal tt) ;;;
          call (RecordToolError "attempt_completion")
               (recordToolError cline "attempt_completion") ;;;
          let refusal := toolError "Cannot complete task while there are incomplete todos. Please finish all todos before attempting completion." in
          call (PushToolResult refusal) (pushToolResult base refusal))
  else
    attempt
      (if negb (ToBoolean result) then
         made (missingParam cline base "attempt_completion" "result")
       else completing result cline callbacks)
      (λ error, event (Made (HandleError "inspecting site" error))
                      (handleError base "inspecting site" error)).

Definition handlePartial (block : ToolUse) : Flow unit :=
  let result := params block !! "result" in
  let command := params block !! "command" in
  let askCommand :=
    swallow (event (Ask "command" (removeClosingTag "command" command (partial block))
                        (Some (partial block)))
                   (ask conversation "command"
                        (removeClosingTag "command" command (partial block))
                        (Some (partial block)))) in
  let shown := VString (removeClosingTag "result" result (partial block)) in
  if negb (String.eqb (default "" command) "") then
    if lastMessageIsCommandAsk conversation then askCommand
    else
      event (Say "completion_result" shown None (Some false))
            (say conversation "completion_result" shown None (Some false)) >>>
      event CaptureTaskCompleted (captureTaskCompleted conversation) >>>
      event EmitTaskCompleted (emitTaskCompleted conversation) >>>
      askCommand
  else
    event (Say "completion_result" shown None (Some (partial block)))
          (say conversation "completion_result" shown None (Some (partial block))).

End AttemptCompletion.
End AttemptCompletion.

(** ** [NewTaskTool]: the partial message *)

Module NewTask.
Section NewTask.
Context `{JsNumber}.
Variable conversation : Conversation.

Definition handlePartial (block : ToolUse) : Flow unit :=
  let mode := params block !! "mode" in
  let message := params block !! "message" in
  let todos := params block !! "todos" in
  let partialMessage :=
    stringifyObject
      [("tool", VString "newTask");
       ("mode", VString (removeClosingTag "mode" mode (partial block)));
       ("content", VString (removeClosingTag "message" message (partial block)));
       ("todos", VString (removeClosingTag "todos" todos (partial block)))] in
  swallow (event (Ask "tool" partialMessage (Some (partial block)))
                 (ask conversation "tool" partialMessage (Some (partial block)))).

End NewTask.
End NewTask.


(** ** More collaborators used as examples *)

(** [{"path": "src", "recursive": true}] and [{"result": "Done"}] *)
Definition recursive_arguments : string :=
  "{" +:+ quoted "path" +:+ ": " +:+ quoted "src" +:+ ", " +:+ quoted "recursive"
      +:+ ": true}".
Definition done_result_arguments : string :=
  "{" +:+ quoted "result" +:+ ": " +:+ quoted "Done" +:+ "}".

Section MoreExamples.
#[local] Existing Instance Decimal.decimal.

Definition exampleWorkspace : Workspace := {|
  cwd := "/work";
  path_resolve :=
    λ cwd p, match p with
             | VString s => Normal (cwd +:+ "/" +:+ s)
             | _ => Throw (TypeError "The path argument must be of type string")
             end;
  isPathOutsideWorkspace := λ _, false;
  getReadablePath := λ _ p, match p with VString s => s | _ => "" end;
  listFiles := λ _ _ _, Normal (["a.ts"; "b.ts"], false);
  getShowRooIgnoredFiles := Normal None;
  formatFilesList := λ _ files _ _, join "," files;
|}.

(** A user who answers every question with [answer]. *)
Definition conversationWith (parent : bool) (said : completion unit)
    (answer : AskResponse) : Conversation := {|
  lastMessageIsCommandAsk := false;
  parentTask := parent;
  say := λ _ _ _ _, said;
  ask := λ _ _ _, Normal answer;
  captureTaskCompleted := Normal tt;
  emitTaskCompleted := Normal tt;
  finishSubTask := Some (λ _, Normal tt);
|}.

Definition accepted : AskResponse :=
  {| response := "yesButtonClicked"; text := None; images := None |}.
Definition feedback : AskResponse :=
  {| response := "messageResponse"; text := Some "add tests"; images := None |}.

Definition exampleCompletionCallbacks : AttemptCompletionCallbacks := {|
  shared := exampleCallbacks;
  askFinishSubTaskApproval := Normal true;
  toolDescription := Normal "[attempt_completion]";
|}.

(** Callbacks of a session that has been closed: the approval is rejected,
    and the error callback throws what it is given. *)
Definition closedCallbacks : ToolCallbacks := {|
  askApproval := λ _ _, Throw (Error "closed");
  handleError := λ _ error, Throw error;
  pushToolResult := λ _, Normal tt;
|}.

Definition exampleProvider : NewTaskTool.Provider := {|
  NewTaskTool.getState :=
    λ _, Normal (Some {| NewTaskTool.customModes := VUndefined;
                         NewTaskTool.mode := Some "architect" |});
|}.

(** The mode [code] and no other. *)
Definition exampleModes (slug customModes : JsVal) : option string :=
  match slug with
  | VString s => if String.eqb s "code" then Some "Code" else None
  | _ => None
  end.

Definition newTaskParams (todos : JsVal) : JsVal :=
  VObject [("mode", VString "code"); ("message", VString "see \\@file");
           ("todos", todos)].

(** A checklist parser that accepts the empty text only. *)
Definition exampleChecklist (todos : JsVal) : completion (list JsVal) :=
  match todos with
  | VString "" => Normal []
  | _ => Throw (Error "not a checklist")
  end.

Definition listFilesParams : JsVal := VObject [("path", VString "src")].
Definition completionParams : JsVal := VObject [("result", VString "Done")].


Definition commandBlock : ToolUse := {|
  name := "attempt_completion";
  params := {[ "result" := "Done"; "command" := "npm test" ]};
  partial := true;
  nativeArgs := None;
|}.

(** A tool whose [execute] throws. *)
Definition failingTool : BaseTool.t Task := {|
  BaseTool.name := "list_files";
  BaseTool.parseLegacy := ListFilesTool.parseLegacy;
  BaseTool.execute := λ _ _ _, Throw (Error "disk failure");
  BaseTool.handlePartial := BaseTool.default_handlePartial;
|}.

End MoreExamples.
(** * Properties *)

(** ** The runtime *)

Section RuntimeFacts.
Context `{JsNumber}.
#[local] Arguments expect : simpl never.
#[local] Arguments lex_number : simpl never.
#[local] Arguments lex_string : simpl never.

Lemma includes_true (l : list string) (x : string) : includes l x = true ↔ x ∈ l.
Proof. unfold includes. apply bool_decide_eq_true. Qed.

Lemma includes_false (l : list string) (x : string) : includes l x = false ↔ x ∉ l.
Proof. unfold includes. apply bool_decide_eq_false. Qed.

Lemma eqb_true (a b : string) : String.eqb a b = true ↔ a = b.
Proof. apply String.eqb_eq. Qed.

Lemma eqb_false (a b : string) : String.eqb a b = false ↔ a ≠ b.
Proof. apply String.eqb_neq. Qed.

(** [JSON.parse] never yields [undefined]. *)
Lemma parse_value_defined fuel s v rest :
  parse_value fuel s = Some (v, rest) → v ≠ VUndefined.
Proof.
  destruct fuel as [|fuel]; simpl; [discriminate|].
  destruct (skip_ws s) as [|c r]; [discriminate|].
  repeat case_match; intros Hv ->; simplify_option_eq;
    repeat match goal with p : (_ * _)%type |- _ => destruct p end; discriminate.
Qed.

Lemma JSON_parse_defined text v : JSON_parse text = Normal v → v ≠ VUndefined.
Proof.
  unfold JSON_parse.
  destruct (parse_value _ text) as [[v' rest]|] eqn:Hp; [|discriminate].
  destruct (String.eqb _ _); [|discriminate].
  intros [= <-]. eapply parse_value_defined, Hp.
Qed.

(** [Object.entries] throws on [null] and [undefined] only. *)
Lemma Object_entries_normal (v : JsVal) :
  v ≠ VUndefined → v ≠ VNull → ∃ entries, Object_entries v = Normal entries.
Proof. destruct v; simpl; intros; try congruence; eauto. Qed.


End RuntimeFacts.

(** ** The fuel of [JSON.parse] *)

Section ParseFuel.
Context `{JsNumber}.

Abbreviation len := String.length.

Lemma skip_ws_length s : (len (skip_ws s) ≤ len s)%nat.
Proof. induction s as [|a s IH]; simpl; [lia|]. destruct (is_ws a); simpl; lia. Qed.

Lemma expect_length lit s rest :
  expect lit s = Some rest → len s = (len lit + len rest)%nat.
Proof.
  revert s. induction lit as [|a lit IH]; intros s; simpl.
  - by intros [= ->].
  - destruct s as [|b s]; [discriminate|]. destruct (Ascii.eqb a b); [|discriminate].
    intros Hr. apply IH in Hr. simpl. lia.
Qed.

Lemma head_is_length c s rest : head_is c s = Some rest → len s = S (len rest).
Proof.
  destruct s as [|a s]; simpl; [discriminate|].
  destruct (Ascii.eqb a c); [|discriminate]. by intros [= ->].
Qed.

Lemma take_digits_length s ds rest :
  take_digits s = (ds, rest) → len s = (len ds + len rest)%nat.
Proof.
  revert ds rest. induction s as [|a s IH]; intros ds rest; simpl.
  - by intros [= <- <-].
  - destruct (is_digit a).
    + destruct (take_digits s) as [ds' rest'] eqn:Ht. intros [= <- <-].
      specialize (IH _ _ eq_refl). simpl. lia.
    + intros [= <- <-]. simpl. lia.
Qed.

Lemma optional_char_length c s found rest :
  optional_char c s = (found, rest) → len s = (len found + len rest)%nat.
Proof.
  unfold optional_char. destruct s as [|a r]; [by intros [= <- <-]|].
  destruct (Ascii.eqb a c); intros [= <- <-]; simpl; lia.
Qed.

Lemma lex_int_length s ds rest :
  lex_int s = Some (ds, rest) → (len rest < len s)%nat.
Proof.
  unfold lex_int. destruct (take_digits s) as [ds' rest'] eqn:Ht.
  apply take_digits_length in Ht.
  destruct ds' as [|d [|d' ds'']]; [discriminate| |].
  - intros [= <- <-]. simpl in Ht. lia.
  - destruct (Ascii.eqb d "0"); [discriminate|]. intros [= <- <-]. simpl in Ht. lia.
Qed.

Lemma lex_frac_length s fr rest :
  lex_frac s = Some (fr, rest) → (len rest ≤ len s)%nat.
Proof.
  unfold lex_frac. destruct (optional_char "." s) as [dot r] eqn:Hd.
  apply optional_char_length in Hd.
  destruct dot as [|d dot]; [by intros [= <- <-]|].
  destruct (take_digits r) as [ds rest'] eqn:Ht. apply take_digits_length in Ht.
  destruct (String.eqb ds ""); [discriminate|]. intros [= <- <-]. lia.
Qed.

Lemma lex_exp_length s ex rest :
  lex_exp s = Some (ex, rest) → (len rest ≤ len s)%nat.
Proof.
  unfold lex_exp. destruct s as [|e r]; [by intros [= <- <-]|].
  destruct (Ascii.eqb e "e" || Ascii.eqb e "E"); [|by intros [= <- <-]].
  destruct (optional_char "+" r) as [plus r'] eqn:Hp.
  apply optional_char_length in Hp.
  destruct (optional_char "-" r) as [minus r''] eqn:Hm.
  apply optional_char_length in Hm.
  assert (∀ sign r1, len r = (len sign + len r1)%nat →
            (let '(ds, rest0) := take_digits r1 in
             if String.eqb ds "" then None else Some (String e sign +:+ ds, rest0))
            = Some (ex, rest) → (len rest ≤ len (String e r))%nat) as Hgo.
  { intros sign r1 Hr1. destruct (take_digits r1) as [ds rest0] eqn:Ht.
    apply take_digits_length in Ht. destruct (String.eqb ds ""); [discriminate|].
    intros [= <- <-]. simpl. lia. }
  destruct plus; [apply (Hgo _ _ Hm)|apply (Hgo _ _ Hp)].
Qed.

Lemma lex_number_length s lexeme rest :
  lex_number s = Some (lexeme, rest) → (len rest < len s)%nat.
Proof.
  unfold lex_number. destruct (optional_char "-" s) as [sign s1] eqn:Hs.
  apply optional_char_length in Hs.
  destruct (lex_int s1) as [[int s2]|] eqn:Hi; [|discriminate]. cbn.
  apply lex_int_length in Hi.
  destruct (lex_frac s2) as [[fr s3]|] eqn:Hf; [|discriminate]. cbn.
  apply lex_frac_length in Hf.
  destruct (lex_exp s3) as [[ex s4]|] eqn:He; [|discriminate]. cbn.
  apply lex_exp_length in He. intros [= <- <-]. lia.
Qed.

Lemma lex_string_length s items rest :
  lex_string s = Some (items, rest) → (len rest < len s)%nat.
Proof.
  revert items rest.
  assert (∀ (n : nat) s items rest, (len s ≤ n)%nat →
            lex_string s = Some (items, rest) → (len rest < len s)%nat) as Hall;
    [|intros items rest; by eapply Hall].
  clear s. induction n as [|n IH]; intros s items rest Hn.
  - destruct s; [discriminate|simpl in Hn; lia].
  - destruct s as [|a r]; [discriminate|]. cbn [lex_string]. simpl in Hn.
    destruct (N_of_ascii a =? 34)%N; [intros [= <- <-]; simpl; lia|].
    destruct (N_of_ascii a <? 32)%N; [discriminate|].
    destruct (N_of_ascii a =? 92)%N.
    + destruct r as [|e r1]; [discriminate|]. simpl in Hn.
      assert (∀ c, ('(items, rest) ← lex_string r1;
                    Some (Raw (ascii_of_N c) :: items, rest)) = Some (items, rest) →
                   (len rest < len (String a (String e r1)))%nat) as Hsimple.
      { intros c Hc. destruct (lex_string r1) as [[items' rest']|] eqn:Hl; [|discriminate].
        injection Hc as <- <-. apply IH in Hl; [|lia]. simpl. lia. }
      do 8 (destruct (Ascii.eqb e _); [by apply Hsimple|]).
      destruct (Ascii.eqb e "u"); [|discriminate].
      destruct r1 as [|h1 [|h2 [|h3 [|h4 r5]]]]; try discriminate.
      destruct (hex_value h1); [|discriminate]. destruct (hex_value h2); [|discriminate].
      destruct (hex_value h3); [|discriminate]. destruct (hex_value h4); [|discriminate].
      cbn. destruct (lex_string r5) as [[items' rest']|] eqn:Hl; [|discriminate].
      cbn. intros [= <- <-]. apply IH in Hl; [|simpl in Hn; lia]. simpl. lia.
    + destruct (lex_string r) as [[items' rest']|] eqn:Hl; [|discriminate].
      cbn. intros [= <- <-]. apply IH in Hl; [|lia]. simpl. lia.
Qed.

(** What the three parsers return does not depend on the fuel, once there
    are two units of it for each character consumed. *)
Definition fuel_independent {A} (parser : nat → string → option (A * string))
    (fuel : nat) : Prop :=
  ∀ s a rest,
    parser fuel s = Some (a, rest) →
    (len rest < len s)%nat ∧
    ∀ fuel', (2 * (len s - len rest) ≤ fuel')%nat → parser fuel' s = Some (a, rest).

Ltac same_branch :=
  repeat match goal with
         | E : ?x = _ |- context [?x] => rewrite E
         end.

Lemma parse_fuel_independent fuel :
  fuel_independent parse_value fuel ∧
  fuel_independent parse_elements fuel ∧
  fuel_independent parse_members fuel.
Proof.
  unfold fuel_independent.
  induction fuel as [|fuel (IHv & IHe & IHm)];
    [split; [|split]; intros s a rest; simpl; discriminate|].
  split; [|split]; intros s a rest; cbn [parse_value parse_elements parse_members].
  - (* a value *)
    pose proof (skip_ws_length s) as Hws.
    destruct (skip_ws s) as [|c r] eqn:Hsk; [discriminate|]. simpl in Hws.
    destruct (Ascii.eqb c "n") eqn:En.
    { destruct (expect "null" (String c r)) as [rest0|] eqn:Ex; [|discriminate].
      intros [= <- <-]. apply expect_length in Ex as Hx. simpl in Hx.
      split; [lia|]. intros [|f] Hf; [lia|].
      cbn [parse_value]. by same_branch. }
    destruct (Ascii.eqb c "t") eqn:Et.
    { destruct (expect "true" (String c r)) as [rest0|] eqn:Ex; [|discriminate].
      intros [= <- <-]. apply expect_length in Ex as Hx. simpl in Hx.
      split; [lia|]. intros [|f] Hf; [lia|].
      cbn [parse_value]. by same_branch. }
    destruct (Ascii.eqb c "f") eqn:Ef.
    { destruct (expect "false" (String c r)) as [rest0|] eqn:Ex; [|discriminate].
      intros [= <- <-]. apply expect_length in Ex as Hx. simpl in Hx.
      split; [lia|]. intros [|f] Hf; [lia|].
      cbn [parse_value]. by same_branch. }
    destruct (Ascii.eqb c "034") eqn:Eq.
    { destruct (lex_string r) as [[items rest0]|] eqn:Ex; [|discriminate].
      intros [= <- <-]. apply lex_string_length in Ex as Hx.
      split; [lia|]. intros [|f] Hf; [lia|].
      cbn [parse_value]. by same_branch. }
    destruct (Ascii.eqb c "[") eqn:Ea.
    { pose proof (skip_ws_length r) as Hwr.
      destruct (head_is "]" (skip_ws r)) as [rest0|] eqn:Eh.
      - intros [= <- <-]. apply head_is_length in Eh as Hx.
        split; [lia|]. intros [|f] Hf; [lia|].
        cbn [parse_value]. by same_branch.
      - destruct (parse_elements fuel r) as [[elems rest0]|] eqn:Ex; [|discriminate].
        intros [= <- <-]. destruct (IHe _ _ _ Ex) as [Hlt Hmore].
        split; [lia|]. intros [|f] Hf; [lia|].
        cbn [parse_value]. same_branch. rewrite Hmore by lia. done. }
    destruct (Ascii.eqb c "{") eqn:Eo.
    { pose proof (skip_ws_length r) as Hwr.
      destruct (head_is "}" (skip_ws r)) as [rest0|] eqn:Eh.
      - intros [= <- <-]. apply head_is_length in Eh as Hx.
        split; [lia|]. intros [|f] Hf; [lia|].
        cbn [parse_value]. by same_branch.
      - destruct (parse_members fuel r) as [[members rest0]|] eqn:Ex; [|discriminate].
        intros [= <- <-]. destruct (IHm _ _ _ Ex) as [Hlt Hmore].
        split; [lia|]. intros [|f] Hf; [lia|].
        cbn [parse_value]. same_branch. rewrite Hmore by lia. done. }
    destruct (lex_number (String c r)) as [[lexeme rest0]|] eqn:Ex; [|discriminate].
    intros [= <- <-]. apply lex_number_length in Ex as Hx. simpl in Hx.
    split; [lia|]. intros [|f] Hf; [lia|].
    cbn [parse_value]. by same_branch.
  - (* the elements of an array *)
    destruct (parse_value fuel s) as [[v s1]|] eqn:Ev; [|discriminate].
    destruct (IHv _ _ _ Ev) as [Hv Hmorev]. cbn.
    pose proof (skip_ws_length s1) as Hws.
    destruct (skip_ws s1) as [|c r] eqn:Hsk; [discriminate|]. simpl in Hws.
    destruct (Ascii.eqb c ",") eqn:Ec.
    + destruct (parse_elements fuel r) as [[vs rest0]|] eqn:Ex; [|discriminate].
      intros [= <- <-]. destruct (IHe _ _ _ Ex) as [Hlt Hmore].
      split; [lia|]. intros [|f] Hf; [lia|].
      cbn [parse_elements]. rewrite Hmorev by lia. cbn. same_branch.
      rewrite Hmore by lia. done.
    + destruct (Ascii.eqb c "]") eqn:Eb; [|discriminate].
      intros [= <- <-]. split; [lia|]. intros [|f] Hf; [lia|].
      cbn [parse_elements]. rewrite Hmorev by lia. cbn. by same_branch.
  - (* the members of an object *)
    pose proof (skip_ws_length s) as Hws0.
    destruct (head_is "034" (skip_ws s)) as [s1|] eqn:Eh; [|discriminate]. cbn.
    apply head_is_length in Eh as Hh.
    destruct (lex_string s1) as [[items s2]|] eqn:Ek; [|discriminate]. cbn.
    apply lex_string_length in Ek as Hk.
    pose proof (skip_ws_length s2) as Hws2.
    destruct (head_is ":" (skip_ws s2)) as [s3|] eqn:Ecolon; [|discriminate]. cbn.
    apply head_is_length in Ecolon as Hcolon.
    destruct (parse_value fuel s3) as [[v s4]|] eqn:Ev; [|discriminate]. cbn.
    destruct (IHv _ _ _ Ev) as [Hv Hmorev].
    pose proof (skip_ws_length s4) as Hws.
    destruct (skip_ws s4) as [|c r] eqn:Hsk; [discriminate|]. simpl in Hws.
    destruct (Ascii.eqb c ",") eqn:Ec.
    + destruct (parse_members fuel r) as [[ms rest0]|] eqn:Ex; [|discriminate].
      intros [= <- <-]. destruct (IHm _ _ _ Ex) as [Hlt Hmore].
      split; [lia|]. intros [|f] Hf; [lia|].
      cbn [parse_members]. do 3 (same_branch; cbn).
      rewrite Hmorev by lia. cbn. same_branch. rewrite Hmore by lia. done.
    + destruct (Ascii.eqb c "}") eqn:Eb; [|discriminate].
      intros [= <- <-]. split; [lia|]. intros [|f] Hf; [lia|].
      cbn [parse_members]. do 3 (same_branch; cbn).
      rewrite Hmorev by lia. cbn. by same_branch.
Qed.

(** The fuel [JSON_parse] starts with is enough: what the parser accepts
    with any fuel, [JSON_parse] accepts. *)
Lemma JSON_parse_fuel fuel text v rest :
  parse_value fuel text = Some (v, rest) →
  parse_value (2 * len text + 2) text = Some (v, rest).
Proof.
  intros Hp. destruct (parse_fuel_independent fuel) as (Hv & _ & _).
  destruct (Hv _ _ _ Hp) as [Hlt Hmore]. apply Hmore. lia.
Qed.

(** So a [SyntaxError] of [JSON_parse] is never for want of fuel. *)
Lemma JSON_parse_throws fuel text e v rest :
  JSON_parse text = Throw e →
  parse_value fuel text = Some (v, rest) →
  skip_ws rest ≠ "".
Proof.
  intros Hthrow Hp. unfold JSON_parse in Hthrow.
  rewrite (JSON_parse_fuel _ _ _ _ Hp) in Hthrow.
  destruct (String.eqb (skip_ws rest) "") eqn:E; [discriminate|].
  by apply String.eqb_neq in E.
Qed.

End ParseFuel.


(** ** The native call parser *)

Section ParserFacts.
Context `{JsNumber}.
Variable toolNames : list string.
Variable toolParamNames : list string.

Import NativeToolCallParser.

Abbreviation parse := (parseToolCall toolNames toolParamNames).
Abbreviation parse0 := (UntypedNativeToolCallParser.parseToolCall toolNames toolParamNames).

Lemma assign_lookup_ne (params : gmap string string) k s key :
  k ≠ key → assign params k s !! key = params !! key.
Proof.
  intros Hne. unfold assign. destruct (String.eqb k "__proto__"); [done|].
  by rewrite lookup_insert_ne.
Qed.

(** An unknown key takes the [continue] branch of the loop. *)
Lemma synthesize_unknown toolName (params : gmap string string) key value :
  key ∉ toolParamNames → synthesize toolParamNames toolName params (key, value) = params.
Proof.
  intros Hk. unfold synthesize. apply includes_false in Hk. rewrite Hk. simpl.
  by destruct (_ && _).
Qed.

Lemma synthesize0_unknown (params : gmap string string) key value :
  key ∉ toolParamNames →
  UntypedNativeToolCallParser.synthesize toolParamNames params (key, value) = params.
Proof.
  intros Hk. unfold UntypedNativeToolCallParser.synthesize.
  apply includes_false in Hk. by rewrite Hk.
Qed.

Lemma synthesize_keeps_none toolName (params : gmap string string) entry key :
  key ∉ toolParamNames → params !! key = None →
  synthesize toolParamNames toolName params entry !! key = None.
Proof.
  intros Hk Hnone. destruct entry as [k v]. unfold synthesize.
  destruct (_ && _); [done|].
  destruct (includes toolParamNames k) eqn:Hin; simpl; [|done].
  apply includes_true in Hin.
  destruct (stringValue v); [|done].
  rewrite assign_lookup_ne; [done|]. intros ->. contradiction.
Qed.

Lemma synthesize0_keeps_none (params : gmap string string) entry key :
  key ∉ toolParamNames → params !! key = None →
  UntypedNativeToolCallParser.synthesize toolParamNames params entry !! key = None.
Proof.
  intros Hk Hnone. destruct entry as [k v].
  unfold UntypedNativeToolCallParser.synthesize.
  destruct (includes toolParamNames k) eqn:Hin; simpl; [|done].
  apply includes_true in Hin.
  destruct (stringValue v); [|done].
  rewrite assign_lookup_ne; [done|]. intros ->. contradiction.
Qed.

(** For [read_file], the loop skips the key [files]. *)
Lemma synthesize_keeps_files (params : gmap string string) entry :
  params !! "files" = None →
  synthesize toolParamNames "read_file" params entry !! "files" = None.
Proof.
  intros Hnone. destruct entry as [k v]. unfold synthesize.
  destruct (String.eqb k "files") eqn:Hk; simpl; [done|].
  apply eqb_false in Hk.
  destruct (negb _); [done|]. destruct (stringValue v); [|done].
  by rewrite assign_lookup_ne.
Qed.

(** An invariant of the accumulator holds after the loop. *)
Lemma loop_invariant {A} (P : gmap string string → Prop)
    (step : gmap string string → A → gmap string string) (entries : list A) params :
  (∀ m e, P m → P (step m e)) → P params → P (fold_left step entries params).
Proof.
  intros Hstep. revert params.
  induction entries as [|e entries IH]; simpl; intros params Hp; [done|].
  apply IH, Hstep, Hp.
Qed.

Lemma lineNumber_normal (line : JsVal) s :
  ToString line = Normal s → ∃ n, lineNumber line = Normal n.
Proof.
  intros Hs. unfold lineNumber.
  destruct line; try (rewrite Hs; simpl; eauto); eauto.
Qed.

(** Building [nativeArgs] throws in one place only: the conversion of the
    [line] of [insert_content]. *)
Lemma buildNativeArgs_normal toolName (args : JsVal) :
  (convertsLine toolName args = true → ∃ s, ToString (get args "line") = Normal s) →
  ∃ native, buildNativeArgs toolName args = Normal native.
Proof.
  intros Hline. unfold convertsLine in Hline.
  destruct (String.eqb toolName "insert_content") eqn:Hname.
  - apply eqb_true in Hname. subst toolName. unfold buildNativeArgs. simpl in *.
    destruct (defined (get args "path") && defined (get args "line")
              && defined (get args "content")); [|eauto].
    destruct (Hline eq_refl) as [s Hs].
    destruct (lineNumber_normal _ _ Hs) as [n ->]. simpl. eauto.
  - clear Hline. unfold buildNativeArgs. rewrite Hname.
    repeat match goal with
           | |- context [if ?c then _ else _] => destruct c
           end; eauto.
Qed.

Lemma buildNativeArgs_line_throws (args : JsVal) e :
  convertsLine "insert_content" args = true →
  lineNumber (get args "line") = Throw e →
  buildNativeArgs "insert_content" args = Throw e.
Proof.
  unfold convertsLine, buildNativeArgs. simpl. intros -> ->. reflexivity.
Qed.

Lemma parse_inv toolCall r :
  parse toolCall = Normal (Some r) →
  ToolCall.name toolCall ∈ toolNames ∧
  ∃ args entries native,
    JSON_parse (ToolCall.arguments toolCall) = Normal args ∧
    Object_entries args = Normal entries ∧
    buildNativeArgs (ToolCall.name toolCall) args = Normal native ∧
    r = {| name := ToolCall.name toolCall;
           params := fold_left (synthesize toolParamNames (ToolCall.name toolCall)) entries ∅;
           partial := false;
           nativeArgs := native |}.
Proof.
  unfold parseToolCall, parseArguments. intros Hp.
  destruct (includes toolNames _) eqn:Hin; simpl in Hp; [|discriminate].
  apply includes_true in Hin. split; [done|].
  destruct (JSON_parse _) as [args|] eqn:Hargs; cbn in Hp; [|discriminate].
  destruct (Object_entries args) as [entries|] eqn:Hentries; cbn in Hp; [|discriminate].
  destruct (buildNativeArgs _ args) as [native|] eqn:Hnative; cbn in Hp; [|discriminate].
  injection Hp as <-. by exists args, entries, native.
Qed.

Lemma parse_accepts toolCall args entries native :
  ToolCall.name toolCall ∈ toolNames →
  JSON_parse (ToolCall.arguments toolCall) = Normal args →
  Object_entries args = Normal entries →
  buildNativeArgs (ToolCall.name toolCall) args = Normal native →
  parse toolCall
  = Normal (Some {| name := ToolCall.name toolCall;
                    params := fold_left (synthesize toolParamNames (ToolCall.name toolCall))
                                        entries ∅;
                    partial := false;
                    nativeArgs := native |}).
Proof.
  intros Hin Hargs Hentries Hnative. unfold parseToolCall, parseArguments.
  apply includes_true in Hin. rewrite Hin, Hargs. cbn.
  rewrite Hentries. cbn. by rewrite Hnative.
Qed.

Lemma parse0_inv toolCall r :
  parse0 toolCall = Normal (Some r) →
  ToolCall.name toolCall ∈ toolNames ∧
  ∃ args entries,
    JSON_parse (ToolCall.arguments toolCall) = Normal args ∧
    Object_entries args = Normal entries ∧
    r = {| name := ToolCall.name toolCall;
           params := fold_left (UntypedNativeToolCallParser.synthesize toolParamNames)
                               entries ∅;
           partial := false;
           nativeArgs := None |}.
Proof.
  unfold UntypedNativeToolCallParser.parseToolCall,
    UntypedNativeToolCallParser.parseArguments.
  intros Hp.
  destruct (includes toolNames _) eqn:Hin; simpl in Hp; [|discriminate].
  apply includes_true in Hin. split; [done|].
  destruct (JSON_parse _) as [args|] eqn:Hargs; cbn in Hp; [|discriminate].
  destruct (Object_entries args) as [entries|] eqn:Hentries; cbn in Hp; [|discriminate].
  injection Hp as <-. by exists args, entries.
Qed.

Lemma parse0_accepts toolCall args entries :
  ToolCall.name toolCall ∈ toolNames →
  JSON_parse (ToolCall.arguments toolCall) = Normal args →
  Object_entries args = Normal entries →
  parse0 toolCall
  = Normal (Some {| name := ToolCall.name toolCall;
                    params := fold_left (UntypedNativeToolCallParser.synthesize toolParamNames)
                                        entries ∅;
                    partial := false;
                    nativeArgs := None |}).
Proof.
  intros Hin Hargs Hentries.
  unfold UntypedNativeToolCallParser.parseToolCall,
    UntypedNativeToolCallParser.parseArguments.
  apply includes_true in Hin. rewrite Hin, Hargs. cbn.
  by rewrite Hentries.
Qed.

End ParserFacts.

Section ParserClaims.
Context `{JsNumber}.
Variable toolNames : list string.
Variable toolParamNames : list string.

Import NativeToolCallParser.

Abbreviation parse := (parseToolCall toolNames toolParamNames).
Abbreviation parse0 := (UntypedNativeToolCallParser.parseToolCall toolNames toolParamNames).

Lemma own_property_without key k (props : list (string * JsVal)) :
  k ≠ key → own_property k (without key props) = own_property k props.
Proof.
  intros Hne. induction props as [|[k' v] props IH]; [done|].
  unfold without in *. rewrite filter_cons. simpl.
  destruct (decide (k' ≠ key)) as [Hk|Hk]; simpl.
  - by rewrite IH.
  - apply dec_stable in Hk. subst k'.
    destruct (String.eqb key k) eqn:E; [|done].
    apply eqb_true in E. congruence.
Qed.

Lemma get_without key k (props : list (string * JsVal)) :
  k ≠ key → get (VObject (without key props)) k = get (VObject props) k.
Proof. intros Hne. simpl. by rewrite own_property_without. Qed.

(** The loop does not see an unknown key. *)
Lemma loop_without toolName key (props : list (string * JsVal)) params :
  key ∉ toolParamNames →
  fold_left (synthesize toolParamNames toolName) (without key props) params
  = fold_left (synthesize toolParamNames toolName) props params.
Proof.
  intros Hk. revert params.
  induction props as [|[k v] props IH]; intros params; [done|].
  unfold without in *. rewrite filter_cons. cbn [fst].
  destruct (decide (k ≠ key)) as [Hne|Heq]; cbn [fold_left].
  - apply IH.
  - apply dec_stable in Heq. subst k.
    rewrite (synthesize_unknown toolParamNames) by done. apply IH.
Qed.

Lemma loop0_without key (props : list (string * JsVal)) params :
  key ∉ toolParamNames →
  fold_left (UntypedNativeToolCallParser.synthesize toolParamNames) (without key props) params
  = fold_left (UntypedNativeToolCallParser.synthesize toolParamNames) props params.
Proof.
  intros Hk. revert params.
  induction props as [|[k v] props IH]; intros params; [done|].
  unfold without in *. rewrite filter_cons. cbn [fst].
  destruct (decide (k ≠ key)) as [Hne|Heq]; cbn [fold_left].
  - apply IH.
  - apply dec_stable in Heq. subst k.
    rewrite (synthesize0_unknown toolParamNames) by done. apply IH.
Qed.

(** For [insert_content], [nativeArgs] is a function of three properties. *)
Lemma buildNativeArgs_insert_content (args args' : JsVal) :
  get args "path" = get args' "path" →
  get args "line" = get args' "line" →
  get args "content" = get args' "content" →
  buildNativeArgs "insert_content" args = buildNativeArgs "insert_content" args'.
Proof. intros Hp Hl Hc. unfold buildNativeArgs. simpl. by rewrite Hp, Hl, Hc. Qed.

(** C4, as the code has it: [parseToolCall] never throws; it returns [null]
    when the name is outside the tool-name set, when the arguments string
    does not decode as JSON, and also when it decodes to the JSON value
    [null]; for a valid tool name and arguments that decode to any other
    value it returns an invocation with [partial = false], unless
    [String(line)] throws where [insert_content] converts its [line], in
    which case it returns [null] as well. *)
Theorem parseToolCall_null_or_complete (toolCall : ToolCall.t) :
  (∃ result, parse toolCall = Normal result) ∧
  (ToolCall.name toolCall ∉ toolNames → parse toolCall = Normal None) ∧
  (∀ e, JSON_parse (ToolCall.arguments toolCall) = Throw e →
        parse toolCall = Normal None) ∧
  (JSON_parse (ToolCall.arguments toolCall) = Normal VNull →
   parse toolCall = Normal None) ∧
  (∀ args,
     ToolCall.name toolCall ∈ toolNames →
     JSON_parse (ToolCall.arguments toolCall) = Normal args →
     args ≠ VNull →
     (convertsLine (ToolCall.name toolCall) args = true →
      ∃ s, ToString (get args "line") = Normal s) →
     ∃ r, parse toolCall = Normal (Some r) ∧ partial r = false
          ∧ name r = ToolCall.name toolCall) ∧
  (∀ args e,
     JSON_parse (ToolCall.arguments toolCall) = Normal args →
     convertsLine (ToolCall.name toolCall) args = true →
     ToString (get args "line") = Throw e →
     parse toolCall = Normal None).
Proof.
  repeat split.
  - unfold parseToolCall. destruct (negb _); [eauto|].
    destruct (parseArguments _ _) as [r|e]; cbn; eauto.
  - intros Hout. unfold parseToolCall. apply includes_false in Hout.
    by rewrite Hout.
  - intros e He. unfold parseToolCall, parseArguments. rewrite He. cbn.
    by destruct (negb _).
  - intros Hnull. unfold parseToolCall, parseArguments. rewrite Hnull. cbn.
    by destruct (negb _).
  - intros args Hin Hargs Hnull Hline.
    destruct (Object_entries_normal args) as [entries Hentries];
      [by eapply JSON_parse_defined|done|].
    destruct (buildNativeArgs_normal _ args Hline) as [native Hnative].
    rewrite (parse_accepts _ _ _ _ _ _ Hin Hargs Hentries Hnative). eauto.
  - intros args e Hargs Hconverts Hthrows.
    unfold parseToolCall, parseArguments. destruct (negb _); [done|].
    rewrite Hargs. cbn. destruct (Object_entries args); cbn; [|done].
    pose proof Hconverts as Hname. unfold convertsLine in Hname.
    apply andb_prop in Hname as [Hname _]. apply eqb_true in Hname.
    rewrite Hname in *.
    rewrite (buildNativeArgs_line_throws args e); [done|done|].
    unfold lineNumber. destruct (get args "line"); try by rewrite Hthrows.
    discriminate.
Qed.

(** C5, at the multi-file call: for [read_file], the arguments
    [{"path": "a.txt"}] give
    [nativeArgs = [{path: "a.txt", lineRanges: []}]], but the arguments
    [{"files":[{"path":"a.txt","line_ranges":[[1,5]]}]}] give as
    [nativeArgs] the decoded [files] list itself: its one entry keeps the
    key [line_ranges] of the wire format and has no property
    [lineRanges], so [nativeArgs] is not the list
    [[{path: "a.txt", lineRanges: [[1,5]]}]] of entries of the shape that
    the single-file branch builds. *)
Theorem read_file_files_not_converted (id : string) :
  "read_file" ∈ toolNames →
  (∃ r, parse {| ToolCall.id := id; ToolCall.name := "read_file";
                 ToolCall.arguments := single_file_arguments |} = Normal (Some r)
        ∧ nativeArgs r
          = Some (VArray [VObject [("path", VString "a.txt"); ("lineRanges", VArray [])]]))
  ∧
  (∃ r entry,
     parse {| ToolCall.id := id; ToolCall.name := "read_file";
              ToolCall.arguments := multi_file_arguments |} = Normal (Some r)
     ∧ nativeArgs r = Some (VArray [entry])
     ∧ get entry "path" = VString "a.txt"
     ∧ get entry "line_ranges"
       = VArray [VArray [VNumber (StringToNumber "1"); VNumber (StringToNumber "5")]]
     ∧ get entry "lineRanges" = VUndefined
     ∧ nativeArgs r
       ≠ Some (VArray
                 [VObject [("path", VString "a.txt");
                           ("lineRanges",
                            VArray [VArray [VNumber (StringToNumber "1");
                                            VNumber (StringToNumber "5")]])]])).
Proof.
  intros Hin. split.
  - eexists. split.
    + by eapply (parse_accepts _ _ _ (VObject [("path", VString "a.txt")])).
    + reflexivity.
  - eexists _, (VObject [("path", VString "a.txt");
                         ("line_ranges",
                          VArray [VArray [VNumber (StringToNumber "1");
                                          VNumber (StringToNumber "5")]])]).
    split.
    + by eapply (parse_accepts _ _ _
                   (VObject [("files",
                              VArray [VObject [("path", VString "a.txt");
                                               ("line_ranges",
                                                VArray [VArray [VNumber (StringToNumber "1");
                                                                VNumber (StringToNumber "5")]])]])])).
    + repeat split; try reflexivity. cbn [nativeArgs]. intros [=].
Qed.

(** C6: the invocation returned for a native [read_file] call has no
    [files] entry in its legacy parameters, whatever the arguments decode
    to; a decoded list of files is carried by [nativeArgs]. *)
Theorem read_file_params_without_files (toolCall : ToolCall.t) (r : ToolUse) :
  ToolCall.name toolCall = "read_file" →
  parse toolCall = Normal (Some r) →
  params r !! "files" = None ∧
  (∀ args files,
     JSON_parse (ToolCall.arguments toolCall) = Normal args →
     get args "files" = VArray files →
     nativeArgs r = Some (VArray files)).
Proof.
  intros Hname Hparse.
  destruct (parse_inv _ _ _ _ Hparse)
    as (_ & args & entries & native & Hargs & _ & Hnative & ->).
  rewrite Hname in *. split.
  - apply loop_invariant; [|apply lookup_empty].
    intros m e. apply synthesize_keeps_files.
  - intros args' files Hargs' Hfiles. rewrite Hargs' in Hargs. injection Hargs as ->.
    unfold buildNativeArgs in Hnative. simpl in Hnative. rewrite Hfiles in Hnative.
    simpl in Hnative. by injection Hnative as <-.
Qed.

(** The conversion of [line] is the same with and without a key that is
    none of the three names it reads. *)
Lemma convertsLine_without key toolName (props : list (string * JsVal)) :
  key ≠ "path" → key ≠ "line" → key ≠ "content" →
  convertsLine toolName (VObject (without key props))
  = convertsLine toolName (VObject props)
  ∧ get (VObject (without key props)) "line" = get (VObject props) "line".
Proof.
  intros Hpath Hline Hcontent. unfold convertsLine.
  by rewrite !get_without by done.
Qed.

(** C7: a key outside the parameter-name set is in the legacy parameters
    of no invocation either revision of the parser returns, and its presence
    does not reject the call.  The revision without [nativeArgs] returns an
    invocation for every valid tool name and every arguments object; the
    revision with [nativeArgs] returns one unless [String(line)] throws
    where [insert_content] converts its [line], and, [path], [line] and
    [content] being parameter names, whether it throws can be read off the
    object without the key.  The invocation has [partial = false] and the
    legacy parameters of the call without the key. *)
Theorem unknown_key_dropped_not_fatal (key : string) :
  key ∉ toolParamNames →
  (∀ toolCall r, parse toolCall = Normal (Some r) → params r !! key = None) ∧
  (∀ toolCall r, parse0 toolCall = Normal (Some r) → params r !! key = None) ∧
  (∀ toolCall props,
     ToolCall.name toolCall ∈ toolNames →
     JSON_parse (ToolCall.arguments toolCall) = Normal (VObject props) →
     ∃ r, parse0 toolCall = Normal (Some r) ∧
          name r = ToolCall.name toolCall ∧ partial r = false ∧
          params r !! key = None ∧
          ∀ toolCall' r',
            ToolCall.name toolCall' = ToolCall.name toolCall →
            JSON_parse (ToolCall.arguments toolCall') = Normal (VObject (without key props)) →
            parse0 toolCall' = Normal (Some r') →
            params r = params r') ∧
  (∀ toolCall props,
     ToolCall.name toolCall ∈ toolNames →
     JSON_parse (ToolCall.arguments toolCall) = Normal (VObject props) →
     (convertsLine (ToolCall.name toolCall) (VObject props) = true →
      ∃ s, ToString (get (VObject props) "line") = Normal s) →
     ∃ r, parse toolCall = Normal (Some r) ∧
          name r = ToolCall.name toolCall ∧ partial r = false ∧
          params r !! key = None ∧
          ∀ toolCall' r',
            ToolCall.name toolCall' = ToolCall.name toolCall →
            JSON_parse (ToolCall.arguments toolCall') = Normal (VObject (without key props)) →
            parse toolCall' = Normal (Some r') →
            params r = params r') ∧
  ("path" ∈ toolParamNames → "line" ∈ toolParamNames → "content" ∈ toolParamNames →
   ∀ toolCall props,
     ToolCall.name toolCall ∈ toolNames →
     JSON_parse (ToolCall.arguments toolCall) = Normal (VObject props) →
     (convertsLine (ToolCall.name toolCall) (VObject (without key props)) = true →
      ∃ s, ToString (get (VObject (without key props)) "line") = Normal s) →
     ∃ r, parse toolCall = Normal (Some r) ∧
          name r = ToolCall.name toolCall ∧ partial r = false ∧
          params r !! key = None).
Proof.
  intros Hkey.
  assert (∀ toolCall r, parse toolCall = Normal (Some r) → params r !! key = None)
    as Hdropped.
  { intros toolCall r Hparse.
    destruct (parse_inv _ _ _ _ Hparse) as (_ & args & entries & native & _ & _ & _ & ->).
    simpl. apply loop_invariant; [|apply lookup_empty].
    intros m e. by apply synthesize_keeps_none. }
  assert (∀ toolCall r, parse0 toolCall = Normal (Some r) → params r !! key = None)
    as Hdropped0.
  { intros toolCall r Hparse.
    destruct (parse0_inv _ _ _ _ Hparse) as (_ & args & entries & _ & _ & ->).
    simpl. apply loop_invariant; [|apply lookup_empty].
    intros m e. by apply synthesize0_keeps_none. }
  assert (∀ toolCall props,
            ToolCall.name toolCall ∈ toolNames →
            JSON_parse (ToolCall.arguments toolCall) = Normal (VObject props) →
            (convertsLine (ToolCall.name toolCall) (VObject props) = true →
             ∃ s, ToString (get (VObject props) "line") = Normal s) →
            ∃ r, parse toolCall = Normal (Some r) ∧
                 name r = ToolCall.name toolCall ∧ partial r = false ∧
                 params r !! key = None ∧
                 ∀ toolCall' r',
                   ToolCall.name toolCall' = ToolCall.name toolCall →
                   JSON_parse (ToolCall.arguments toolCall')
                   = Normal (VObject (without key props)) →
                   parse toolCall' = Normal (Some r') →
                   params r = params r') as Hproduced.
  { intros toolCall props Hin Hargs Hline.
    destruct (buildNativeArgs_normal _ (VObject props) Hline) as [native Hnative].
    pose proof (parse_accepts toolNames toolParamNames _ _ _ _ Hin Hargs eq_refl Hnative)
      as Hparse.
    eexists. split; [exact Hparse|]. split; [done|]. split; [done|].
    split; [by apply (Hdropped _ _ Hparse)|].
    intros toolCall' r' Hname Hargs' Hparse'.
    destruct (parse_inv _ _ _ _ Hparse')
      as (_ & args' & entries' & native' & Ha & He & _ & ->).
    rewrite Hargs' in Ha. injection Ha as <-. simpl in He. injection He as <-.
    rewrite Hname. simpl. symmetry. by apply loop_without. }
  split; [done|]. split; [done|]. split; [|split; [done|]].
  - intros toolCall props Hin Hargs.
    pose proof (parse0_accepts toolNames toolParamNames _ _ _ Hin Hargs eq_refl) as Hparse.
    eexists. split; [exact Hparse|]. split; [done|]. split; [done|].
    split; [by apply (Hdropped0 _ _ Hparse)|].
    intros toolCall' r' Hname Hargs' Hparse'.
    destruct (parse0_inv _ _ _ _ Hparse') as (_ & args' & entries' & Ha & He & ->).
    rewrite Hargs' in Ha. injection Ha as <-. simpl in He. injection He as <-.
    simpl. symmetry. by apply loop0_without.
  - intros Hpath Hline Hcontent toolCall props Hin Hargs Hconverts.
    assert (∀ k, k ∈ toolParamNames → key ≠ k) as Hne by (intros k Hk ->; contradiction).
    destruct (convertsLine_without key (ToolCall.name toolCall) props) as [Hsame Hget];
      [auto..|].
    rewrite Hsame, Hget in Hconverts.
    destruct (Hproduced toolCall props Hin Hargs Hconverts)
      as (r & Hparse & Hn & Hp & Hk & _).
    by exists r.
Qed.

End ParserClaims.

(** ** The un-escaping transform of [new_task] *)

Section Unescape.
Import NewTaskTool.
#[local] Arguments Ascii.eqb : simpl never.

Lemma occurs_cons pattern a s :
  occurs pattern (String a s) = false →
  starts_with pattern (String a s) = false ∧ occurs pattern s = false.
Proof. simpl. intros Ho. by apply orb_false_elim in Ho. Qed.

(** One step of the scan: either the text starts with the escaped sequence,
    or its first character is copied. *)
Lemma unescape_step a rest :
  (starts_with "\\@" (String a rest) = true ∧
   ∃ rest', String a rest = "\\@" +:+ rest' ∧
            unescape (String a rest) = "\@" +:+ unescape rest')
  ∨ (starts_with "\\@" (String a rest) = false ∧
     unescape (String a rest) = String a (unescape rest)).
Proof.
  destruct rest as [|b [|c rest']]; cbn [starts_with unescape].
  - right. split; [|done]. apply andb_false_r.
  - right. split; [|done]. by rewrite !andb_false_r.
  - rewrite andb_true_r, andb_assoc.
    rewrite (Ascii.eqb_sym "\" a), (Ascii.eqb_sym "\" b), (Ascii.eqb_sym "@" c).
    destruct (Ascii.eqb a "\" && Ascii.eqb b "\" && Ascii.eqb c "@") eqn:E.
    + left. split; [done|].
      apply andb_prop in E as [E Ec]. apply andb_prop in E as [Ea Eb].
      apply Ascii.eqb_eq in Ea, Eb, Ec. subst. by exists rest'.
    + by right.
Qed.

(** Induction along the scan. *)
Lemma unescape_scan (P : string → Prop) :
  P "" →
  (∀ rest', P rest' → P ("\\@" +:+ rest')) →
  (∀ a rest, starts_with "\\@" (String a rest) = false → P rest → P (String a rest)) →
  ∀ s, P s.
Proof.
  intros Hnil Hmatch Hcopy s.
  assert (∀ (n : nat) s, (String.length s ≤ n)%nat → P s) as Hall; [|by eapply Hall].
  clear s. induction n as [|n IH]; intros s Hlen.
  - destruct s; [done|simpl in Hlen; lia].
  - destruct s as [|a rest]; [done|].
    destruct (unescape_step a rest) as [[_ (rest' & Heq & _)]|[Hno _]].
    + rewrite Heq in *. apply Hmatch, IH. cbv [String.append] in Hlen. simpl in Hlen. lia.
    + apply Hcopy; [done|]. apply IH. simpl in Hlen. lia.
Qed.

Lemma unescape_match rest' : unescape ("\\@" +:+ rest') = "\@" +:+ unescape rest'.
Proof. reflexivity. Qed.

Lemma unescape_copy a rest :
  starts_with "\\@" (String a rest) = false →
  unescape (String a rest) = String a (unescape rest).
Proof.
  intros Hno. destruct (unescape_step a rest) as [[Hyes _]|[_ Heq]]; [congruence|done].
Qed.

(** A text without the doubly escaped sequence is left as it is. *)
Lemma unescape_unchanged s : occurs "\\@" s = false → unescape s = s.
Proof.
  induction s as [|a rest IH]; [done|].
  intros Ho. apply occurs_cons in Ho as [Hhere Hrest].
  rewrite unescape_copy by done. by rewrite IH.
Qed.

(** How the output can begin with backslash-at. *)
Lemma unescape_head s u :
  unescape s = "\@" +:+ u →
  starts_with "\\@" s = true ∨ starts_with "\@" s = true.
Proof.
  destruct s as [|a rest]; [discriminate|].
  destruct (unescape_step a rest) as [[Hyes _]|[Hno ->]]; [auto|].
  intros Hout. right. injection Hout as -> Hrest.
  destruct rest as [|b rest']; [discriminate|].
  destruct (unescape_step b rest') as [[_ (r & _ & Hm)]|[_ Hc]].
  - rewrite Hm in Hrest. discriminate.
  - rewrite Hc in Hrest. injection Hrest as -> _. reflexivity.
Qed.

(** Without three backslashes before an at sign in the text, no doubly
    escaped sequence is left in the output. *)
Lemma unescape_clears s :
  occurs "\\\@" s = false → occurs "\\@" (unescape s) = false.
Proof.
  induction s as [| rest' IH | a rest Hno IH] using unescape_scan; intros Ho.
  - done.
  - rewrite unescape_match.
    assert (occurs "\\\@" rest' = false) as Hrest.
    { cbv [String.append] in Ho. cbn [occurs] in Ho.
      by do 3 (apply orb_false_elim in Ho as [_ Ho]). }
    cbv [String.append]. cbn [occurs]. by rewrite IH.
  - apply occurs_cons in Ho as [Hhere Hrest].
    rewrite unescape_copy by done.
    change (occurs "\\@" (String a (unescape rest)))
      with (starts_with "\\@" (String a (unescape rest)) || occurs "\\@" (unescape rest)).
    rewrite IH by done. rewrite orb_false_r.
    destruct (starts_with "\\@" (String a (unescape rest))) eqn:Hout; [|done].
    exfalso. simpl in Hout.
    destruct (Ascii.eqb_spec "\" a) as [<-|]; [|done]. simpl in Hout.
    destruct (unescape rest) as [|b [|c u]] eqn:Hu; [done| |].
    { simpl in Hout. by rewrite andb_false_r in Hout. }
    simpl in Hout.
    destruct (Ascii.eqb_spec "\" b) as [<-|]; [|done].
    destruct (Ascii.eqb_spec "@" c) as [<-|]; [|done].
    destruct (unescape_head rest u Hu) as [H3|H2].
    + change (starts_with "\\\@" (String "\" rest))
        with (Ascii.eqb "\" "\" && starts_with "\\@" rest) in Hhere.
      by rewrite H3 in Hhere.
    + change (starts_with "\\@" (String "\" rest))
        with (Ascii.eqb "\" "\" && starts_with "\@" rest) in Hno.
      by rewrite H2 in Hno.
Qed.

End Unescape.

(** ** Runs *)

Section RunFacts.
Context `{JsNumber}.




Lemma elem_of_calls_bind {A B} (c : Call) (m : Run A) (k : A → Run B) :
  c ∈ calls (bind m k) →
  c ∈ calls m ∨ ∃ a, completes m = Normal a ∧ c ∈ calls (k a).
Proof.
  destruct m as [made [a|e]]; simpl; [|auto].
  destruct (k a) as [made' o] eqn:Hk. unfold calls. simpl.
  intros [Hc|Hc]%elem_of_app; [auto|].
  right. exists a. by rewrite Hk.
Qed.

Lemma elem_of_calls_try_run {A} (c : Call) (body : Run A) handler :
  c ∈ calls (try_run body handler) →
  c ∈ calls body ∨ ∃ e, completes body = Throw e ∧ c ∈ calls (handler e).
Proof.
  destruct body as [made [a|e]]; simpl; [auto|].
  destruct (handler e) as [made' o] eqn:Hh. unfold calls. simpl.
  intros [Hc|Hc]%elem_of_app; [auto|].
  right. exists e. by rewrite Hh.
Qed.

Lemma elem_of_calls_call {A} (c c' : Call) (outcome : completion A) :
  c ∈ calls (call c' outcome) → c = c'.
Proof. unfold calls, call. simpl. by intros ->%list_elem_of_singleton. Qed.

Lemma not_elem_of_calls_lift {A} (c : Call) (outcome : completion A) :
  c ∉ calls (lift outcome).
Proof. unfold calls, lift. simpl. apply not_elem_of_nil. Qed.

Lemma not_elem_of_calls_ret {A} (c : Call) (a : A) : c ∉ calls (ret a).
Proof. unfold calls, ret. simpl. apply not_elem_of_nil. Qed.

(** The missing-parameter block when the task object answers. *)
Lemma missingParam_run (cline : Task) (callbacks : ToolCallbacks) toolName paramName text :
  recordToolError cline toolName = Normal tt →
  sayAndCreateMissingParamError cline toolName paramName = Normal text →
  missingParam cline callbacks toolName paramName
  = ([MistakeCountIncrement; RecordToolError toolName;
      SayAndCreateMissingParamError toolName paramName; PushToolResult text],
     pushToolResult callbacks text).
Proof. intros Hrec Hsay. unfold missingParam, call, bind. by rewrite Hrec, Hsay. Qed.

Lemma missingParam_calls (cline : Task) (callbacks : ToolCallbacks) toolName paramName c :
  c ∈ calls (missingParam cline callbacks toolName paramName) →
  c = MistakeCountIncrement ∨ c = RecordToolError toolName ∨
  c = SayAndCreateMissingParamError toolName paramName ∨ ∃ text, c = PushToolResult text.
Proof.
  unfold missingParam. intros Hc.
  repeat match goal with
         | Hc : _ ∈ calls (bind _ _) |- _ =>
             apply elem_of_calls_bind in Hc as [Hc|(? & _ & Hc)]
         | Hc : _ ∈ calls (call _ _) |- _ => apply elem_of_calls_call in Hc
         end; eauto.
Qed.

End RunFacts.

(** Membership of a call in an explicit list of calls. *)
Ltac listed :=
  unfold calls, call; cbn [fst snd];
  rewrite ?elem_of_cons, ?elem_of_nil;
  intuition (discriminate || congruence).

(** ** The dispatch contract *)

Section DispatchClaims.
Context `{JsNumber} {Task : Type}.
Implicit Types (tool : BaseTool.t Task) (cline : Task) (block : ToolUse)
  (callbacks : ToolCallbacks).

Import BaseTool.

Lemma handle_native tool cline block callbacks native :
  partial block = false → nativeArgs block = Some native →
  handle tool cline block callbacks
  = ([Execute native], execute tool native cline callbacks).
Proof. intros Hp Hn. unfold handle, resolveParams. by rewrite Hp, Hn. Qed.

Lemma handle_legacy tool cline block callbacks p :
  partial block = false → nativeArgs block = None →
  parseLegacy tool (params block) = Normal p →
  handle tool cline block callbacks
  = ([ParseLegacy (params block); Execute p], execute tool p cline callbacks).
Proof. intros Hp Hn Hl. unfold handle, resolveParams. by rewrite Hp, Hn, Hl. Qed.

Lemma handle_legacy_throw tool cline block callbacks error :
  partial block = false → nativeArgs block = None →
  parseLegacy tool (params block) = Throw error →
  let errorMessage :=
    "Failed to parse " +:+ name tool +:+ " parameters: " +:+ message error in
  let action := "parsing " +:+ name tool +:+ " args" in
  let pushed := "<error>" +:+ errorMessage +:+ "</error>" in
  handle tool cline block callbacks
  = match handleError callbacks action (Error errorMessage) with
    | Normal _ =>
        ([ParseLegacy (params block); HandleError action (Error errorMessage);
          PushToolResult pushed],
         pushToolResult callbacks pushed)
    | Throw e =>
        ([ParseLegacy (params block); HandleError action (Error errorMessage)], Throw e)
    end.
Proof.
  intros Hp Hn Hl. unfold handle, resolveParams. rewrite Hp, Hn, Hl. simpl.
  by destruct (handleError callbacks _ _).
Qed.

(** Whatever the block, [handle] starts a complete legacy invocation by
    calling [parseLegacy]. *)
Lemma handle_legacy_first tool cline block callbacks :
  partial block = false → nativeArgs block = None →
  ∃ rest, calls (handle tool cline block callbacks) = ParseLegacy (params block) :: rest.
Proof.
  intros Hp Hn.
  destruct (parseLegacy tool (params block)) as [p|error] eqn:Hl.
  - rewrite (handle_legacy _ _ _ _ p) by done. by eexists.
  - rewrite (handle_legacy_throw _ _ _ _ error) by done.
    destruct (handleError callbacks _ _); by eexists.
Qed.

(** C1: for a complete invocation, when [nativeArgs] is present [handle]
    makes one call, [execute(nativeArgs)], and so never calls
    [parseLegacy]; when [nativeArgs] is absent, whatever [execute] receives
    is the value [parseLegacy(block.params)] returned, and it does receive
    it whenever [parseLegacy] returns. *)
Theorem handle_complete tool cline block callbacks :
  partial block = false →
  (∀ native, nativeArgs block = Some native →
     handle tool cline block callbacks
     = ([Execute native], execute tool native cline callbacks)) ∧
  (nativeArgs block = None →
     (∀ p, Execute p ∈ calls (handle tool cline block callbacks) →
           parseLegacy tool (params block) = Normal p) ∧
     (∀ p, parseLegacy tool (params block) = Normal p →
           handle tool cline block callbacks
           = ([ParseLegacy (params block); Execute p],
              execute tool p cline callbacks))).
Proof.
  intros Hp. split; [|intros Hn; split].
  - intros native Hn. by apply handle_native.
  - intros p.
    destruct (parseLegacy tool (params block)) as [p'|error] eqn:Hl.
    + rewrite (handle_legacy _ _ _ _ p') by done. listed.
    + rewrite (handle_legacy_throw _ _ _ _ error) by done.
      destruct (handleError callbacks _ _); listed.
  - intros p Hl. by apply handle_legacy.
Qed.

(** C2: for a partial invocation [handle] makes one call, [handlePartial],
    and returns as that call does: no [parseLegacy], no [execute], no pushed
    result; [execute] is called only for an invocation with
    [partial = false]. *)
Theorem handle_partial tool cline block callbacks :
  (partial block = true →
   handle tool cline block callbacks
   = ([HandlePartial block], handlePartial tool cline block)) ∧
  (∀ p, Execute p ∈ calls (handle tool cline block callbacks) → partial block = false).
Proof.
  split.
  - intros Hp. unfold handle. by rewrite Hp.
  - intros p. unfold handle. destruct (partial block); [|done].
    listed.
Qed.

(** C3: when [parseLegacy] throws on a complete invocation, [handle] never
    calls [execute]; it calls the error callback with the wrapped message
    and, once that callback has returned, pushes the [<error>] result; it
    then completes as the callbacks do, so that the exception of
    [parseLegacy] does not leave [handle]. *)
Theorem handle_parse_failure tool cline block callbacks error :
  partial block = false →
  nativeArgs block = None →
  parseLegacy tool (params block) = Throw error →
  let errorMessage :=
    "Failed to parse " +:+ name tool +:+ " parameters: " +:+ message error in
  let action := "parsing " +:+ name tool +:+ " args" in
  let pushed := "<error>" +:+ errorMessage +:+ "</error>" in
  (∀ p, Execute p ∉ calls (handle tool cline block callbacks)) ∧
  (∃ rest, calls (handle tool cline block callbacks)
           = ParseLegacy (params block) :: HandleError action (Error errorMessage) :: rest) ∧
  (handleError callbacks action (Error errorMessage) = Normal tt →
     handle tool cline block callbacks
     = ([ParseLegacy (params block); HandleError action (Error errorMessage);
         PushToolResult pushed],
        pushToolResult callbacks pushed)) ∧
  (handleError callbacks action (Error errorMessage) = Normal tt →
   pushToolResult callbacks pushed = Normal tt →
   completes (handle tool cline block callbacks) = Normal tt).
Proof.
  intros Hp Hn Hl errorMessage action pushed.
  pose proof (handle_legacy_throw tool cline block callbacks error Hp Hn Hl) as Hrun.
  cbv zeta in Hrun. fold errorMessage action pushed in Hrun.
  repeat split.
  - intros p. rewrite Hrun.
    destruct (handleError callbacks _ _); listed.
  - rewrite Hrun. destruct (handleError callbacks _ _); by eexists.
  - intros He. by rewrite Hrun, He.
  - intros He Hpush. by rewrite Hrun, He.
Qed.

End DispatchClaims.

(** ** Native arguments and the fallback to legacy parsing *)

Section FallbackClaims.
Context `{JsNumber}.
Variable toolNames : list string.
Variable toolParamNames : list string.

Import NativeToolCallParser.

Abbreviation parse := (parseToolCall toolNames toolParamNames).

Lemma buildNativeArgs_attempt_completion (args : JsVal) :
  buildNativeArgs "attempt_completion" args
  = Normal (if ToBoolean (get args "result")
            then Some (VObject [("result", get args "result")])
            else None).
Proof. unfold buildNativeArgs. simpl. by destruct (ToBoolean _). Qed.

Lemma buildNativeArgs_execute_command (args : JsVal) :
  buildNativeArgs "execute_command" args
  = Normal (if ToBoolean (get args "command")
            then Some (VObject [("command", get args "command"); ("cwd", get args "cwd")])
            else None).
Proof. unfold buildNativeArgs. simpl. by destruct (ToBoolean _). Qed.

(** C10: for [attempt_completion] and [execute_command] the parser sets
    [nativeArgs] exactly when the required field ([result], [command]) is
    truthy.  With that field present and equal to the empty string,
    [nativeArgs] is [undefined], and [handle] on the returned invocation
    begins by calling [parseLegacy] on its legacy parameters. *)
Theorem required_field_must_be_truthy (toolCall : ToolCall.t) (args : JsVal) :
  ToolCall.name toolCall ∈ toolNames →
  JSON_parse (ToolCall.arguments toolCall) = Normal args →
  args ≠ VNull →
  (ToolCall.name toolCall = "attempt_completion" →
   ∃ r, parse toolCall = Normal (Some r) ∧
        nativeArgs r = (if ToBoolean (get args "result")
                        then Some (VObject [("result", get args "result")])
                        else None) ∧
        (get args "result" = VString "" →
         nativeArgs r = None ∧
         ∀ (Task : Type) (tool : BaseTool.t Task) cline callbacks,
           ∃ rest, calls (BaseTool.handle tool cline r callbacks)
                   = ParseLegacy (params r) :: rest)) ∧
  (ToolCall.name toolCall = "execute_command" →
   ∃ r, parse toolCall = Normal (Some r) ∧
        nativeArgs r = (if ToBoolean (get args "command")
                        then Some (VObject [("command", get args "command");
                                            ("cwd", get args "cwd")])
                        else None) ∧
        (get args "command" = VString "" →
         nativeArgs r = None ∧
         ∀ (Task : Type) (tool : BaseTool.t Task) cline callbacks,
           ∃ rest, calls (BaseTool.handle tool cline r callbacks)
                   = ParseLegacy (params r) :: rest)).
Proof.
  intros Hin Hargs Hnull.
  destruct (Object_entries_normal args) as [entries Hentries];
    [by eapply JSON_parse_defined|done|].
  split; intros Hname.
  - eexists. split; [|split].
    + eapply parse_accepts; [done|apply Hargs|apply Hentries|].
      rewrite Hname. apply buildNativeArgs_attempt_completion.
    + reflexivity.
    + intros Hempty. cbn [nativeArgs]. rewrite Hempty. split; [done|].
      intros Task tool cline callbacks. apply handle_legacy_first; [done|].
      reflexivity.
  - eexists. split; [|split].
    + eapply parse_accepts; [done|apply Hargs|apply Hentries|].
      rewrite Hname. apply buildNativeArgs_execute_command.
    + reflexivity.
    + intros Hempty. cbn [nativeArgs]. rewrite Hempty. split; [done|].
      intros Task tool cline callbacks. apply handle_legacy_first; [done|].
      reflexivity.
Qed.

End FallbackClaims.

(** ** Concrete tools *)

Section ToolClaims.
Context `{JsNumber}.

Lemma destructure_normal (params source : JsVal) :
  destructure params = Normal source → source = params.
Proof. destruct params; simpl; congruence. Qed.

Lemma or_empty_absent (params : gmap string string) key :
  params !! key = None → or_empty params key = "".
Proof. intros Hk. unfold or_empty. by rewrite Hk. Qed.

Lemma or_empty_present (params : gmap string string) key s :
  params !! key = Some s → or_empty params key = s.
Proof.
  intros Hk. unfold or_empty. rewrite Hk.
  destruct (String.eqb s "") eqn:E; [|done]. by apply eqb_true in E.
Qed.

(** Inverting the membership of a call in a run. *)
Ltac in_run H :=
  repeat match type of H with
         | _ ∈ calls (bind _ _) =>
             let a := fresh "a" in let Ha := fresh "Ha" in
             apply elem_of_calls_bind in H as [H|(a & Ha & H)]
         | _ ∈ calls (try_run _ _) =>
             let e := fresh "e" in let He := fresh "He" in
             apply elem_of_calls_try_run in H as [H|(e & He & H)]
         | _ ∈ calls (call _ _) => apply elem_of_calls_call in H; try discriminate H
         | _ ∈ calls (lift _) => by apply not_elem_of_calls_lift in H
         | _ ∈ calls (ret _) => by apply not_elem_of_calls_ret in H
         | _ ∈ calls (missingParam _ _ _ _) =>
             apply missingParam_calls in H as [H|[H|[H|[? H]]]]; discriminate H
         | _ ∈ calls (if ?b then _ else _) => destruct b
         | _ ∈ calls (match ?o with Some _ => _ | None => _ end) => destruct o
         end.

(** C8, as the code has it: [execute] applies the transform once, so that
    the text handed to [startSubtask] is the transform of the message; a
    message without a doubly escaped at sign, such as one that only holds
    the single-escaped form, is left unchanged; and transforming twice is the
    same as transforming once for every message in which no at sign has
    three backslashes before it. *)
Theorem unescape_applied_once :
  (∀ providerRef requireTodos parseMarkdownChecklist getModeBySlug defaultModeSlug
     toolError t params cline callbacks text todoItems mode,
     StartSubtask text todoItems mode
       ∈ calls (NewTaskTool.execute providerRef requireTodos parseMarkdownChecklist
                  getModeBySlug defaultModeSlug toolError t params cline callbacks) →
     ∃ message, get params "message" = VString message
                ∧ text = NewTaskTool.unescape message) ∧
  (∀ message, occurs "\\@" message = false → NewTaskTool.unescape message = message) ∧
  (∀ message, occurs "\\\@" message = false →
     NewTaskTool.unescape (NewTaskTool.unescape message) = NewTaskTool.unescape message).
Proof.
  split; [|split].
  - intros providerRef requireTodos parseMarkdownChecklist getModeBySlug defaultModeSlug
      toolError t params cline callbacks text todoItems mode Hin.
    unfold NewTaskTool.execute in Hin.
    apply elem_of_calls_bind in Hin as [Hin|(source & Hsource & Hin)];
      [by apply not_elem_of_calls_lift in Hin|].
    apply destructure_normal in Hsource. subst source.
    apply elem_of_calls_try_run in Hin as [Hin|(e & _ & Hin)];
      [|apply elem_of_calls_call in Hin; discriminate].
    unfold NewTaskTool.push, NewTaskTool.delegate in Hin.
    in_run Hin.
    all: try (unfold NewTaskTool.parseTodos, NewTaskTool.push in Hin; in_run Hin; fail).
    all: injection Hin as -> -> ->.
    all: unfold NewTaskTool.unescapedMessage, lift, completes in *; simpl in *.
    all: destruct (get params "message"); try discriminate.
    all: eexists; split; [reflexivity|congruence].
  - apply unescape_unchanged.
  - intros message Hno. apply unescape_unchanged. by apply unescape_clears.
Qed.

(** C9, as the code has it: [parseLegacy] of the three tools never fails;
    an absent required parameter becomes the empty string in the typed
    parameters.  The failure is reported by [execute]: on such parameters it
    counts a mistake, records a tool error and pushes the missing-parameter
    message ([attempt_completion] pushes the open-todos error instead when
    that check comes first), and runs nothing else. *)
Theorem parseLegacy_defaults_execute_reports
    (params : gmap string string) (cline : Task) (callbacks : ToolCallbacks) :
  (∃ v, ListFilesTool.parseLegacy params = Normal v ∧
     (params !! "path" = None →
      get v "path" = VString "" ∧
      ∀ listing text,
        recordToolError cline "list_files" = Normal tt →
        sayAndCreateMissingParamError cline "list_files" "path" = Normal text →
        pushToolResult callbacks text = Normal tt →
        ListFilesTool.execute listing v cline callbacks
        = (missingParamCalls "list_files" "path" text, Normal tt))) ∧
  (∃ v, AttemptCompletionTool.parseLegacy params = Normal v ∧
     (params !! "result" = None →
      get v "result" = VString "" ∧
      ∀ preventCompletionWithOpenTodos toolError completing text,
        recordToolError cline "attempt_completion" = Normal tt →
        sayAndCreateMissingParamError cline "attempt_completion" "result" = Normal text →
        pushToolResult callbacks text = Normal tt →
        AttemptCompletionTool.execute preventCompletionWithOpenTodos toolError completing
          v cline callbacks
        = if preventCompletionWithOpenTodos && hasIncompleteTodos cline then
            let refusal := toolError "Cannot complete task while there are incomplete todos. Please finish all todos before attempting completion." in
            ([MistakeCountIncrement; RecordToolError "attempt_completion";
              PushToolResult refusal],
             pushToolResult callbacks refusal)
          else (missingParamCalls "attempt_completion" "result" text, Normal tt))) ∧
  (∃ v, NewTaskTool.parseLegacy params = Normal v ∧
     ∀ providerRef requireTodos parseMarkdownChecklist getModeBySlug defaultModeSlug
       toolError t text,
       recordToolError cline "new_task" = Normal tt →
       pushToolResult callbacks text = Normal tt →
       (params !! "mode" = None →
        sayAndCreateMissingParamError cline "new_task" "mode" = Normal text →
        get v "mode" = VString "" ∧
        NewTaskTool.execute providerRef requireTodos parseMarkdownChecklist getModeBySlug
          defaultModeSlug toolError t v cline callbacks
        = (missingParamCalls "new_task" "mode" text, Normal tt)) ∧
       (∀ slug, params !! "mode" = Some slug → slug ≠ "" →
        params !! "message" = None →
        sayAndCreateMissingParamError cline "new_task" "message" = Normal text →
        get v "message" = VString "" ∧
        NewTaskTool.execute providerRef requireTodos parseMarkdownChecklist getModeBySlug
          defaultModeSlug toolError t v cline callbacks
        = (missingParamCalls "new_task" "message" text, Normal tt))).
Proof.
  split; [|split].
  - eexists. split; [reflexivity|]. intros Hpath.
    rewrite (or_empty_absent _ _ Hpath). split; [done|].
    intros listing text Hrec Hsay Hpush.
    unfold ListFilesTool.execute. simpl.
    rewrite (missingParam_run _ _ _ _ text) by done. simpl. by rewrite Hpush.
  - eexists. split; [reflexivity|]. intros Hresult.
    rewrite (or_empty_absent _ _ Hresult). split; [done|].
    intros prevent toolError completing text Hrec Hsay Hpush.
    unfold AttemptCompletionTool.execute. simpl.
    destruct (prevent && hasIncompleteTodos cline).
    + unfold call, bind. simpl. by rewrite Hrec.
    + rewrite (missingParam_run _ _ _ _ text) by done. simpl. by rewrite Hpush.
  - eexists. split; [reflexivity|].
    intros providerRef requireTodos parseMarkdownChecklist getModeBySlug defaultModeSlug
      toolError t text Hrec Hpush.
    split.
    + intros Hmode Hsay. rewrite (or_empty_absent _ _ Hmode). split; [done|].
      unfold NewTaskTool.execute. simpl.
      rewrite (missingParam_run _ _ _ _ text) by done. simpl. by rewrite Hpush.
    + intros slug Hmode Hslug Hmessage Hsay.
      rewrite (or_empty_present _ _ _ Hmode), (or_empty_absent _ _ Hmessage).
      split; [done|].
      unfold NewTaskTool.execute. simpl.
      apply eqb_false in Hslug. rewrite Hslug. simpl.
      rewrite (missingParam_run _ _ _ _ text) by done. simpl. by rewrite Hpush.
Qed.

End ToolClaims.

(** ** The claims at concrete calls *)

Section Evaluated.
#[local] Existing Instance Decimal.decimal.

Import NativeToolCallParser.

Abbreviation parse := (parseToolCall someToolNames someToolParamNames).

(** Membership in an explicit list, by evaluation. *)
Ltac member := apply (bool_decide_unpack _); vm_compute; exact I.

(** C1 at a native and at a legacy block. *)
Lemma handle_complete_witness :
  BaseTool.handle listFilesTool exampleTask nativeBlock exampleCallbacks
  = ([Execute (VObject [("path", VString "src")])], Normal tt)
  ∧ BaseTool.handle listFilesTool exampleTask (legacyBlock false) exampleCallbacks
    = ([ParseLegacy {[ "path" := "src" ]};
        Execute (VObject [("path", VString "src"); ("recursive", VBool false)])],
       Normal tt).
Proof.
  split.
  - apply (handle_complete listFilesTool exampleTask nativeBlock exampleCallbacks);
      reflexivity.
  - apply (handle_complete listFilesTool exampleTask (legacyBlock false) exampleCallbacks);
      reflexivity.
Defined.

(** C2 at a partial block. *)
Lemma handle_partial_witness :
  BaseTool.handle listFilesTool exampleTask (legacyBlock true) exampleCallbacks
  = ([HandlePartial (legacyBlock true)], Normal tt).
Proof.
  apply (handle_partial listFilesTool exampleTask (legacyBlock true) exampleCallbacks).
  reflexivity.
Defined.

(** C3 at a block whose [path] is missing, for a tool that throws on it. *)
Lemma handle_parse_failure_witness :
  BaseTool.handle strictTool exampleTask emptyBlock exampleCallbacks
  = ([ParseLegacy ∅;
      HandleError "parsing list_files args"
        (Error "Failed to parse list_files parameters: path is required");
      PushToolResult
        "<error>Failed to parse list_files parameters: path is required</error>"],
     Normal tt).
Proof.
  apply (handle_parse_failure strictTool exampleTask emptyBlock exampleCallbacks
           (Error "path is required")); reflexivity.
Defined.

(** C4 as stated fails: [read_file] is a tool name and [null] is
    well-formed JSON, yet the parser returns [null]. *)
Lemma parseToolCall_json_null_rejected :
  "read_file" ∈ someToolNames
  ∧ JSON_parse "null" = Normal VNull
  ∧ parse (toolCall "read_file" "null") = Normal None.
Proof. split; [member|]. split; reflexivity. Qed.

(** The other rejected call: [insert_content] with a [line] that
    [String(...)] cannot convert. *)
Example parseToolCall_unprintable_line_rejected :
  (∃ args, JSON_parse unprintable_line_arguments = Normal args
           ∧ convertsLine "insert_content" args = true
           ∧ ∃ e, ToString (get args "line") = Throw e)
  ∧ parse (toolCall "insert_content" unprintable_line_arguments) = Normal None.
Proof.
  split; [|reflexivity].
  eexists. split; [reflexivity|]. split; [reflexivity|]. eexists. reflexivity.
Qed.

(** C4, as the code has it, at the single-file call. *)
Lemma parseToolCall_null_or_complete_witness :
  ∃ r, parse (toolCall "read_file" single_file_arguments) = Normal (Some r)
       ∧ partial r = false ∧ name r = "read_file".
Proof.
  apply (parseToolCall_null_or_complete someToolNames someToolParamNames
           (toolCall "read_file" single_file_arguments))
    with (args := VObject [("path", VString "a.txt")]).
  - member.
  - reflexivity.
  - discriminate.
  - discriminate.
Defined.

(** C5 with [read_file] among the tool names: the entry of the multi-file
    call has no [lineRanges]. *)
Lemma read_file_files_not_converted_witness :
  ∃ r entry,
    parse (toolCall "read_file" multi_file_arguments) = Normal (Some r)
    ∧ nativeArgs r = Some (VArray [entry])
    ∧ get entry "line_ranges"
      = VArray [VArray [VNumber (Some (1, 0)%Z); VNumber (Some (5, 0)%Z)]]
    ∧ get entry "lineRanges" = VUndefined.
Proof.
  assert ("read_file" ∈ someToolNames) as Hin by member.
  destruct (read_file_files_not_converted someToolNames someToolParamNames "call_1" Hin)
    as (_ & r & entry & Hparse & Hnative & _ & Hwire & Hnone & _).
  exists r, entry. split; [exact Hparse|]. split; [exact Hnative|].
  split; [exact Hwire|exact Hnone].
Defined.

(** C6 at the multi-file call, with [files] among the parameter names. *)
Lemma read_file_params_without_files_witness :
  "files" ∈ someToolParamNames
  ∧ ∃ r, parse (toolCall "read_file" multi_file_arguments) = Normal (Some r)
         ∧ params r !! "files" = None
         ∧ nativeArgs r
           = Some (VArray
                     [VObject [("path", VString "a.txt");
                               ("line_ranges",
                                VArray [VArray [VNumber (StringToNumber "1");
                                                VNumber (StringToNumber "5")]])]]).
Proof.
  split; [member|].
  exists {| name := "read_file"; params := ∅; partial := false;
            nativeArgs :=
              Some (VArray
                      [VObject [("path", VString "a.txt");
                                ("line_ranges",
                                 VArray [VArray [VNumber (StringToNumber "1");
                                                 VNumber (StringToNumber "5")]])]]) |}.
  split; [reflexivity|].
  destruct (read_file_params_without_files someToolNames someToolParamNames
              (toolCall "read_file" multi_file_arguments) _ eq_refl eq_refl)
    as [Hparams Hnative].
  split; [exact Hparams|].
  exact (Hnative _ _ eq_refl eq_refl).
Defined.

(** C7 at a call with the stray key [verbose]: the invocation is produced,
    with the legacy parameters of the call without the key. *)
Lemma unknown_key_dropped_not_fatal_witness :
  ∃ r, parse (toolCall "list_files" stray_key_arguments) = Normal (Some r)
       ∧ partial r = false
       ∧ params r !! "verbose" = None
       ∧ params r = {[ "path" := "src" ]}.
Proof.
  assert ("verbose" ∉ someToolParamNames) as Hkey by member.
  assert ("list_files" ∈ someToolNames) as Hin by member.
  destruct (unknown_key_dropped_not_fatal someToolNames someToolParamNames "verbose" Hkey)
    as (_ & _ & _ & Hproduced & _).
  destruct (Hproduced (toolCall "list_files" stray_key_arguments)
              [("path", VString "src"); ("verbose", VBool true)] Hin eq_refl)
    as (r & Hparse & _ & Hpartial & Hdropped & Hsame).
  - discriminate.
  - exists r. split; [exact Hparse|]. split; [exact Hpartial|].
    split; [exact Hdropped|].
    exact (Hsame (toolCall "list_files" plain_arguments)
                 {| name := "list_files"; params := {[ "path" := "src" ]};
                    partial := false; nativeArgs := None |}
                 eq_refl eq_refl eq_refl).
Defined.

(** C8 as stated fails: with three backslashes before the at sign, the
    second application removes one more. *)
Lemma unescape_not_idempotent :
  NewTaskTool.unescape "\\\@" = "\\@"
  ∧ NewTaskTool.unescape (NewTaskTool.unescape "\\\@") = "\@"
  ∧ NewTaskTool.unescape (NewTaskTool.unescape "\\\@") ≠ NewTaskTool.unescape "\\\@".
Proof. repeat split; [reflexivity..|discriminate]. Qed.

(** C8, as the code has it, at a message with the single-escaped form only. *)
Lemma unescape_applied_once_witness :
  NewTaskTool.unescape "see \@file" = "see \@file"
  ∧ NewTaskTool.unescape (NewTaskTool.unescape "see \\@file")
    = NewTaskTool.unescape "see \\@file".
Proof.
  destruct unescape_applied_once as (_ & Hsame & Htwice).
  split; [apply Hsame|apply Htwice]; reflexivity.
Defined.

(** C9 as stated fails: without any parameter, the three [parseLegacy]
    return typed parameters with empty strings. *)
Lemma parseLegacy_silent_defaults :
  ListFilesTool.parseLegacy ∅
  = Normal (VObject [("path", VString ""); ("recursive", VBool false)])
  ∧ AttemptCompletionTool.parseLegacy ∅
    = Normal (VObject [("result", VString ""); ("command", VUndefined)])
  ∧ NewTaskTool.parseLegacy ∅
    = Normal (VObject [("mode", VString ""); ("message", VString "");
                       ("todos", VUndefined)]).
Proof. repeat split; reflexivity. Qed.

(** C9, as the code has it, at the empty parameter map: [list_files] reports the
    missing [path]. *)
Lemma parseLegacy_defaults_execute_reports_witness :
  ∃ v, ListFilesTool.parseLegacy ∅ = Normal v
       ∧ get v "path" = VString ""
       ∧ ListFilesTool.execute (λ _ _ _ _, ret tt) v exampleTask exampleCallbacks
         = (missingParamCalls "list_files" "path"
              "Missing value for required parameter path",
            Normal tt).
Proof.
  destruct (parseLegacy_defaults_execute_reports ∅ exampleTask exampleCallbacks)
    as ((v & Hv & Hreports) & _).
  exists v. split; [exact Hv|].
  destruct (Hreports (lookup_empty _)) as [Hpath Hexecute].
  split; [exact Hpath|].
  apply Hexecute; reflexivity.
Defined.

(** C10 at [attempt_completion] with [{"result": ""}]. *)
Lemma required_field_must_be_truthy_witness :
  ∃ r, parse (toolCall "attempt_completion" empty_result_arguments) = Normal (Some r)
       ∧ nativeArgs r = None
       ∧ params r = {[ "result" := "" ]}
       ∧ ∃ rest, calls (BaseTool.handle listFilesTool exampleTask r exampleCallbacks)
                 = ParseLegacy (params r) :: rest.
Proof.
  destruct (required_field_must_be_truthy someToolNames someToolParamNames
              (toolCall "attempt_completion" empty_result_arguments)
              (VObject [("result", VString "")]))
    as [(r & Hparse & _ & Hfallback) _].
  - member.
  - reflexivity.
  - discriminate.
  - reflexivity.
  - exists r. split; [exact Hparse|].
    destruct (Hfallback eq_refl) as [Hnone Hhandle].
    split; [exact Hnone|]. split.
    + assert (Some r = Some {| name := "attempt_completion";
                               params := {[ "result" := "" ]};
                               partial := false; nativeArgs := None |}) as Hr.
      { assert (Normal (Some r)
                = Normal (Some {| name := "attempt_completion";
                                  params := {[ "result" := "" ]};
                                  partial := false; nativeArgs := None |})) as Hn
          by (rewrite <- Hparse; reflexivity).
        congruence. }
      injection Hr as ->. reflexivity.
    + apply Hhandle.
Defined.



End Evaluated.

(** ** Closing tags *)

Section ClosingTags.
#[local] Arguments Ascii.eqb : simpl never.
#[local] Arguments whitespace : simpl never.
#[local] Arguments tagRegex : simpl never.

Lemma replaceTag_match tag text : tagRegex tag text = true → replaceTag tag text = "".
Proof. intros Hm. destruct text; simpl; [done|]. by rewrite Hm. Qed.

Lemma replaceTag_copy tag a text :
  tagRegex tag (String a text) = false →
  replaceTag tag (String a text) = String a (replaceTag tag text).
Proof. intros Hm. simpl. by rewrite Hm. Qed.

Lemma replaceTag_nil tag : replaceTag tag "" = "".
Proof. reflexivity. Qed.

(** What is removed is a suffix that the expression matches, and the first
    such suffix. *)
Lemma replaceTag_split tag text :
  ∃ removed,
    text = replaceTag tag text +:+ removed ∧
    (removed = "" ∨ tagRegex tag removed = true).
Proof.
  induction text as [|a text (removed & Heq & Hrem)].
  - exists "". rewrite replaceTag_nil. auto.
  - destruct (tagRegex tag (String a text)) eqn:Hm.
    + exists (String a text). rewrite replaceTag_match by done. auto.
    + exists removed. rewrite replaceTag_copy by done. split; [|done].
      change (String a text = String a (replaceTag tag text +:+ removed)).
      by rewrite <- Heq.
Qed.

(** The letters the expression accepts after the angle bracket: a selection
    of the characters of the tag, in their order. *)
Lemma optionalChars_sublist tag s :
  optionalChars tag s = true ↔ sublist (list_ascii_of_string s) tag.
Proof.
  revert s. induction tag as [|c tag IH]; intros s; simpl.
  - rewrite String.eqb_eq. split.
    + intros ->. constructor.
    + intros Hs%sublist_nil_r. by destruct s.
  - rewrite orb_true_iff. split.
    + intros [Hhere|Hskip].
      * destruct s as [|a r]; [done|]. apply andb_prop in Hhere as [Ha Hr].
        apply Ascii.eqb_eq in Ha. subst a. simpl. apply sublist_skip. by apply IH.
      * apply sublist_cons. by apply IH.
    + intros Hs. destruct s as [|a r]; simpl in *.
      * right. apply IH. apply sublist_nil_l.
      * apply sublist_cons_r in Hs as [Hs|(l' & Heq & Hs)].
        -- right. by apply IH.
        -- injection Heq as -> <-. left. rewrite Ascii.eqb_refl. simpl. by apply IH.
Qed.

Lemma chars_app s t :
  list_ascii_of_string (s +:+ t) = (list_ascii_of_string s ++ list_ascii_of_string t)%list.
Proof.
  induction s as [|a s IH]; [done|].
  change (String a s +:+ t) with (String a (s +:+ t)). simpl. by rewrite IH.
Qed.

Lemma string_app_nil_r s : s +:+ "" = s.
Proof.
  induction s as [|a s IH]; [done|].
  change (String a s +:+ "") with (String a (s +:+ "")). by rewrite IH.
Qed.

Lemma string_app_assoc s t u : (s +:+ t) +:+ u = s +:+ (t +:+ u).
Proof.
  induction s as [|a s IH]; [done|].
  change ((String a s +:+ t) +:+ u) with (String a ((s +:+ t) +:+ u)). by rewrite IH.
Qed.

(** [whitespace] takes a character off the head. *)
Lemma whitespace_suffix s r :
  whitespace s = Some r → ∃ w, w ≠ "" ∧ s = w +:+ r ∧ whitespace w = Some "".
Proof.
  intros Hw. unfold whitespace in Hw. cbv zeta in Hw.
  destruct s as [|a s]; [done|].
  destruct (_ || _)%bool eqn:E1 in Hw.
  { injection Hw as <-. exists (String a ""). unfold whitespace. by rewrite E1. }
  destruct s as [|a2 s]; [done|].
  destruct (_ && _)%bool eqn:E2 in Hw.
  { injection Hw as <-. exists (String a (String a2 "")). unfold whitespace.
    by rewrite E1, E2. }
  destruct s as [|a3 s]; [done|].
  destruct (_ || _)%bool eqn:E3 in Hw; [|done].
  injection Hw as <-. exists (String a (String a2 (String a3 ""))). unfold whitespace.
  cbv zeta. by rewrite E1, E2, E3.
Qed.

(** A character of the class does not reach into a following angle
    bracket. *)
Lemma whitespace_before_angle a s u r :
  whitespace (String a s +:+ String "<" u) = Some r →
  ∃ r', whitespace (String a s) = Some r' ∧ r = r' +:+ String "<" u.
Proof.
  intros Hw. unfold whitespace in *. cbv zeta in *.
  change (String a s +:+ String "<" u) with (String a (s +:+ String "<" u)) in Hw.
  cbv beta iota in *.
  destruct (_ || _)%bool eqn:E1 in Hw; rewrite E1.
  { injection Hw as <-. by exists s. }
  destruct s as [|a2 s].
  { exfalso. change ("" +:+ String "<" u) with (String "<" u) in Hw.
    cbv beta iota in Hw.
    replace (N_of_ascii "<") with 60%N in Hw by done.
    rewrite andb_false_r in Hw. destruct u as [|a3 u]; [done|].
    rewrite !andb_false_r, !andb_false_l in Hw. simpl in Hw. done. }
  change (String a2 s +:+ String "<" u) with (String a2 (s +:+ String "<" u)) in Hw.
  cbv beta iota in *.
  destruct (_ && _)%bool eqn:E2 in Hw; rewrite E2.
  { injection Hw as <-. by exists s. }
  destruct s as [|a3 s].
  { exfalso. change ("" +:+ String "<" u) with (String "<" u) in Hw.
    cbv beta iota in Hw.
    replace (N_of_ascii "<") with 60%N in Hw by done.
    rewrite !andb_false_r in Hw. simpl in Hw. done. }
  change (String a3 s +:+ String "<" u) with (String a3 (s +:+ String "<" u)) in Hw.
  cbv beta iota in *.
  destruct (_ || _)%bool eqn:E3 in Hw; [|done]. rewrite E3.
  injection Hw as <-. by exists s.
Qed.

Lemma angleTag_head tag s : angleTag tag s = true → ∃ r, s = String "<" r.
Proof.
  destruct s as [|a r]; [done|]. cbn [angleTag].
  intros [Ha _]%andb_prop. apply Ascii.eqb_eq in Ha. subst a. by exists r.
Qed.

(** The shape of a text the expression matches. *)
Lemma tagRegex_shape tag s :
  tagRegex tag s = true →
  ∃ space slash letters,
    s = space +:+ "<" +:+ slash +:+ letters ∧
    (space = "" ∨ whitespace space = Some "") ∧
    (slash = "" ∨ slash = "/") ∧
    sublist (list_ascii_of_string letters) (list_ascii_of_string tag).
Proof.
  assert (∀ r, angleTag (list_ascii_of_string tag) r = true →
            ∃ slash letters,
              r = "<" +:+ slash +:+ letters ∧ (slash = "" ∨ slash = "/") ∧
              sublist (list_ascii_of_string letters) (list_ascii_of_string tag)) as Hangle.
  { intros r Hr. destruct r as [|a r]; [done|]. cbn [angleTag] in Hr.
    apply andb_prop in Hr as [Ha Hr]. apply Ascii.eqb_eq in Ha. subst a.
    apply orb_prop in Hr as [Hr|Hr].
    - destruct r as [|b r']; [done|]. apply andb_prop in Hr as [Hb Hr].
      apply Ascii.eqb_eq in Hb. subst b. apply optionalChars_sublist in Hr.
      exists "/", r'. auto.
    - apply optionalChars_sublist in Hr. exists "", r. auto. }
  unfold tagRegex. intros [Hm|Hm]%orb_prop.
  - destruct (whitespace s) as [r|] eqn:Hw; [|done].
    destruct (whitespace_suffix _ _ Hw) as (w & _ & -> & Hww).
    destruct (Hangle _ Hm) as (slash & letters & -> & Hslash & Hsub).
    exists w, slash, letters. auto.
  - destruct (Hangle _ Hm) as (slash & letters & -> & Hslash & Hsub).
    exists "", slash, letters. auto.
Qed.

(** What [removeClosingTag] removes. *)
Lemma removeClosingTag_split tag (text : option string) isPartial :
  ∃ removed,
    default "" text = removeClosingTag tag text isPartial +:+ removed ∧
    (removed = "" ∨
     isPartial = true ∧
     ∃ space slash letters,
       removed = space +:+ "<" +:+ slash +:+ letters ∧
       (space = "" ∨ whitespace space = Some "") ∧
       (slash = "" ∨ slash = "/") ∧
       sublist (list_ascii_of_string letters) (list_ascii_of_string tag)).
Proof.
  unfold removeClosingTag. destruct isPartial; simpl.
  - destruct text as [s|]; simpl; [|exists ""; auto].
    destruct (String.eqb_spec s "") as [->|Hs]; [exists ""; auto|].
    destruct (replaceTag_split tag s) as (removed & Heq & [->|Hm]).
    + exists "". auto.
    + exists removed. split; [done|]. right. split; [done|]. by apply tagRegex_shape.
  - destruct text as [s|]; exists ""; simpl; rewrite ?string_app_nil_r; auto.
Qed.

(** X1: for a tag that is a word of letters, [removeClosingTag] returns
    the text without a suffix; in partial mode that suffix, when not empty,
    is an optional white-space character, an angle bracket, an optional slash
    and a selection of the characters of the tag in their order; otherwise
    nothing is removed. *)
Theorem removeClosingTag_removes_suffix tag (text : option string) isPartial :
  wordTag tag = true →
  ∃ removed,
    default "" text = removeClosingTag tag text isPartial +:+ removed ∧
    (removed = "" ∨
     isPartial = true ∧
     ∃ space slash letters,
       removed = space +:+ "<" +:+ slash +:+ letters ∧
       (space = "" ∨ whitespace space = Some "") ∧
       (slash = "" ∨ slash = "/") ∧
       sublist (list_ascii_of_string letters) (list_ascii_of_string tag)).
Proof. intros _. apply removeClosingTag_split. Qed.

(** X2: for a tag that is a word of letters, a text whose last character
    is neither an angle bracket, nor a slash, nor a character of the tag is
    returned as it is, in both modes; so is, then, a text that ends with the
    complete closing tag. *)
Theorem removeClosingTag_unchanged tag text isPartial c :
  wordTag tag = true →
  last (list_ascii_of_string text) = Some c →
  c ≠ "<"%char → c ≠ "/"%char → c ∉ list_ascii_of_string tag →
  removeClosingTag tag (Some text) isPartial = text.
Proof.
  intros _ Hlast Hangle Hslash Htag.
  destruct (removeClosingTag_split tag (Some text) isPartial)
    as (removed & Heq & [->|(_ & space & slash & letters & -> & _ & Hs & Hsub)]).
  - simpl in Heq. by rewrite string_app_nil_r in Heq.
  - exfalso. simpl in Heq. rewrite Heq in Hlast.
    rewrite !chars_app in Hlast. simpl in Hlast.
    rewrite !last_app, last_cons, last_app in Hlast.
    destruct (last (list_ascii_of_string letters)) as [y|] eqn:Hy.
    + injection Hlast as ->. apply Htag.
      eapply elem_of_sublist; [|exact Hsub]. by apply last_Some_elem_of.
    + destruct Hs as [->| ->]; simpl in Hlast; congruence.
Qed.

Lemma starts_with_sublist p s :
  starts_with p s = true → sublist (list_ascii_of_string p) (list_ascii_of_string s).
Proof.
  revert s. induction p as [|a p IH]; intros s Hp; [apply sublist_nil_l|].
  destruct s as [|b s]; [done|]. simpl in Hp.
  apply andb_prop in Hp as [Hab Hp]. apply Ascii.eqb_eq in Hab. subst b.
  simpl. apply sublist_skip. by apply IH.
Qed.

(** The beginning of the opening or of the closing tag matches. *)
Lemma tagRegex_beginning tag u :
  u ≠ "" →
  starts_with u ("</" +:+ tag) = true ∨ starts_with u ("<" +:+ tag) = true →
  tagRegex tag u = true ∧ ∃ u', u = String "<" u'.
Proof.
  intros Hu Hp. destruct u as [|a u']; [done|].
  assert (a = "<"%char ∧
          ((∃ r, u' = String "/" r ∧ starts_with r tag = true) ∨ u' = "" ∨
           starts_with u' tag = true)) as [-> Hrest].
  { destruct Hp as [Hp|Hp]; simpl in Hp;
      apply andb_prop in Hp as [Ha Hp]; apply Ascii.eqb_eq in Ha; subst a;
      (split; [done|]).
    - destruct u' as [|b r]; [auto|]. simpl in Hp.
      apply andb_prop in Hp as [Hb Hp]. apply Ascii.eqb_eq in Hb. subst b.
      left. by exists r.
    - auto. }
  split; [|by exists u'].
  unfold tagRegex. apply orb_true_iff. right. cbn [angleTag].
  rewrite Ascii.eqb_refl. simpl.
  destruct Hrest as [(r & -> & Hr)|[->|Hr]].
  - rewrite Ascii.eqb_refl. simpl. apply orb_true_iff. left.
    apply optionalChars_sublist. by apply starts_with_sublist.
  - apply optionalChars_sublist. apply sublist_nil_l.
  - apply orb_true_iff. right.
    apply optionalChars_sublist. by apply starts_with_sublist.
Qed.

(** Inside a body without an angle bracket that does not end with a
    white-space character, no match starts. *)
Lemma tagRegex_inside tag a s u :
  "<"%char ∉ list_ascii_of_string (String a s) →
  (∀ pre w, String a s = pre +:+ w → whitespace w ≠ Some "") →
  tagRegex tag (String a s +:+ String "<" u) = false.
Proof.
  intros Hangle Hspace. unfold tagRegex. apply orb_false_iff. split.
  - destruct (whitespace _) as [r|] eqn:Hw; [|done].
    apply whitespace_before_angle in Hw as (r' & Hw & ->).
    destruct (angleTag _ _) eqn:Hm; [|done]. exfalso.
    apply angleTag_head in Hm as (r & Hr).
    destruct (whitespace_suffix _ _ Hw) as (w & _ & Heq & _).
    destruct r' as [|b r'].
    + by apply (Hspace "" (String a s)).
    + change (String b r' +:+ String "<" u) with (String b (r' +:+ String "<" u)) in Hr.
      injection Hr as -> _. apply Hangle. rewrite Heq, chars_app. simpl. set_solver.
  - change (String a s +:+ String "<" u) with (String a (s +:+ String "<" u)).
    cbn [angleTag]. destruct (Ascii.eqb_spec a "<") as [->|]; [|done].
    exfalso. apply Hangle. simpl. set_solver.
Qed.

(** The beginning of a tag after such a body is where the first match
    starts. *)
Lemma replaceTag_streamed tag body u :
  u ≠ "" →
  starts_with u ("</" +:+ tag) = true ∨ starts_with u ("<" +:+ tag) = true →
  "<"%char ∉ list_ascii_of_string body →
  (∀ pre w, body = pre +:+ w → whitespace w ≠ Some "") →
  body +:+ u ≠ "" ∧ replaceTag tag (body +:+ u) = body.
Proof.
  intros Hu Hp Hangle Hspace.
  destruct (tagRegex_beginning tag u Hu Hp) as (Hm & u' & ->).
  split; [by destruct body|].
  induction body as [|a body IH].
  - change ("" +:+ String "<" u') with (String "<" u'). by apply replaceTag_match.
  - pose proof (tagRegex_inside tag a body u' Hangle Hspace) as Hin.
    change (String a body +:+ String "<" u') with (String a (body +:+ String "<" u')) in *.
    rewrite replaceTag_copy by done. f_equal. apply IH.
    + intros Hb. apply Hangle. simpl. apply elem_of_cons. by right.
    + intros pre w Heq. apply (Hspace (String a pre) w).
      change (String a pre +:+ w) with (String a (pre +:+ w)). by rewrite Heq.
Qed.

(** X3: while a parameter streams in, the beginning of its closing tag (or
    of an opening tag) that has arrived after the body is cut off, and the
    body is what is shown: for a tag that is a word of letters and a body
    without an angle bracket that does not end with a white-space
    character. *)
Theorem removeClosingTag_strips_streamed_tag tag body u :
  wordTag tag = true →
  u ≠ "" →
  starts_with u ("</" +:+ tag) = true ∨ starts_with u ("<" +:+ tag) = true →
  "<"%char ∉ list_ascii_of_string body →
  (∀ pre w, body = pre +:+ w → whitespace w ≠ Some "") →
  removeClosingTag tag (Some (body +:+ u)) true = body.
Proof.
  intros _ Hu Hp Hangle Hspace.
  destruct (replaceTag_streamed tag body u Hu Hp Hangle Hspace) as [Hne Hr].
  unfold removeClosingTag. simpl.
  by destruct (String.eqb_spec (body +:+ u) "").
Qed.

End ClosingTags.

(** ** Flows *)

Section FlowFacts.
Context `{JsNumber}.

Lemma elem_of_events_andThen {A B} (e : Event) (m : Flow A) (k : A → Flow B) :
  e ∈ events (andThen m k) ↔
  e ∈ events m ∨ ∃ a, outcome m = Normal a ∧ e ∈ events (k a).
Proof.
  destruct m as [made [a|error]]; simpl.
  - destruct (k a) as [made' o] eqn:Hk. unfold events, outcome. simpl.
    rewrite elem_of_app. split; intros [He|He]; auto.
    + right. exists a. by rewrite Hk.
    + destruct He as (a' & [= <-] & He). rewrite Hk in He. auto.
  - unfold events, outcome. simpl. split; [auto|]. by intros [He|(a & [=] & _)].
Qed.

Lemma elem_of_events_attempt {A} (e : Event) (body : Flow A) handler :
  e ∈ events (attempt body handler) ↔
  e ∈ events body ∨ ∃ error, outcome body = Throw error ∧ e ∈ events (handler error).
Proof.
  destruct body as [made [a|error]]; simpl.
  - unfold events, outcome. simpl. split; [auto|]. by intros [He|(a' & [=] & _)].
  - destruct (handler error) as [made' o] eqn:Hh. unfold events, outcome. simpl.
    rewrite elem_of_app. split; intros [He|He]; auto.
    + right. exists error. by rewrite Hh.
    + destruct He as (a' & [= <-] & He). rewrite Hh in He. auto.
Qed.

Lemma elem_of_events_event {A} (e e' : Event) (o : completion A) :
  e ∈ events (event e' o) ↔ e = e'.
Proof. unfold events, event. simpl. apply list_elem_of_singleton. Qed.

Lemma elem_of_events_swallow {A} (e : Event) (m : Flow A) :
  e ∈ events (swallow m) ↔ e ∈ events m.
Proof. done. Qed.

Lemma not_elem_of_events_quiet {A} (e : Event) (o : completion A) : e ∉ events (quiet o).
Proof. unfold events, quiet. simpl. apply not_elem_of_nil. Qed.

Lemma not_elem_of_events_pure {A} (e : Event) (a : A) : e ∉ events (pure a).
Proof. unfold events, pure. simpl. apply not_elem_of_nil. Qed.

Lemma elem_of_events_made {A} (e : Event) (r : Run A) :
  e ∈ events (made r) ↔ ∃ c, e = Made c ∧ c ∈ calls r.
Proof.
  unfold events, made, calls. simpl. rewrite list_elem_of_fmap.
  split; intros (c & ? & ?); eauto.
Qed.

Lemma outcome_andThen_throw {A B} (m : Flow A) (k : A → Flow B) error :
  outcome (andThen m k) = Throw error ↔
  outcome m = Throw error ∨ ∃ a, outcome m = Normal a ∧ outcome (k a) = Throw error.
Proof.
  destruct m as [made [a|error']]; unfold outcome; simpl.
  - destruct (k a) as [made' o] eqn:Hk. simpl. split.
    + intros ->. right. exists a. by rewrite Hk.
    + intros [[=]|(a' & [= <-] & Ho)]. by rewrite Hk in Ho.
  - split; [intros [= ->]; by left|]. by intros [[= ->]|(a & [=] & _)].
Qed.

Lemma outcome_attempt_throw {A} (body : Flow A) handler error :
  outcome (attempt body handler) = Throw error ↔
  ∃ error', outcome body = Throw error' ∧ outcome (handler error') = Throw error.
Proof.
  destruct body as [made [a|error']]; unfold outcome; simpl.
  - split; [done|]. by intros (? & [=] & _).
  - destruct (handler error') as [made' o] eqn:Hh. simpl. split.
    + intros ->. exists error'. by rewrite Hh.
    + intros (e & [= <-] & Ho). by rewrite Hh in Ho.
Qed.

Lemma completes_bind_throw {A B} (m : Run A) (k : A → Run B) error :
  completes (bind m k) = Throw error ↔
  completes m = Throw error ∨ ∃ a, completes m = Normal a ∧ completes (k a) = Throw error.
Proof.
  destruct m as [made [a|error']]; unfold completes; simpl.
  - destruct (k a) as [made' o] eqn:Hk. simpl. split.
    + intros ->. right. exists a. by rewrite Hk.
    + intros [[=]|(a' & [= <-] & Ho)]. by rewrite Hk in Ho.
  - split; [intros [= ->]; by left|]. by intros [[= ->]|(a & [=] & _)].
Qed.

Lemma completes_try_run_throw {A} (body : Run A) handler error :
  completes (try_run body handler) = Throw error ↔
  ∃ error', completes body = Throw error' ∧ completes (handler error') = Throw error.
Proof.
  destruct body as [made [a|error']]; unfold completes; simpl.
  - split; [done|]. by intros (? & [=] & _).
  - destruct (handler error') as [made' o] eqn:Hh. simpl. split.
    + intros ->. exists error'. by rewrite Hh.
    + intros (e & [= <-] & Ho). by rewrite Hh in Ho.
Qed.

End FlowFacts.

(** ** Partial updates *)

Section PartialUpdates.
Context `{JsNumber}.
Implicit Types (workspace : Workspace) (conversation : Conversation) (block : ToolUse).


(** X5: a partial update of any of the three tools uses neither the
    callbacks nor the mistake counter: it makes none of the calls listed in
    [Call], so it pushes no result, asks for no approval and reports no
    error. *)
Theorem partial_updates_make_no_call workspace conversation block :
  calls (madeCalls (ListFiles.handlePartial workspace conversation block)) = [] ∧
  calls (madeCalls (AttemptCompletion.handlePartial conversation block)) = [] ∧
  calls (madeCalls (NewTask.handlePartial conversation block)) = [].
Proof.
  split; [|split].
  - unfold ListFiles.handlePartial.
    by match goal with |- context [quiet ?q] => destruct q end.
  - unfold AttemptCompletion.handlePartial.
    destruct (negb _); [destruct (lastMessageIsCommandAsk conversation)|]; [done| |done].
    unfold andThen, event, swallow.
    destruct (say _ _ _ _ _) as [[]|]; [|done].
    destruct (captureTaskCompleted _) as [[]|]; [|done].
    by destruct (emitTaskCompleted _) as [[]|].
  - done.
Qed.

(** X6: the answer to the question of a partial update is not used, and
    its rejection is dropped: however [ask] completes, the update makes the
    same calls and completes the same way. *)
Theorem partial_updates_ignore_answer workspace conversation block ask' :
  ListFiles.handlePartial workspace (answering conversation ask') block
  = ListFiles.handlePartial workspace conversation block ∧
  AttemptCompletion.handlePartial (answering conversation ask') block
  = AttemptCompletion.handlePartial conversation block ∧
  NewTask.handlePartial (answering conversation ask') block
  = NewTask.handlePartial conversation block.
Proof.
  split; [|split].
  - unfold ListFiles.handlePartial.
    by match goal with |- context [quiet ?q] => destruct q end.
  - done.
  - done.
Qed.

(** X7: a partial [attempt_completion] update reports the task as
    completed exactly when a command has arrived, the last message is no
    command question and [say] has returned; with no command, or after a
    command question, nothing is reported. *)
Theorem attempt_completion_partial_reports_completion conversation block :
  CaptureTaskCompleted ∈ events (AttemptCompletion.handlePartial conversation block) ↔
  (∃ command, params block !! "command" = Some command ∧ command ≠ "") ∧
  lastMessageIsCommandAsk conversation = false ∧
  say conversation "completion_result"
      (VString (removeClosingTag "result" (params block !! "result") (partial block)))
      None (Some false) = Normal tt.
Proof.
  unfold AttemptCompletion.handlePartial.
  destruct (params block !! "command") as [command|] eqn:Hcommand.
  - change (default "" (Some command)) with command.
    destruct (String.eqb_spec command "") as [->|Hne]; cbn [negb].
    + rewrite elem_of_events_event. split; [done|]. by intros [(c & [= <-] & ?) _].
    + destruct (lastMessageIsCommandAsk conversation).
      * rewrite elem_of_events_swallow, elem_of_events_event.
        split; [done|]. by intros (_ & [=] & _).
      * rewrite elem_of_events_andThen, elem_of_events_event.
        split.
        -- intros [[=]|([] & Hsay & _)]. eauto.
        -- intros (_ & _ & Hsay). right. exists tt. split; [done|].
           rewrite elem_of_events_andThen, elem_of_events_event. by left.
  - change (default "" None) with "". cbn [String.eqb negb].
    rewrite elem_of_events_event. split; [done|]. by intros [(c & [=] & _) _].
Qed.

End PartialUpdates.

(** ** The tools, whole *)

Section WholeRuns.
Context `{JsNumber}.
Implicit Types (workspace : Workspace) (cline : Task) (callbacks : ToolCallbacks).

(** Unfolding a run along the ways its collaborators complete. *)
Ltac run_cases H :=
  unfold missingParam, bind, try_run, call, lift, ret, after, calls, completes in H;
  repeat (cbn [fst snd app negb andb orb] in H;
          match type of H with
          | context [match ?x with _ => _ end] =>
              lazymatch x with
              | context [match _ with _ => _ end] => fail
              | _ => destruct x eqn:?
              end
          end);
  cbn [fst snd app negb andb orb] in H.

(** Inverting the membership of a call in a run, keeping how each step
    completed. *)
Ltac in_calls H :=
  repeat match type of H with
         | _ ∈ calls (bind _ _) =>
             let a := fresh "a" in let Ha := fresh "Ha" in
             apply elem_of_calls_bind in H as [H|(a & Ha & H)]
         | _ ∈ calls (try_run _ _) =>
             let e := fresh "e" in let He := fresh "He" in
             apply elem_of_calls_try_run in H as [H|(e & He & H)]
         | _ ∈ calls (call _ _) => apply elem_of_calls_call in H; simplify_eq
         | _ ∈ calls (lift _) => by apply not_elem_of_calls_lift in H
         | _ ∈ calls (ret _) => by apply not_elem_of_calls_ret in H
         | _ ∈ calls (missingParam _ _ _ _) =>
             apply missingParam_calls in H as [H|[H|[H|[? H]]]]; simplify_eq
         | _ ∈ calls (if ?b then _ else _) => destruct b eqn:?; try discriminate
         | _ ∈ calls (match ?o with Some _ => _ | None => _ end) =>
             destruct o eqn:?; try discriminate
         end.

(** X8: [list_files] pushes a result in two cases only: the
    missing-parameter message when the path is falsy, and the formatted file
    list when the directory was listed and the user approved the message that
    shows this list. *)
Theorem list_files_pushes_only_when_approved workspace params cline callbacks text :
  PushToolResult text ∈ calls (ListFiles.execute workspace params cline callbacks) →
  (ToBoolean (get params "path") = false ∧
   sayAndCreateMissingParamError cline "list_files" "path" = Normal text) ∨
  (∃ absolutePath files didHitLimit state,
     path_resolve workspace (cwd workspace) (get params "path") = Normal absolutePath ∧
     listFiles workspace absolutePath
       (if ToBoolean (get params "recursive") then get params "recursive" else VBool false)
       200 = Normal (files, didHitLimit) ∧
     getShowRooIgnoredFiles workspace = Normal state ∧
     text = formatFilesList workspace absolutePath files didHitLimit (default false state) ∧
     askApproval callbacks "tool"
       (ListFiles.completeMessage workspace (get params "path") (get params "recursive")
          absolutePath text) = Normal true).
Proof.
  unfold ListFiles.execute, ListFilesTool.execute, ListFiles.listing.
  destruct (destructure params) as [source|e] eqn:Hsource.
  2: { intros Hin. run_cases Hin. by apply elem_of_nil in Hin. }
  apply destructure_normal in Hsource. subst source.
  intros Hin. run_cases Hin.
  all: rewrite ?elem_of_cons, ?elem_of_nil in Hin.
  all: try (intuition discriminate).
  all: destruct_or! Hin; simplify_eq.
  1,2: left; split; [by apply negb_true_iff|done].
  all: right; do 4 eexists; repeat split; try done.
  all: by match goal with Hb : negb _ = false |- _ => apply negb_false_iff in Hb as -> end.
Qed.
Lemma bind_lift_normal {A B} (a : A) (k : A → Run B) : bind (lift (Normal a)) k = k a.
Proof. unfold bind, lift. by destruct (k a). Qed.

(** What escapes a [try] block goes through its handler. *)
Lemma try_run_throws {A} (body : Run A) handler e :
  completes (try_run body handler) = Throw e →
  ∃ e', completes body = Throw e' ∧ completes (handler e') = Throw e ∧
        ∀ c, c ∈ calls (handler e') → c ∈ calls (try_run body handler).
Proof.
  destruct body as [made [a|e']]; unfold completes, calls; simpl; [done|].
  destruct (handler e') as [made' o] eqn:Hh. simpl. intros ->.
  exists e'. rewrite Hh. repeat split. intros c Hc. apply elem_of_app. by right.
Qed.

(** X9: no exception of the [try] block of [list_files] or [new_task]
    leaves [execute]: when [execute] throws, either destructuring parameters
    that are [null] or [undefined] has thrown, before the block, or the error
    callback was called, under the action ["listing files"] or ["creating new
    task"], and it is this callback that has thrown. *)
Theorem execute_throws_only_from_handleError params cline callbacks e :
  (∀ workspace,
     completes (ListFiles.execute workspace params cline callbacks) = Throw e →
     destructure params = Throw e ∨
     ∃ e', HandleError "listing files" e'
             ∈ calls (ListFiles.execute workspace params cline callbacks) ∧
           handleError callbacks "listing files" e' = Throw e) ∧
  (∀ providerRef requireTodos parseMarkdownChecklist getModeBySlug defaultModeSlug
     toolError t,
     completes (NewTaskTool.execute providerRef requireTodos parseMarkdownChecklist
                  getModeBySlug defaultModeSlug toolError t params cline callbacks)
     = Throw e →
     destructure params = Throw e ∨
     ∃ e', HandleError "creating new task" e'
             ∈ calls (NewTaskTool.execute providerRef requireTodos parseMarkdownChecklist
                        getModeBySlug defaultModeSlug toolError t params cline callbacks) ∧
           handleError callbacks "creating new task" e' = Throw e).
Proof.
  split.
  - intros workspace. unfold ListFiles.execute, ListFilesTool.execute.
    destruct (destructure params) as [source|e'] eqn:Hd; [|intros Ht; left; cbv in Ht; by injection Ht as ->].
    rewrite bind_lift_normal. intros Ht. right.
    apply try_run_throws in Ht as (e' & _ & Ht & Hin).
    exists e'. split; [|exact Ht]. apply Hin. apply list_elem_of_here.
  - intros providerRef requireTodos parseMarkdownChecklist getModeBySlug defaultModeSlug
      toolError t. unfold NewTaskTool.execute.
    destruct (destructure params) as [source|e'] eqn:Hd; [|intros Ht; left; cbv in Ht; by injection Ht as ->].
    rewrite bind_lift_normal. intros Ht. right.
    apply try_run_throws in Ht as (e' & _ & Ht & Hin).
    exists e'. split; [|exact Ht]. apply Hin. apply list_elem_of_here.
Qed.

(** The calls of the last stage of [new_task] are calls of the whole. *)
Lemma execute_delegates
    providerRef requireTodos parseMarkdownChecklist getModeBySlug defaultModeSlug
    toolError t params cline callbacks provider state todoItems unescaped targetMode c :
  providerRef = Some provider →
  ToBoolean (get params "mode") = true →
  ToBoolean (get params "message") = true →
  NewTaskTool.getState provider 0 = Normal state →
  requireTodos && is_undefined (get params "todos") = false →
  completes (NewTaskTool.parseTodos parseMarkdownChecklist toolError
               (get params "todos") cline callbacks) = Normal (Some todoItems) →
  NewTaskTool.unescapedMessage (get params "message") = Normal unescaped →
  getModeBySlug (get params "mode")
                (match state with
                 | Some st => NewTaskTool.customModes st
                 | None => VUndefined
                 end) = Some targetMode →
  c ∈ calls (NewTaskTool.delegate defaultModeSlug t provider (get params "message")
               (get params "mode") unescaped targetMode todoItems cline callbacks) →
  c ∈ calls (NewTaskTool.execute providerRef requireTodos parseMarkdownChecklist
               getModeBySlug defaultModeSlug toolError t params cline callbacks).
Proof.
  intros -> Hmode Hmessage Hstate Htodos Hparsed Hunescaped Htarget Hin.
  assert (destructure params = Normal params) as Hd by (by destruct params).
  unfold NewTaskTool.execute. rewrite Hd. unfold lift at 1. unfold bind at 1.
  rewrite Hmode, Hmessage, Hstate, Htodos. cbn [negb]. unfold lift at 1. unfold bind at 1.
  destruct (NewTaskTool.parseTodos _ _ _ _ _) as [made parsed].
  unfold completes in Hparsed. simpl in Hparsed. subst parsed.
  unfold bind at 1. rewrite Hunescaped, Htarget.
  unfold call at 1, lift at 1, bind at 2, bind at 1.
  destruct (NewTaskTool.delegate _ _ _ _ _ _ _ _ _ _) as [made' o].
  unfold calls in *. simpl in Hin. cbn [app].
  destruct o; simpl; rewrite ?elem_of_app, ?elem_of_cons; auto.
Qed.

(** The last stage pauses the mode before it starts the subtask. *)
Lemma delegate_saves_mode defaultModeSlug t provider message mode unescaped targetMode
    todoItems cline callbacks text items mode' :
  StartSubtask text items mode'
    ∈ calls (NewTaskTool.delegate defaultModeSlug t provider message mode unescaped
               targetMode todoItems cline callbacks) →
  ∃ state,
    NewTaskTool.getState provider 1 = Normal (Some state) ∧
    SetPausedModeSlug (default defaultModeSlug (NewTaskTool.mode state))
      ∈ calls (NewTaskTool.delegate defaultModeSlug t provider message mode unescaped
                 targetMode todoItems cline callbacks) ∧
    (enableCheckpoints cline = true →
     CheckpointSave
       ∈ calls (NewTaskTool.delegate defaultModeSlug t provider message mode unescaped
                  targetMode todoItems cline callbacks)).
Proof.
  unfold NewTaskTool.delegate, NewTaskTool.push. intros Hin. run_cases Hin.
  all: rewrite ?elem_of_cons, ?elem_of_nil in Hin; try (intuition discriminate).
  all: eexists; split; [done|].
  all: unfold bind, call, lift, ret, calls.
  all: repeat match goal with Heq : _ = _ |- _ => rewrite Heq end.
  all: cbn [fst snd app negb]; rewrite !elem_of_cons; split; [auto|intros [=]; auto].
Qed.

(** X12: [new_task] starts a subtask only when there is a provider, the
    mode exists and the user has approved a request that shows the message as
    it was written; the subtask itself receives the message with one level of
    escaping removed. *)
Theorem subtask_started_only_when_approved
    providerRef requireTodos parseMarkdownChecklist getModeBySlug defaultModeSlug
    toolError t params cline callbacks text todoItems mode :
  StartSubtask text todoItems mode
    ∈ calls (NewTaskTool.execute providerRef requireTodos parseMarkdownChecklist
               getModeBySlug defaultModeSlug toolError t params cline callbacks) →
  ∃ provider state targetMode message,
    providerRef = Some provider ∧
    NewTaskTool.getState provider 0 = Normal state ∧
    mode = get params "mode" ∧
    getModeBySlug mode (match state with
                        | Some st => NewTaskTool.customModes st
                        | None => VUndefined
                        end) = Some targetMode ∧
    get params "message" = VString message ∧
    text = NewTaskTool.unescape message ∧
    askApproval callbacks "tool"
      (stringifyObject [("tool", VString "newTask"); ("mode", VString targetMode);
                        ("content", VString message); ("todos", VArray todoItems)])
    = Normal true.
Proof.
  intros Hin. unfold NewTaskTool.execute in Hin.
  apply elem_of_calls_bind in Hin as [Hin|(source & Hsource & Hin)];
    [by apply not_elem_of_calls_lift in Hin|].
  apply destructure_normal in Hsource. subst source.
  unfold NewTaskTool.push in Hin. in_calls Hin.
  { unfold NewTaskTool.parseTodos, NewTaskTool.push in Hin. in_calls Hin. }
  unfold NewTaskTool.delegate, NewTaskTool.push in Hin. in_calls Hin.
  all: unfold completes, lift, call, NewTaskTool.unescapedMessage in *; simpl in *.
  all: destruct (get params "message") eqn:Hmessage; simplify_eq.
  all: match goal with Hb : negb ?b = false |- _ => apply negb_false_iff in Hb end.
  all: simplify_eq; eauto 15.
Qed.

(** X13: before [new_task] starts a subtask it records the mode to resume
    with: the current mode of the provider, or the default slug when that
    state names none; and it saves a checkpoint first when checkpoints are
    enabled. *)
Theorem subtask_started_after_mode_saved
    providerRef requireTodos parseMarkdownChecklist getModeBySlug defaultModeSlug
    toolError t params cline callbacks text todoItems mode :
  let run := NewTaskTool.execute providerRef requireTodos parseMarkdownChecklist
               getModeBySlug defaultModeSlug toolError t params cline callbacks in
  StartSubtask text todoItems mode ∈ calls run →
  ∃ provider state,
    providerRef = Some provider ∧
    NewTaskTool.getState provider 1 = Normal (Some state) ∧
    SetPausedModeSlug (default defaultModeSlug (NewTaskTool.mode state)) ∈ calls run ∧
    (enableCheckpoints cline = true → CheckpointSave ∈ calls run).
Proof.
  intros run Hin. unfold run, NewTaskTool.execute in Hin.
  apply elem_of_calls_bind in Hin as [Hin|(source & Hsource & Hin)];
    [by apply not_elem_of_calls_lift in Hin|].
  apply destructure_normal in Hsource. subst source.
  unfold NewTaskTool.push in Hin. in_calls Hin.
  { unfold NewTaskTool.parseTodos, NewTaskTool.push in Hin. in_calls Hin. }
  destruct (delegate_saves_mode _ _ _ _ _ _ _ _ _ _ _ _ _ Hin)
    as (state & Hstate & Hpaused & Hcheckpoint).
  repeat match goal with Hb : negb ?b = false |- _ => apply negb_false_iff in Hb end.
  unfold completes, lift, call in *; simpl in *.
  eexists _, state. repeat split; [done|..].
  - eapply execute_delegates; eauto.
  - intros Henabled. eapply execute_delegates; eauto.
Qed.

(** X14: the setting that requires todos only rejects a call whose
    [todos] is [undefined]: with any other value, the empty string included,
    the run is the one made without the setting; with [undefined], no
    approval is asked for. *)
Theorem requireTodos_rejects_only_undefined
    providerRef parseMarkdownChecklist getModeBySlug defaultModeSlug
    toolError t params cline callbacks :
  (get params "todos" ≠ VUndefined →
   NewTaskTool.execute providerRef true parseMarkdownChecklist getModeBySlug
     defaultModeSlug toolError t params cline callbacks
   = NewTaskTool.execute providerRef false parseMarkdownChecklist getModeBySlug
       defaultModeSlug toolError t params cline callbacks) ∧
  (get params "todos" = VUndefined →
   ∀ type message,
     AskApproval type message
       ∉ calls (NewTaskTool.execute providerRef true parseMarkdownChecklist getModeBySlug
                  defaultModeSlug toolError t params cline callbacks)).
Proof.
  split.
  - intros Htodos. unfold NewTaskTool.execute.
    destruct (destructure params) as [source|e] eqn:Hsource; [|done].
    apply destructure_normal in Hsource. subst source.
    unfold lift at 1 3. unfold bind at 1 7.
    assert (is_undefined (get params "todos") = false) as ->
      by (by destruct (get params "todos")).
    done.
  - intros Htodos type message Hin. unfold NewTaskTool.execute in Hin.
    apply elem_of_calls_bind in Hin as [Hin|(source & Hsource & Hin)];
      [by apply not_elem_of_calls_lift in Hin|].
    apply destructure_normal in Hsource. subst source.
    rewrite Htodos in Hin. cbn [andb is_undefined] in Hin.
    unfold NewTaskTool.push in Hin. in_calls Hin.
Qed.

(** X15: todos that do not parse as a checklist are reported as a tool
    result and counted as a mistake; the error callback is not called, no
    approval is asked for and no subtask is started. *)
Theorem invalid_todos_reported
    providerRef requireTodos parseMarkdownChecklist getModeBySlug defaultModeSlug
    toolError t params cline callbacks provider state e :
  providerRef = Some provider →
  ToBoolean (get params "mode") = true →
  ToBoolean (get params "message") = true →
  NewTaskTool.getState provider 0 = Normal state →
  ToBoolean (get params "todos") = true →
  parseMarkdownChecklist (get params "todos") = Throw e →
  recordToolError cline "new_task" = Normal tt →
  let refusal := toolError "Invalid todos format: must be a markdown checklist" in
  pushToolResult callbacks refusal = Normal tt →
  NewTaskTool.execute providerRef requireTodos parseMarkdownChecklist getModeBySlug
    defaultModeSlug toolError t params cline callbacks
  = ([MistakeCountIncrement; RecordToolError "new_task"; PushToolResult refusal],
     Normal tt).
Proof.
  intros -> Hmode Hmessage Hstate Htodos Hparse Hrecord refusal Hpush.
  assert (destructure params = Normal params) as Hd by (by destruct params).
  assert (is_undefined (get params "todos") = false) as Hdefined
    by (by destruct (get params "todos")).
  unfold NewTaskTool.execute, NewTaskTool.parseTodos, NewTaskTool.push.
  rewrite Hd. unfold lift at 1. unfold bind at 1.
  rewrite Hmode, Hmessage, Hstate, Hdefined, Htodos, Hparse, andb_false_r.
  unfold bind, try_run, call, lift, ret. fold refusal. by rewrite Hrecord, Hpush.
Qed.

(** X16: the run of [new_task] when every check passes and the user
    approves: the counter is reset, the approval asked, a checkpoint saved
    if enabled, the mode paused, the subtask started with the un-escaped
    message, and one result pushed: the success message, which names the
    mode, the un-escaped message and the number of todo items, or the policy
    message when no task was created. *)
Theorem new_task_delegates
    providerRef requireTodos parseMarkdownChecklist getModeBySlug defaultModeSlug
    toolError t params cline callbacks provider state state' message todoItems
    targetMode started :
  providerRef = Some provider →
  ToBoolean (get params "mode") = true →
  get params "message" = VString message → message ≠ "" →
  NewTaskTool.getState provider 0 = Normal state →
  requireTodos && is_undefined (get params "todos") = false →
  (if ToBoolean (get params "todos") then parseMarkdownChecklist (get params "todos")
   else Normal []) = Normal todoItems →
  getModeBySlug (get params "mode")
                (match state with
                 | Some st => NewTaskTool.customModes st
                 | None => VUndefined
                 end) = Some targetMode →
  let toolMessage :=
    stringifyObject [("tool", VString "newTask"); ("mode", VString targetMode);
                     ("content", VString message); ("todos", VArray todoItems)] in
  askApproval callbacks "tool" toolMessage = Normal true →
  NewTaskTool.getState provider 1 = Normal (Some state') →
  startSubtask cline (NewTaskTool.unescape message) todoItems (get params "mode")
  = Normal started →
  let pushed :=
    if started then
      "Successfully created new task in " +:+ targetMode +:+ " mode with message: "
      +:+ NewTaskTool.unescape message +:+ " and " +:+ pretty (length todoItems)
      +:+ " todo items"
    else t "tools:newTask.errors.policy_restriction" in
  pushToolResult callbacks pushed = Normal tt →
  NewTaskTool.execute providerRef requireTodos parseMarkdownChecklist getModeBySlug
    defaultModeSlug toolError t params cline callbacks
  = ((MistakeCountReset :: AskApproval "tool" toolMessage
      :: (if enableCheckpoints cline then [CheckpointSave] else [])
      ++ [SetPausedModeSlug (default defaultModeSlug (NewTaskTool.mode state'));
          StartSubtask (NewTaskTool.unescape message) todoItems (get params "mode");
          PushToolResult pushed])%list,
     Normal tt).
Proof.
  intros -> Hmode Hmessage Hne Hstate Hrequire Htodos Htarget toolMessage Hask Hstate'
    Hstart pushed Hpush.
  assert (destructure params = Normal params) as Hd by (by destruct params).
  apply eqb_false in Hne.
  assert (NewTaskTool.parseTodos parseMarkdownChecklist toolError (get params "todos")
            cline callbacks = ([], Normal (Some todoItems))) as Hparsed.
  { unfold NewTaskTool.parseTodos. destruct (ToBoolean (get params "todos")).
    - by rewrite Htodos.
    - by injection Htodos as <-. }
  unfold NewTaskTool.execute, NewTaskTool.delegate, NewTaskTool.push,
    NewTaskTool.unescapedMessage.
  fold toolMessage.
  rewrite Hd. cbn [bind try_run call lift ret fst snd app negb].
  rewrite Hmode, Hmessage. cbn [ToBoolean]. rewrite Hne.
  cbn [bind try_run call lift ret fst snd app negb].
  rewrite Hstate, Hrequire. cbn [bind try_run call lift ret fst snd app negb].
  rewrite Hparsed, Htarget. cbn [bind try_run call lift ret fst snd app negb].
  unfold toolMessage, stringifyObject in Hask.
  rewrite Hask. cbn [bind try_run call lift ret fst snd app negb].
  rewrite Hstate', Hstart.
  destruct (enableCheckpoints cline), started;
    cbn [bind try_run call lift ret fst snd app negb]; fold pushed; by rewrite Hpush.
Qed.

(** Parsing the todos counts a mistake only when it gives no items. *)
Lemma parseTodos_counts parseMarkdownChecklist toolError todos cline callbacks todoItems :
  MistakeCountIncrement
    ∈ calls (NewTaskTool.parseTodos parseMarkdownChecklist toolError todos cline callbacks) →
  completes (NewTaskTool.parseTodos parseMarkdownChecklist toolError todos cline callbacks)
  ≠ Normal (Some todoItems).
Proof.
  intros Hin Hparsed. pose proof (conj Hin Hparsed) as Hboth. clear Hin Hparsed.
  unfold NewTaskTool.parseTodos, NewTaskTool.push in Hboth. run_cases Hboth.
  all: destruct Hboth as [Hin Hparsed]; try discriminate.
  all: rewrite ?elem_of_cons, ?elem_of_nil in Hin; intuition discriminate.
Qed.

(** X11: a run of [list_files] or [new_task] never both counts a mistake
    and resets the mistake counter.  [list_files] does one of the two
    whenever its parameters can be destructured; [new_task] may do neither:
    when the provider reference is lost, the counter is left as it is. *)
Theorem mistake_never_counted_and_reset params cline callbacks :
  (∀ workspace,
     MistakeCountReset ∈ calls (ListFiles.execute workspace params cline callbacks) →
     MistakeCountIncrement ∉ calls (ListFiles.execute workspace params cline callbacks)) ∧
  (∀ providerRef requireTodos parseMarkdownChecklist getModeBySlug defaultModeSlug
     toolError t,
     MistakeCountReset
       ∈ calls (NewTaskTool.execute providerRef requireTodos parseMarkdownChecklist
                  getModeBySlug defaultModeSlug toolError t params cline callbacks) →
     MistakeCountIncrement
       ∉ calls (NewTaskTool.execute providerRef requireTodos parseMarkdownChecklist
                  getModeBySlug defaultModeSlug toolError t params cline callbacks)) ∧
  (∀ workspace source,
     destructure params = Normal source →
     MistakeCountIncrement ∈ calls (ListFiles.execute workspace params cline callbacks) ∨
     MistakeCountReset ∈ calls (ListFiles.execute workspace params cline callbacks)) ∧
  (∀ requireTodos parseMarkdownChecklist getModeBySlug defaultModeSlug toolError t,
     ToBoolean (get params "mode") = true →
     ToBoolean (get params "message") = true →
     (MistakeCountIncrement
        ∉ calls (NewTaskTool.execute None requireTodos parseMarkdownChecklist
                   getModeBySlug defaultModeSlug toolError t params cline callbacks)) ∧
     (MistakeCountReset
        ∉ calls (NewTaskTool.execute None requireTodos parseMarkdownChecklist
                   getModeBySlug defaultModeSlug toolError t params cline callbacks))).
Proof.
  split; [|split; [|split]].
  - intros workspace Hreset Hcount. pose proof (conj Hreset Hcount) as Hboth.
    clear Hreset Hcount.
    unfold ListFiles.execute, ListFilesTool.execute, ListFiles.listing in Hboth.
    run_cases Hboth.
    all: rewrite ?elem_of_cons, ?elem_of_nil in Hboth; intuition discriminate.
  - intros providerRef requireTodos parseMarkdownChecklist getModeBySlug defaultModeSlug
      toolError t Hreset Hcount.
    unfold NewTaskTool.execute in Hreset, Hcount.
    apply elem_of_calls_bind in Hreset as [Hin|(source & Hsource & Hreset)];
      [by apply not_elem_of_calls_lift in Hin|].
    apply elem_of_calls_bind in Hcount as [Hin|(source' & Hsource' & Hcount)];
      [by apply not_elem_of_calls_lift in Hin|].
    apply destructure_normal in Hsource, Hsource'. subst source source'.
    unfold NewTaskTool.push in Hreset, Hcount.
    in_calls Hreset.
    { unfold NewTaskTool.parseTodos, NewTaskTool.push in Hreset. in_calls Hreset. }
    2: { unfold NewTaskTool.delegate, NewTaskTool.push in Hreset. in_calls Hreset. }
    in_calls Hcount; simplify_eq.
    + by eapply parseTodos_counts.
    + unfold NewTaskTool.delegate, NewTaskTool.push in Hcount. in_calls Hcount.
  - intros workspace source Hsource.
    unfold ListFiles.execute, ListFilesTool.execute. rewrite Hsource, bind_lift_normal.
    destruct (negb _).
    + left. unfold missingParam, bind, call, try_run, calls.
      repeat case_match; simplify_eq/=; apply list_elem_of_here.
    + right. unfold bind, call, try_run, calls.
      repeat case_match; simplify_eq/=; apply list_elem_of_here.
  - intros requireTodos parseMarkdownChecklist getModeBySlug defaultModeSlug toolError t
      Hmode Hmessage.
    assert (destructure params = Normal params) as Hd by (by destruct params).
    unfold NewTaskTool.execute, NewTaskTool.push. rewrite Hd, bind_lift_normal.
    rewrite Hmode, Hmessage. cbn [negb]. unfold try_run, call, calls.
    destruct (pushToolResult callbacks _); cbn [fst app];
      rewrite ?elem_of_cons, ?elem_of_nil; split; intuition discriminate.
Qed.

End WholeRuns.

(** ** [attempt_completion], whole *)

Section Completion.
Context `{JsNumber}.
Variable preventCompletionWithOpenTodos : bool.
Variable toolError : string → string.
Variable imageBlocks : option (list string) → list ContentBlock.
Variable conversation : Conversation.
Implicit Types (cline : Task) (callbacks : AttemptCompletionCallbacks).

Abbreviation execute :=
  (AttemptCompletion.execute preventCompletionWithOpenTodos toolError imageBlocks
     conversation).

(** Unfolding a flow along the ways its collaborators complete. *)
Ltac flow_cases H :=
  unfold AttemptCompletion.execute, AttemptCompletion.completing,
    AttemptCompletion.announcing,
    missingParam, bind, try_run, call, lift, ret, after,
    andThen, attempt, event, quiet, pure, made, swallow in H;
  repeat (cbn [fst snd app negb andb orb map] in H;
          match type of H with
          | context [match ?x with _ => _ end] =>
              lazymatch x with
              | context [match _ with _ => _ end] => fail
              | _ => destruct x eqn:?
              end
          end);
  cbn [fst snd app negb andb orb map] in H.

Ltac explicit :=
  unfold events, outcome in *; cbn [fst snd] in *;
  rewrite ?elem_of_cons, ?elem_of_nil in *.

Ltac tidy :=
  repeat match goal with
         | Hd : destructure _ = Normal _ |- _ => apply destructure_normal in Hd; subst
         | Hb : negb _ = false |- _ => apply negb_false_iff in Hb
         | Hb : negb _ = true |- _ => apply negb_true_iff in Hb
         | Hb : String.eqb _ _ = true |- _ => apply eqb_true in Hb
         | Hb : String.eqb _ _ = false |- _ => apply eqb_false in Hb
         end;
  subst.

Ltac absent := intros ?; rewrite ?elem_of_cons, ?elem_of_nil; intuition discriminate.

(** X17: the result of a subtask goes to the parent task: it is handed
    over only in a task that has a parent and after the approval to finish,
    it is the result as received, and such a run pushes no tool result. *)
Theorem subtask_result_goes_to_parent params cline callbacks v :
  FinishSubTask v ∈ events (execute params cline callbacks) →
  parentTask conversation = true ∧
  askFinishSubTaskApproval callbacks = Normal true ∧
  v = get params "result" ∧
  ∀ text, Made (PushToolResult text) ∉ events (execute params cline callbacks).
Proof.
  remember (execute params cline callbacks) as flow eqn:Hflow.
  intros Hin. flow_cases Hflow.
  all: subst flow; explicit.
  all: try (exfalso; intuition discriminate).
  all: tidy; destruct_or! Hin; simplify_eq.
  all: repeat split; try done; absent.
Qed.

(** X18: feedback of the user goes to the user message, not to the tool
    result: content is appended only in a task without parent whose user
    answered the completion with something else than the yes button; it is
    the tool description followed by [Result:], then the feedback text with
    the image blocks; and such a run pushes no tool result. *)
Theorem feedback_goes_to_user_message params cline callbacks blocks :
  PushUserMessageContent blocks ∈ events (execute params cline callbacks) →
  parentTask conversation = false ∧
  (∃ answer description,
     ask conversation "completion_result" "" (Some false) = Normal answer ∧
     response answer ≠ "yesButtonClicked" ∧
     toolDescription callbacks = Normal description ∧
     (blocks = [TextBlock (description +:+ " Result:")] ∨
      blocks
      = TextBlock ("The user has provided feedback on the results. Consider their input to continue the task, and then attempt completion again."
                   +:+ AttemptCompletion.newline +:+ "<feedback>"
                   +:+ AttemptCompletion.newline
                   +:+ AttemptCompletion.interpolate (text answer)
                   +:+ AttemptCompletion.newline +:+ "</feedback>")
        :: imageBlocks (images answer))) ∧
  ∀ text, Made (PushToolResult text) ∉ events (execute params cline callbacks).
Proof.
  remember (execute params cline callbacks) as flow eqn:Hflow.
  intros Hin. flow_cases Hflow.
  all: subst flow; explicit.
  all: try (exfalso; intuition discriminate).
  all: tidy; destruct_or! Hin; simplify_eq.
  all: split; [done|]; split; [eauto 10|absent].
Qed.

(** X19: [attempt_completion] pushes a tool result in three cases only:
    the refusal while todos are open, the missing-parameter message for a
    falsy result, and the empty result when the user of a task without
    parent has answered with the yes button. *)
Theorem completion_pushes_result params cline callbacks pushed :
  Made (PushToolResult pushed) ∈ events (execute params cline callbacks) →
  (preventCompletionWithOpenTodos && hasIncompleteTodos cline = true ∧
   pushed = toolError "Cannot complete task while there are incomplete todos. Please finish all todos before attempting completion.") ∨
  (ToBoolean (get params "result") = false ∧
   sayAndCreateMissingParamError cline "attempt_completion" "result" = Normal pushed) ∨
  (pushed = "" ∧ parentTask conversation = false ∧
   ∃ answer, ask conversation "completion_result" "" (Some false) = Normal answer ∧
             response answer = "yesButtonClicked").
Proof.
  remember (execute params cline callbacks) as flow eqn:Hflow.
  intros Hin. flow_cases Hflow.
  all: subst flow; explicit.
  all: try (exfalso; intuition discriminate).
  all: tidy; destruct_or! Hin; simplify_eq.
  all: try (by left).
  all: try (right; left; split; [done|congruence]).
  all: right; right; eauto.
Qed.

(** X20: the completion is reported before the user has answered: whenever
    the question of the completion, or the approval to finish a subtask, is
    asked, the result was said, and telemetry and the task event were sent,
    just before. *)
Theorem completion_reported_before_answer params cline callbacks question :
  question = Ask "completion_result" "" (Some false) ∨
  question = AskFinishSubTaskApproval →
  question ∈ events (execute params cline callbacks) →
  ∃ later,
    events (execute params cline callbacks)
    = Made MistakeCountReset
      :: Say "completion_result" (get params "result") None (Some false)
      :: CaptureTaskCompleted :: EmitTaskCompleted :: question :: later.
Proof.
  remember (execute params cline callbacks) as flow eqn:Hflow.
  intros Hq Hin. flow_cases Hflow.
  all: subst flow; explicit.
  all: try (exfalso; destruct Hq; subst; intuition discriminate).
  all: tidy; destruct Hq; subst; destruct_or! Hin; simplify_eq.
  all: by eexists.
Qed.

(** X10: [attempt_completion] throws only what the error callback throws,
    the [TypeError] of destructuring parameters that are [null] or
    [undefined], and what [recordToolError] or [pushToolResult] throw in the
    refusal for open todos, which is made outside the [try] block. *)
Theorem completion_throws params cline callbacks e :
  outcome (execute params cline callbacks) = Throw e →
  destructure params = Throw e ∨
  (∃ e', handleError (shared callbacks) "inspecting site" e' = Throw e) ∨
  (preventCompletionWithOpenTodos && hasIncompleteTodos cline = true ∧
   (recordToolError cline "attempt_completion" = Throw e ∨
    pushToolResult (shared callbacks)
      (toolError "Cannot complete task while there are incomplete todos. Please finish all todos before attempting completion.")
    = Throw e)).
Proof.
  unfold AttemptCompletion.execute.
  intros [Hd|(source & _ & Ht)]%outcome_andThen_throw; [by left|].
  right. destruct (_ && _) eqn:Hrefuse.
  - right. split; [done|]. clear Hrefuse.
    unfold made, outcome, bind, call in Ht. cbn [fst snd] in Ht.
    destruct (recordToolError cline "attempt_completion"); [|by left].
    right. by destruct (pushToolResult _ _).
  - left. apply outcome_attempt_throw in Ht as (e' & _ & Ht). by exists e'.
Qed.

(** The calls that a flow makes, stage by stage. *)
Lemma madeCalls_made {A} (r : Run A) : madeCalls (made r) = r.
Proof.
  destruct r as [l o]. unfold madeCalls, made. cbn [fst snd]. f_equal.
  induction l as [|c l IH]; [done|]. cbn. by rewrite IH.
Qed.

Lemma madeCalls_andThen {A B} (m : Flow A) (k : A → Flow B) :
  madeCalls (andThen m k) = bind (madeCalls m) (λ a, madeCalls (k a)).
Proof.
  destruct m as [l [a|e]]; unfold madeCalls, andThen, bind; cbn [fst snd]; [|done].
  destruct (k a) as [l' o]. cbn [fst snd]. by rewrite omap_app.
Qed.

Lemma madeCalls_attempt {A} (body : Flow A) handler :
  madeCalls (attempt body handler) = try_run (madeCalls body) (λ e, madeCalls (handler e)).
Proof.
  destruct body as [l [a|e]]; unfold madeCalls, attempt, try_run; cbn [fst snd]; [done|].
  destruct (handler e) as [l' o]. cbn [fst snd]. by rewrite omap_app.
Qed.

(** Seen through the calls on the callbacks, the task and the counter,
    the whole [execute] is the [execute] of [AttemptCompletionTool] with
    the announcing stage in the place of [completing]. *)
Lemma execute_calls params cline callbacks :
  madeCalls (execute params cline callbacks)
  = AttemptCompletionTool.execute preventCompletionWithOpenTodos toolError
      (λ result cline' _,
         madeCalls (AttemptCompletion.announcing imageBlocks conversation result cline'
                      callbacks))
      params cline (shared callbacks).
Proof.
  unfold AttemptCompletion.execute, AttemptCompletionTool.execute.
  rewrite madeCalls_andThen.
  destruct (destructure params) as [source|e]; [|done].
  change (madeCalls (quiet (Normal source))) with (lift (H := H) (Normal source)).
  cbn [bind lift]. destruct (_ && _).
  - by rewrite madeCalls_made.
  - rewrite madeCalls_attempt. destruct (negb _).
    + by rewrite madeCalls_made.
    + unfold AttemptCompletion.completing. by rewrite madeCalls_andThen.
Qed.

End Completion.

(** ** The parser: what the legacy parameters hold *)

Section DecodedObjects.
Context `{JsNumber}.
#[local] Arguments expect : simpl never.
#[local] Arguments lex_number : simpl never.
#[local] Arguments lex_string : simpl never.
Implicit Types (props : list (string * JsVal)).

Lemma own_property_None key props : own_property key props = None ↔ key ∉ props.*1.
Proof.
  induction props as [|[k v] props IH]; simpl.
  - split; [intros _; apply not_elem_of_nil|done].
  - rewrite not_elem_of_cons. destruct (String.eqb_spec k key) as [->|Hne].
    + split; [done|]. by intros [? _].
    + rewrite IH. split; [by intros ?; split|by intros [_ ?]].
Qed.

Lemma replace_property_keys k v props : (replace_property k v props).*1 = props.*1.
Proof.
  induction props as [|[k' v'] props IH]; [done|]. cbn [replace_property].
  destruct (String.eqb_spec k' k) as [->|Hne]; [done|]. by rewrite !fmap_cons, IH.
Qed.

Lemma insert_index_keys i k v props : (insert_index i k v props).*1 ≡ₚ k :: props.*1.
Proof.
  induction props as [|[k' v'] props IH]; [done|]. cbn [insert_index].
  destruct (array_index k') as [j|]; [|done].
  destruct (j <? i)%N; [|done]. rewrite !fmap_cons, IH. apply Permutation_swap.
Qed.

(** [CreateDataProperty] keeps the keys of an object distinct. *)
Lemma define_property_NoDup props kv :
  NoDup props.*1 → NoDup (define_property props kv).*1.
Proof.
  intros Hprops. destruct kv as [k v]. unfold define_property, has_own.
  case_bool_decide as Hown.
  - by rewrite replace_property_keys.
  - assert (k ∉ props.*1) as Hk.
    { apply own_property_None. by destruct (own_property k props); [destruct Hown|]. }
    destruct (array_index k) as [i|].
    + rewrite insert_index_keys. by apply NoDup_cons.
    + rewrite fmap_app. apply NoDup_app. split; [done|]. split.
      * intros x Hx. simpl. rewrite list_elem_of_singleton. by intros ->.
      * apply NoDup_singleton.
Qed.

Lemma fold_define_property_NoDup members props :
  NoDup props.*1 → NoDup (fold_left define_property members props).*1.
Proof.
  revert props. induction members as [|kv members IH]; intros props Hprops; [done|].
  simpl. by apply IH, define_property_NoDup.
Qed.

Lemma parse_value_NoDup fuel s props rest :
  parse_value fuel s = Some (VObject props, rest) → NoDup props.*1.
Proof.
  destruct fuel as [|fuel]; simpl; [discriminate|].
  destruct (skip_ws s) as [|c r]; [discriminate|].
  repeat case_match; intros Hv; simplify_option_eq;
    repeat match goal with p : (_ * _)%type |- _ => destruct p end; simplify_eq.
  - apply NoDup_nil_2.
  - apply fold_define_property_NoDup, NoDup_nil_2.
Qed.

(** An object decoded by [JSON.parse] has each key once. *)
Lemma JSON_parse_NoDup text props :
  JSON_parse text = Normal (VObject props) → NoDup props.*1.
Proof.
  unfold JSON_parse.
  destruct (parse_value _ text) as [[v rest]|] eqn:Hp; [|discriminate].
  destruct (String.eqb _ _); [|discriminate].
  intros [= ->]. eapply parse_value_NoDup, Hp.
Qed.

End DecodedObjects.

Section LegacyParams.
Context `{JsNumber}.
Variable toolNames : list string.
Variable toolParamNames : list string.
Implicit Types (props : list (string * JsVal)) (params : gmap string string).

Import NativeToolCallParser.

Abbreviation parse := (parseToolCall toolNames toolParamNames).
Abbreviation parse0 := (UntypedNativeToolCallParser.parseToolCall toolNames toolParamNames).

Lemma synthesize_lookup_ne toolName params k v key :
  k ≠ key → synthesize toolParamNames toolName params (k, v) !! key = params !! key.
Proof.
  intros Hne. unfold synthesize.
  destruct (_ && _); [done|]. destruct (negb _); [done|].
  destruct (stringValue v); [|done]. by apply assign_lookup_ne.
Qed.

Lemma synthesize_lookup toolName params key v :
  key ∈ toolParamNames → key ≠ "__proto__" →
  ¬ (toolName = "read_file" ∧ key = "files") →
  synthesize toolParamNames toolName params (key, v) !! key
  = match stringValue v with Some s => Some s | None => params !! key end.
Proof.
  intros Hin Hproto Hfiles. unfold synthesize.
  destruct (String.eqb_spec toolName "read_file") as [Hname|_];
    [destruct (String.eqb_spec key "files") as [Hkey|_]; [by destruct Hfiles|]|];
    cbn [andb]; apply includes_true in Hin; rewrite Hin; cbn [negb];
    (destruct (stringValue v); [|done]); unfold assign;
    apply eqb_false in Hproto; rewrite Hproto; apply lookup_insert_eq.
Qed.

(** After the loop over an object with distinct keys, a key that the loop
    writes under holds the text of its value. *)
Lemma loop_lookup toolName props params key :
  NoDup props.*1 →
  key ∈ toolParamNames → key ≠ "__proto__" →
  ¬ (toolName = "read_file" ∧ key = "files") →
  fold_left (synthesize toolParamNames toolName) props params !! key
  = match own_property key props ≫= stringValue with
    | Some s => Some s
    | None => params !! key
    end.
Proof.
  intros Hprops Hin Hproto Hfiles. revert params.
  induction props as [|[k v] props IH]; intros params; [done|].
  rewrite fmap_cons in Hprops. apply NoDup_cons in Hprops as [Hk Hprops].
  cbn [fst] in Hk. cbn [fold_left own_property].
  rewrite IH by done. destruct (String.eqb_spec k key) as [->|Hne].
  - apply own_property_None in Hk. rewrite Hk. cbn.
    by apply synthesize_lookup.
  - by rewrite synthesize_lookup_ne.
Qed.

(** The legacy parameters of a call whose arguments decode to an object. *)
Lemma parsed_params toolCall props r key :
  JSON_parse (ToolCall.arguments toolCall) = Normal (VObject props) →
  parse toolCall = Normal (Some r) →
  key ∈ toolParamNames → key ≠ "__proto__" →
  ¬ (ToolCall.name toolCall = "read_file" ∧ key = "files") →
  params r !! key = own_property key props ≫= stringValue.
Proof.
  intros Hargs Hparse Hin Hproto Hfiles.
  destruct (parse_inv _ _ _ _ Hparse)
    as (_ & args & entries & native & Hargs' & Hentries & _ & ->).
  rewrite Hargs in Hargs'. injection Hargs' as <-. injection Hentries as <-.
  cbn [params]. rewrite loop_lookup by eauto using JSON_parse_NoDup.
  rewrite lookup_empty. by destruct (_ ≫= _).
Qed.

(** X21: when the arguments decode to an object, every recognised key of
    it is in the legacy parameters with the text of its value: the value
    itself when it is a string, its JSON text otherwise; a recognised key
    that the object does not have is absent.  (The key [files] of
    [read_file] and the key [__proto__] are the exceptions.) *)
Theorem params_hold_recognised_arguments toolCall props r key :
  JSON_parse (ToolCall.arguments toolCall) = Normal (VObject props) →
  parse toolCall = Normal (Some r) →
  key ∈ toolParamNames → key ≠ "__proto__" →
  ¬ (ToolCall.name toolCall = "read_file" ∧ key = "files") →
  params r !! key = own_property key props ≫= stringValue ∧
  (∀ s, own_property key props = Some (VString s) → params r !! key = Some s) ∧
  (own_property key props = None → params r !! key = None).
Proof.
  intros Hargs Hparse Hin Hproto Hfiles.
  pose proof (parsed_params _ _ _ _ Hargs Hparse Hin Hproto Hfiles) as Hkey.
  split; [done|]. split.
  - intros s Hs. by rewrite Hkey, Hs.
  - intros Hnone. by rewrite Hkey, Hnone.
Qed.

Lemma synthesize_revisions toolName (typed untyped : gmap string string) entry :
  typed = (if String.eqb toolName "read_file" then delete "files" untyped else untyped) →
  synthesize toolParamNames toolName typed entry
  = if String.eqb toolName "read_file"
    then delete "files" (UntypedNativeToolCallParser.synthesize toolParamNames untyped entry)
    else UntypedNativeToolCallParser.synthesize toolParamNames untyped entry.
Proof.
  intros ->. destruct entry as [k v].
  unfold synthesize, UntypedNativeToolCallParser.synthesize.
  destruct (String.eqb toolName "read_file"); [|done]. cbn [andb].
  destruct (String.eqb_spec k "files") as [->|Hne].
  - destruct (negb _); [done|]. destruct (stringValue v); [|done].
    unfold assign. cbn. by rewrite delete_insert_eq.
  - destruct (negb _); [done|]. destruct (stringValue v); [|done].
    unfold assign. destruct (String.eqb k "__proto__"); [done|].
    by rewrite delete_insert_ne.
Qed.

Lemma loop_revisions toolName entries (typed untyped : gmap string string) :
  typed = (if String.eqb toolName "read_file" then delete "files" untyped else untyped) →
  fold_left (synthesize toolParamNames toolName) entries typed
  = if String.eqb toolName "read_file"
    then delete "files"
           (fold_left (UntypedNativeToolCallParser.synthesize toolParamNames) entries untyped)
    else fold_left (UntypedNativeToolCallParser.synthesize toolParamNames) entries untyped.
Proof.
  revert typed untyped.
  induction entries as [|entry entries IH]; intros typed untyped Hacc; [done|].
  cbn [fold_left]. apply IH. by apply synthesize_revisions.
Qed.

(** X22: the two revisions of the parser agree on the legacy parameters:
    a call that the typed revision accepts is accepted by the untyped one,
    with the same name and the same parameters, except that the typed
    revision leaves out [files] for [read_file]. *)
Theorem revisions_agree_on_params toolCall r :
  parse toolCall = Normal (Some r) →
  ∃ r0, parse0 toolCall = Normal (Some r0) ∧
        name r0 = name r ∧ partial r0 = partial r ∧
        params r = if String.eqb (ToolCall.name toolCall) "read_file"
                   then delete "files" (params r0)
                   else params r0.
Proof.
  intros Hparse.
  destruct (parse_inv _ _ _ _ Hparse)
    as (Hin & args & entries & native & Hargs & Hentries & _ & ->).
  eexists. split; [by eapply parse0_accepts|].
  cbn [name partial params]. repeat split.
  apply loop_revisions. rewrite delete_empty. by destruct (String.eqb _ _).
Qed.

(** X23: for a tool that the conversion to typed arguments does not know,
    the parser leaves [nativeArgs] undefined, and [handle] resolves the
    parameters of the returned invocation through [parseLegacy]. *)
Theorem unconverted_tools_take_legacy_path toolCall r :
  parse toolCall = Normal (Some r) →
  ToolCall.name toolCall
    ∉ ["read_file"; "attempt_completion"; "execute_command"; "insert_content";
       "apply_diff"; "ask_followup_question"; "browser_action"; "codebase_search";
       "fetch_instructions"] →
  nativeArgs r = None ∧
  ∀ (tool : BaseTool.t Task) cline callbacks,
    ∃ rest, calls (BaseTool.handle tool cline r callbacks) = ParseLegacy (params r) :: rest.
Proof.
  intros Hparse Hname.
  destruct (parse_inv _ _ _ _ Hparse)
    as (_ & args & entries & native & _ & _ & Hnative & ->).
  assert (native = None) as ->.
  { unfold buildNativeArgs in Hnative.
    repeat match type of Hnative with
           | context [String.eqb ?a ?b] =>
               destruct (String.eqb_spec a b) as [Heq|_];
               [exfalso; apply Hname; rewrite Heq; set_solver|]
           end.
    by injection Hnative. }
  split; [done|]. intros tool cline callbacks. by apply handle_legacy_first.
Qed.

(** X24: a native [list_files] call reaches the tool through the legacy
    parameters and arrives as sent: the string [path] and the boolean
    [recursive] of the decoded arguments are the typed parameters that
    [parseLegacy] builds from the invocation the parser returns. *)
Theorem list_files_native_arguments_arrive toolCall props p b :
  ToolCall.name toolCall = "list_files" →
  "list_files" ∈ toolNames → "path" ∈ toolParamNames → "recursive" ∈ toolParamNames →
  JSON_parse (ToolCall.arguments toolCall) = Normal (VObject props) →
  own_property "path" props = Some (VString p) →
  own_property "recursive" props = Some (VBool b) →
  ∃ r, parse toolCall = Normal (Some r) ∧ nativeArgs r = None ∧
       ListFilesTool.parseLegacy (params r)
       = Normal (VObject [("path", VString p); ("recursive", VBool b)]).
Proof.
  intros Hname Htool Hpath Hrecursive Hargs Hp Hb.
  assert (∃ r, parse toolCall = Normal (Some r) ∧ nativeArgs r = None) as (r & Hparse & Hn).
  { eexists. split.
    - eapply parse_accepts; [by rewrite Hname|done|done|].
      rewrite Hname. reflexivity.
    - done. }
  exists r. split; [done|]. split; [done|].
  assert (params r !! "path" = Some p) as Hpp.
  { rewrite (parsed_params _ _ _ _ Hargs Hparse); [by rewrite Hp|done|done|].
    by intros [_ [=]]. }
  assert (params r !! "recursive" = Some (if b then "true" else "false")) as Hpr.
  { rewrite (parsed_params _ _ _ _ Hargs Hparse); [|done|done|by intros [_ [=]]].
    rewrite Hb. by destruct b. }
  unfold ListFilesTool.parseLegacy, or_empty. rewrite Hpp, Hpr.
  destruct (String.eqb_spec p "") as [->|_]; by destruct b.
Qed.

(** X25: for [attempt_completion] with a non-empty string as [result], the
    typed arguments and the legacy parameters of the returned invocation
    carry the same result, so that [execute] receives it whichever of the
    two [handle] resolves. *)
Theorem attempt_completion_protocols_agree toolCall props result :
  ToolCall.name toolCall = "attempt_completion" →
  "attempt_completion" ∈ toolNames → "result" ∈ toolParamNames →
  JSON_parse (ToolCall.arguments toolCall) = Normal (VObject props) →
  own_property "result" props = Some (VString result) → result ≠ "" →
  ∃ r native legacy,
    parse toolCall = Normal (Some r) ∧
    nativeArgs r = Some native ∧
    AttemptCompletionTool.parseLegacy (params r) = Normal legacy ∧
    get native "result" = VString result ∧
    get legacy "result" = VString result.
Proof.
  intros Hname Htool Hresult Hargs Hown Hne.
  assert (buildNativeArgs "attempt_completion" (VObject props)
          = Normal (Some (VObject [("result", VString result)]))) as Hnative.
  { unfold buildNativeArgs. cbn [String.eqb Ascii.eqb Bool.eqb get]. rewrite Hown.
    cbn [default from_option id ToBoolean]. apply eqb_false in Hne. by rewrite Hne. }
  assert (∃ r, parse toolCall = Normal (Some r)
               ∧ nativeArgs r = Some (VObject [("result", VString result)]))
    as (r & Hparse & Hn).
  { eexists. split.
    - eapply parse_accepts; [by rewrite Hname|done|done|]. rewrite Hname. exact Hnative.
    - done. }
  assert (params r !! "result" = Some result) as Hp.
  { rewrite (parsed_params _ _ _ _ Hargs Hparse); [by rewrite Hown|done|done|].
    by intros [_ [=]]. }
  exists r. eexists _, _. split; [done|]. split; [done|]. split; [done|].
  split; [done|]. cbn. unfold or_empty. rewrite Hp.
  apply eqb_false in Hne. by rewrite Hne.
Qed.

End LegacyParams.

(** ** The dispatch contract: exceptions *)

Section DispatchFacts.
Context `{JsNumber} {Task : Type}.
Implicit Types (tool : BaseTool.t Task) (cline : Task) (block : ToolUse)
  (callbacks : ToolCallbacks).

Import BaseTool.

(** X26: [handle] adds no exception of its own: when it throws, the
    exception is one that [handlePartial], [execute], the error callback or
    [pushToolResult] has thrown; an exception of [parseLegacy] is not among
    them. *)
Theorem handle_adds_no_exception tool cline block callbacks e :
  completes (handle tool cline block callbacks) = Throw e →
  handlePartial tool cline block = Throw e ∨
  (∃ p, execute tool p cline callbacks = Throw e) ∨
  (∃ action error, handleError callbacks action error = Throw e) ∨
  (∃ text, pushToolResult callbacks text = Throw e).
Proof.
  unfold handle, resolveParams. destruct (partial block); [by left|].
  destruct (nativeArgs block) as [native|].
  { intros He. right. left. by exists native. }
  unfold call. destruct (parseLegacy tool (params block)) as [p|error].
  { intros He. right. left. by exists p. }
  unfold after, bind, completes.
  destruct (handleError callbacks _ _) as [[]|e'] eqn:Herror; cbn [fst snd].
  - intros He. right. right. right. eauto.
  - intros [= ->]. right. right. left. eauto.
Qed.

End DispatchFacts.


(** ** The further properties at concrete inputs *)

Section EvaluatedFurther.
#[local] Existing Instance Decimal.decimal.

Import NativeToolCallParser.

Abbreviation parse := (parseToolCall someToolNames someToolParamNames).

(** Membership in an explicit list, by evaluation. *)
Ltac member := apply (bool_decide_unpack _); vm_compute; exact I.

(** Membership of a call or an event in an evaluated run. *)
Ltac made_in := repeat first [apply list_elem_of_here | apply list_elem_of_further].

(** No suffix of a given body is a white-space character. *)
Ltac no_space :=
  let pre := fresh "pre" in let w := fresh "w" in let Heq := fresh "Heq" in
  intros pre w Heq;
  repeat (destruct pre as [|? pre];
          [cbv [String.append] in Heq; subst w; vm_compute; discriminate
          |cbv [String.append] in Heq; fold String.append in Heq;
           try discriminate Heq; injection Heq as _ Heq]).

(** X1 at a result followed by white space and the beginning of its
    closing tag. *)
Lemma removeClosingTag_removes_suffix_witness :
  ∃ removed,
    "Done </res" = removeClosingTag "result" (Some "Done </res") true +:+ removed ∧
    (removed = "" ∨
     true = true ∧
     ∃ space slash letters,
       removed = space +:+ "<" +:+ slash +:+ letters ∧
       (space = "" ∨ whitespace space = Some "") ∧
       (slash = "" ∨ slash = "/") ∧
       sublist (list_ascii_of_string letters) (list_ascii_of_string "result")).
Proof.
  apply (removeClosingTag_removes_suffix "result" (Some "Done </res") true).
  reflexivity.
Defined.

(** X2 at a path that ends with its complete closing tag. *)
Lemma removeClosingTag_unchanged_witness :
  removeClosingTag "path" (Some "src</path>") true = "src</path>".
Proof.
  apply (removeClosingTag_unchanged "path" "src</path>" true ">"%char).
  - reflexivity.
  - reflexivity.
  - discriminate.
  - discriminate.
  - member.
Defined.

(** X3 at a path followed by the beginning of its closing tag. *)
Lemma removeClosingTag_strips_streamed_tag_witness :
  removeClosingTag "path" (Some "src/app</pa") true = "src/app".
Proof.
  apply (removeClosingTag_strips_streamed_tag "path" "src/app" "</pa").
  - reflexivity.
  - discriminate.
  - left. reflexivity.
  - member.
  - no_space.
Defined.


(** X7 at a partial completion with a command. *)
Lemma attempt_completion_partial_reports_completion_witness :
  CaptureTaskCompleted
    ∈ events (AttemptCompletion.handlePartial
                (conversationWith false (Normal tt) accepted) commandBlock).
Proof.
  apply (attempt_completion_partial_reports_completion
           (conversationWith false (Normal tt) accepted) commandBlock).
  split; [|split].
  - exists "npm test". split; [reflexivity|discriminate].
  - reflexivity.
  - reflexivity.
Defined.

(** X8 at an approved listing. *)
Lemma list_files_pushes_only_when_approved_witness :
  ToBoolean (get listFilesParams "path") = false
  ∧ sayAndCreateMissingParamError exampleTask "list_files" "path" = Normal "a.ts,b.ts"
  ∨ ∃ absolutePath files didHitLimit state,
      path_resolve exampleWorkspace "/work" (VString "src") = Normal absolutePath
      ∧ listFiles exampleWorkspace absolutePath (VBool false) 200
        = Normal (files, didHitLimit)
      ∧ getShowRooIgnoredFiles exampleWorkspace = Normal state
      ∧ "a.ts,b.ts"
        = formatFilesList exampleWorkspace absolutePath files didHitLimit
            (default false state)
      ∧ askApproval exampleCallbacks "tool"
          (ListFiles.completeMessage exampleWorkspace (VString "src") VUndefined
             absolutePath "a.ts,b.ts")
        = Normal true.
Proof.
  apply (list_files_pushes_only_when_approved exampleWorkspace listFilesParams
           exampleTask exampleCallbacks "a.ts,b.ts").
  made_in.
Defined.

(** X9 at a listing whose approval is rejected by a closed session. *)
Lemma execute_throws_only_from_handleError_witness :
  destructure listFilesParams = Throw (Error "closed")
  ∨ ∃ e', HandleError "listing files" e'
            ∈ calls (ListFiles.execute exampleWorkspace listFilesParams exampleTask
                       closedCallbacks)
          ∧ handleError closedCallbacks "listing files" e' = Throw (Error "closed").
Proof.
  apply (proj1 (execute_throws_only_from_handleError listFilesParams exampleTask
                  closedCallbacks (Error "closed"))
           exampleWorkspace).
  reflexivity.
Defined.

(** X11 at an approved listing, which resets the counter. *)
Lemma mistake_never_counted_and_reset_witness :
  MistakeCountIncrement
    ∉ calls (ListFiles.execute exampleWorkspace listFilesParams exampleTask
               exampleCallbacks).
Proof.
  apply (proj1 (mistake_never_counted_and_reset listFilesParams exampleTask
                  exampleCallbacks)
           exampleWorkspace).
  made_in.
Defined.

Abbreviation newTask :=
  (NewTaskTool.execute (Some exampleProvider) false exampleChecklist exampleModes "code"
     (λ s, s) (λ s, s)).

(** X12 at an approved delegation to the mode [code]. *)
Lemma subtask_started_only_when_approved_witness :
  ∃ targetMode message,
    get (newTaskParams VUndefined) "message" = VString message ∧
    "see \@file" = NewTaskTool.unescape message ∧
    askApproval exampleCallbacks "tool"
      (stringifyObject [("tool", VString "newTask"); ("mode", VString targetMode);
                        ("content", VString message); ("todos", VArray [])])
    = Normal true.
Proof.
  destruct (subtask_started_only_when_approved (Some exampleProvider) false
              exampleChecklist exampleModes "code" (λ s, s) (λ s, s)
              (newTaskParams VUndefined) exampleTask exampleCallbacks
              "see \@file" [] (VString "code"))
    as (provider & state & targetMode & message & _ & _ & _ & _ & Hm & Hu & Ha).
  - made_in.
  - exists targetMode, message. split; [exact Hm|]. split; [exact Hu|exact Ha].
Defined.

(** X13 at the same delegation: the mode of the provider is recorded. *)
Lemma subtask_started_after_mode_saved_witness :
  SetPausedModeSlug "architect"
    ∈ calls (newTask (newTaskParams VUndefined) exampleTask exampleCallbacks).
Proof.
  destruct (subtask_started_after_mode_saved (Some exampleProvider) false
              exampleChecklist exampleModes "code" (λ s, s) (λ s, s)
              (newTaskParams VUndefined) exampleTask exampleCallbacks
              "see \@file" [] (VString "code"))
    as (provider & state & Hprovider & Hstate & Hpaused & _).
  - made_in.
  - injection Hprovider as <-. injection Hstate as <-. exact Hpaused.
Defined.

(** X14 at empty todos: the setting makes no difference. *)
Lemma requireTodos_rejects_only_undefined_witness :
  NewTaskTool.execute (Some exampleProvider) true exampleChecklist exampleModes "code"
    (λ s, s) (λ s, s) (newTaskParams (VString "")) exampleTask exampleCallbacks
  = newTask (newTaskParams (VString "")) exampleTask exampleCallbacks.
Proof.
  apply (proj1 (requireTodos_rejects_only_undefined (Some exampleProvider)
                  exampleChecklist exampleModes "code" (λ s, s) (λ s, s)
                  (newTaskParams (VString "")) exampleTask exampleCallbacks)).
  discriminate.
Defined.

(** X15 at todos that are no checklist. *)
Lemma invalid_todos_reported_witness :
  newTask (newTaskParams (VString "later")) exampleTask exampleCallbacks
  = ([MistakeCountIncrement; RecordToolError "new_task";
      PushToolResult "Invalid todos format: must be a markdown checklist"],
     Normal tt).
Proof.
  exact (invalid_todos_reported (Some exampleProvider) false exampleChecklist
           exampleModes "code" (λ s, s) (λ s, s) (newTaskParams (VString "later"))
           exampleTask exampleCallbacks exampleProvider _ (Error "not a checklist")
           eq_refl eq_refl eq_refl eq_refl eq_refl eq_refl eq_refl eq_refl).
Defined.

(** X16 at the approved delegation. *)
Lemma new_task_delegates_witness :
  newTask (newTaskParams VUndefined) exampleTask exampleCallbacks
  = ([MistakeCountReset;
      AskApproval "tool"
        (stringifyObject [("tool", VString "newTask"); ("mode", VString "Code");
                          ("content", VString "see \\@file"); ("todos", VArray [])]);
      SetPausedModeSlug "architect";
      StartSubtask "see \@file" [] (VString "code");
      PushToolResult
        "Successfully created new task in Code mode with message: see \@file and 0 todo items"],
     Normal tt).
Proof.
  exact (new_task_delegates (Some exampleProvider) false exampleChecklist
           exampleModes "code" (λ s, s) (λ s, s) (newTaskParams VUndefined)
           exampleTask exampleCallbacks exampleProvider _ _ "see \\@file" [] "Code" true
           eq_refl eq_refl eq_refl ltac:(discriminate) eq_refl eq_refl eq_refl eq_refl
           eq_refl eq_refl eq_refl eq_refl).
Defined.

Abbreviation complete conversation :=
  (AttemptCompletion.execute false (λ s, s) (λ _, []) conversation completionParams
     exampleTask).

(** X17 at a subtask whose finish is approved. *)
Lemma subtask_result_goes_to_parent_witness :
  askFinishSubTaskApproval exampleCompletionCallbacks = Normal true
  ∧ Made (PushToolResult "Done")
      ∉ events (complete (conversationWith true (Normal tt) accepted)
                  exampleCompletionCallbacks).
Proof.
  destruct (subtask_result_goes_to_parent false (λ s, s) (λ _, [])
              (conversationWith true (Normal tt) accepted) completionParams exampleTask
              exampleCompletionCallbacks (VString "Done"))
    as (_ & Happroved & _ & Hnone).
  - made_in.
  - split; [exact Happroved|apply Hnone].
Defined.

(** X18 at a user who answers with feedback. *)
Lemma feedback_goes_to_user_message_witness :
  parentTask (conversationWith false (Normal tt) feedback) = false
  ∧ Made (PushToolResult "")
      ∉ events (complete (conversationWith false (Normal tt) feedback)
                  exampleCompletionCallbacks).
Proof.
  destruct (feedback_goes_to_user_message false (λ s, s) (λ _, [])
              (conversationWith false (Normal tt) feedback) completionParams exampleTask
              exampleCompletionCallbacks [TextBlock "[attempt_completion] Result:"])
    as (Hroot & _ & Hnone).
  - made_in.
  - split; [exact Hroot|apply Hnone].
Defined.

(** X19 at a user who accepts. *)
Lemma completion_pushes_result_witness :
  (false && hasIncompleteTodos exampleTask = true ∧
   "" = "Cannot complete task while there are incomplete todos. Please finish all todos before attempting completion.") ∨
  (ToBoolean (get completionParams "result") = false ∧
   sayAndCreateMissingParamError exampleTask "attempt_completion" "result" = Normal "") ∨
  ("" = "" ∧ parentTask (conversationWith false (Normal tt) accepted) = false ∧
   ∃ answer,
     ask (conversationWith false (Normal tt) accepted) "completion_result" "" (Some false)
     = Normal answer ∧
     response answer = "yesButtonClicked").
Proof.
  apply (completion_pushes_result false (λ s, s) (λ _, [])
           (conversationWith false (Normal tt) accepted) completionParams exampleTask
           exampleCompletionCallbacks "").
  made_in.
Defined.

(** X20 at that user. *)
Lemma completion_reported_before_answer_witness :
  ∃ later,
    events (complete (conversationWith false (Normal tt) accepted)
              exampleCompletionCallbacks)
    = Made MistakeCountReset
      :: Say "completion_result" (VString "Done") None (Some false)
      :: CaptureTaskCompleted :: EmitTaskCompleted
      :: Ask "completion_result" "" (Some false) :: later.
Proof.
  apply (completion_reported_before_answer false (λ s, s) (λ _, [])
           (conversationWith false (Normal tt) accepted) completionParams exampleTask
           exampleCompletionCallbacks (Ask "completion_result" "" (Some false))).
  - left. reflexivity.
  - made_in.
Defined.

(** X10 at a closed session: what [say] throws comes back from the error
    callback. *)
Lemma completion_throws_witness :
  destructure completionParams = Throw (Error "closed") ∨
  (∃ e', handleError closedCallbacks "inspecting site" e' = Throw (Error "closed")) ∨
  (false && hasIncompleteTodos exampleTask = true ∧
   (recordToolError exampleTask "attempt_completion" = Throw (Error "closed") ∨
    pushToolResult closedCallbacks
      "Cannot complete task while there are incomplete todos. Please finish all todos before attempting completion."
    = Throw (Error "closed"))).
Proof.
  apply (completion_throws false (λ s, s) (λ _, [])
           (conversationWith false (Throw (Error "closed")) accepted) completionParams
           exampleTask
           {| shared := closedCallbacks; askFinishSubTaskApproval := Normal true;
              toolDescription := Normal "[attempt_completion]" |}
           (Error "closed")).
  reflexivity.
Defined.

(** The invocation returned for [{"path": "src", "recursive": true}]. *)
Lemma parse_recursive_arguments :
  parse (toolCall "list_files" recursive_arguments)
  = Normal (Some {| name := "list_files";
                    params := {[ "path" := "src"; "recursive" := "true" ]};
                    partial := false; nativeArgs := None |}).
Proof. reflexivity. Qed.

(** X21 at that call: the boolean arrives as its JSON text, and a
    parameter that was not sent is absent. *)
Lemma params_hold_recognised_arguments_witness :
  ∃ r, parse (toolCall "list_files" recursive_arguments) = Normal (Some r)
       ∧ params r !! "recursive" = Some "true".
Proof.
  eexists. split; [exact parse_recursive_arguments|].
  assert ("recursive" ∈ someToolParamNames) as Hin by member.
  destruct (params_hold_recognised_arguments someToolNames someToolParamNames
              (toolCall "list_files" recursive_arguments)
              [("path", VString "src"); ("recursive", VBool true)] _ "recursive"
              eq_refl parse_recursive_arguments Hin)
    as (Hkey & _ & _).
  - discriminate.
  - intros [[=] _].
  - exact Hkey.
Defined.

(** X22 at the multi-file call of [read_file]. *)
Lemma revisions_agree_on_params_witness :
  ∃ r0, UntypedNativeToolCallParser.parseToolCall someToolNames someToolParamNames
          (toolCall "read_file" multi_file_arguments) = Normal (Some r0)
        ∧ name r0 = "read_file" ∧ partial r0 = false
        ∧ (∅ : gmap string string) = delete "files" (params r0).
Proof.
  exact (revisions_agree_on_params someToolNames someToolParamNames
           (toolCall "read_file" multi_file_arguments)
           {| name := "read_file"; params := ∅; partial := false;
              nativeArgs :=
                Some (VArray
                        [VObject [("path", VString "a.txt");
                                  ("line_ranges",
                                   VArray [VArray [VNumber (StringToNumber "1");
                                                   VNumber (StringToNumber "5")]])]]) |}
           eq_refl).
Defined.

(** X23 at [list_files]. *)
Lemma unconverted_tools_take_legacy_path_witness :
  ∃ r, parse (toolCall "list_files" recursive_arguments) = Normal (Some r)
       ∧ nativeArgs r = None
       ∧ ∃ rest, calls (BaseTool.handle listFilesTool exampleTask r exampleCallbacks)
                 = ParseLegacy (params r) :: rest.
Proof.
  eexists. split; [exact parse_recursive_arguments|].
  destruct (unconverted_tools_take_legacy_path someToolNames someToolParamNames
              (toolCall "list_files" recursive_arguments) _ parse_recursive_arguments)
    as [Hnone Hhandle].
  - member.
  - split; [exact Hnone|]. apply Hhandle.
Defined.

(** X24 at that call. *)
Lemma list_files_native_arguments_arrive_witness :
  ∃ r, parse (toolCall "list_files" recursive_arguments) = Normal (Some r)
       ∧ nativeArgs r = None
       ∧ ListFilesTool.parseLegacy (params r)
         = Normal (VObject [("path", VString "src"); ("recursive", VBool true)]).
Proof.
  apply (list_files_native_arguments_arrive someToolNames someToolParamNames
           (toolCall "list_files" recursive_arguments)
           [("path", VString "src"); ("recursive", VBool true)] "src" true).
  - reflexivity.
  - member.
  - member.
  - member.
  - reflexivity.
  - reflexivity.
  - reflexivity.
Defined.

(** X25 at [{"result": "Done"}]. *)
Lemma attempt_completion_protocols_agree_witness :
  ∃ r native legacy,
    parse (toolCall "attempt_completion" done_result_arguments) = Normal (Some r)
    ∧ nativeArgs r = Some native
    ∧ AttemptCompletionTool.parseLegacy (params r) = Normal legacy
    ∧ get native "result" = VString "Done"
    ∧ get legacy "result" = VString "Done".
Proof.
  apply (attempt_completion_protocols_agree someToolNames someToolParamNames
           (toolCall "attempt_completion" done_result_arguments)
           [("result", VString "Done")] "Done").
  - reflexivity.
  - member.
  - member.
  - reflexivity.
  - reflexivity.
  - discriminate.
Defined.

(** X26 at a tool whose [execute] fails. *)
Lemma handle_adds_no_exception_witness :
  BaseTool.handlePartial failingTool exampleTask nativeBlock = Throw (Error "disk failure")
  ∨ (∃ p, BaseTool.execute failingTool p exampleTask exampleCallbacks
          = Throw (Error "disk failure"))
  ∨ (∃ action error, handleError exampleCallbacks action error
                     = Throw (Error "disk failure"))
  ∨ (∃ text, pushToolResult exampleCallbacks text = Throw (Error "disk failure")).
Proof.
  apply (handle_adds_no_exception failingTool exampleTask nativeBlock exampleCallbacks
           (Error "disk failure")).
  reflexivity.
Defined.

End EvaluatedFurther.
